(** * Data-Alchemist: the dataset validation engine of [src/app/page.tsx]

    A shallow embedding of the validators that [triggerFullValidation] runs
    over the clients, workers and tasks grids, and the properties of the
    specification that concern them.

    Conventions of the embedding.
    - A cell of a row is a JavaScript primitive ([jsval]); a row is a finite
      map from column names to cells ([gmap string jsval]), a missing column
      reads as [undefined].
    - Strings are sequences of ASCII characters.  White space is the ASCII
      white space of ECMAScript (TAB, LF, VT, FF, CR, SP).
    - Numbers ([number]) are NaN, the two infinities, exact integers and
      exact finite decimal fractions.  The embedding agrees with IEEE
      doubles on the safe integers (magnitude below 2^53); no rounding and
      no exponent notation is modelled.  A property that states a sum, a
      product or the number that a text spells as an integer of [Z] carries
      the hypothesis that the numbers involved are safe integers
      ([safe_integer], [safe_loads], [safe_durations]); the other properties
      state numbers through the operations of the code on both sides.
    - An object used as a dictionary is a [gmap].  Where the keys come from
      the data ([skillToWorkerCount]), a key that names a member of
      [Object.prototype] reads the inherited member, which is no number
      ([JS.dict_get]).
    - [errors.push(...)] inside [forEach] is explicit state passing: the
      body of a loop takes the accumulator and returns the new one.
    - An error message is kept as a structured value ([issue]), one
      constructor per template literal of the source; [render] produces the
      string the source pushes. *)

From Stdlib Require Import ZArith Ascii String List Bool Lia.
From stdpp Require Import base tactics option list gmap strings pretty sorting.

Local Open Scope string_scope.
Local Open Scope list_scope.
Local Open Scope Z_scope.

(** ** Characters and strings *)

Module Str.

Definition in_range (lo hi c : ascii) : bool :=
  (nat_of_ascii lo <=? nat_of_ascii c)%nat && (nat_of_ascii c <=? nat_of_ascii hi)%nat.

Definition is_digit (c : ascii) : bool := in_range "0" "9" c.

Definition is_ws (c : ascii) : bool :=
  match nat_of_ascii c with
  | 9%nat | 10%nat | 11%nat | 12%nat | 13%nat | 32%nat => true
  | _ => false
  end.

Definition digit_val (c : ascii) : Z := Z.of_nat (nat_of_ascii c) - 48.

(** Value of a hexadecimal digit, [None] for any other character. *)
Definition hex_val (c : ascii) : option Z :=
  if is_digit c then Some (digit_val c)
  else if in_range "a" "f" c then Some (Z.of_nat (nat_of_ascii c) - 87)
  else if in_range "A" "F" c then Some (Z.of_nat (nat_of_ascii c) - 55)
  else None.

Fixpoint to_list (s : string) : list ascii :=
  match s with
  | EmptyString => []
  | String c r => c :: to_list r
  end.

Fixpoint of_list (l : list ascii) : string :=
  match l with
  | [] => EmptyString
  | c :: r => String c (of_list r)
  end.

Fixpoint drop_ws (l : list ascii) : list ascii :=
  match l with
  | c :: r => if is_ws c then drop_ws r else l
  | [] => []
  end.

(** [String.prototype.trim] *)
Definition trim (s : string) : string :=
  of_list (rev (drop_ws (rev (drop_ws (to_list s))))).

(** [String.prototype.split] with a one-character separator: the pieces
    between the separators, empty pieces kept; the empty string gives one
    empty piece. *)
Fixpoint split_go (sep : ascii) (cur : list ascii) (l : list ascii) : list string :=
  match l with
  | [] => [of_list (rev cur)]
  | c :: r =>
      if Ascii.eqb c sep then of_list (rev cur) :: split_go sep [] r
      else split_go sep (c :: cur) r
  end.

Definition split (sep : ascii) (s : string) : list string :=
  split_go sep [] (to_list s).

Definition startsWith (p s : string) : bool := String.prefix p s.

Definition endsWith (p s : string) : bool :=
  String.prefix (of_list (rev (to_list p))) (of_list (rev (to_list s))).

(** [Array.prototype.join] on strings *)
Fixpoint join (sep : string) (l : list string) : string :=
  match l with
  | [] => ""
  | [x] => x
  | x :: r => x +:+ sep +:+ join sep r
  end.

Fixpoint take_while (p : ascii -> bool) (l : list ascii) : list ascii :=
  match l with
  | c :: r => if p c then c :: take_while p r else []
  | [] => []
  end.

Fixpoint drop_while (p : ascii -> bool) (l : list ascii) : list ascii :=
  match l with
  | c :: r => if p c then drop_while p r else l
  | [] => []
  end.

(** The double quote character, and the string made of it. *)
Definition dquote : ascii := "034".
Definition quote : string := String dquote "".

(** Value of a digit sequence in base 10, most significant digit first. *)
Definition dec_value (l : list ascii) : Z :=
  fold_left (fun acc c => 10 * acc + digit_val c) l 0.

End Str.

(** ** JavaScript numbers *)

Inductive number : Type :=
| NaN
| Inf (negative : bool)
| Int (z : Z)
| Dec (m : Z) (e : positive).
(** [Dec m e] is the fraction [m / 10^e], with [m] not a multiple of 10;
    [Int 0] stands for both zeros. *)

Global Instance number_eq_dec : EqDecision number.
Proof. solve_decision. Defined.

Definition number_enc (n : number) : unit + bool + Z + Z * positive :=
  match n with
  | NaN => inl (inl (inl tt))
  | Inf b => inl (inl (inr b))
  | Int z => inl (inr z)
  | Dec m e => inr (m, e)
  end.

Definition number_dec (x : unit + bool + Z + Z * positive) : number :=
  match x with
  | inl (inl (inl _)) => NaN
  | inl (inl (inr b)) => Inf b
  | inl (inr z) => Int z
  | inr (m, e) => Dec m e
  end.

Global Instance number_countable : Countable number.
Proof. apply (inj_countable' number_enc number_dec). by intros []. Defined.

Module Num.

(** The number [m / 10^k] in normal form. *)
Fixpoint norm_frac (m : Z) (k : nat) : number :=
  match k with
  | O => Int m
  | S k' => if m mod 10 =? 0 then norm_frac (m / 10) k' else Dec m (Pos.of_succ_nat k')
  end.

(** The number [m * 10^e]. *)
Definition scaled (m e : Z) : number :=
  if 0 <=? e then Int (m * 10 ^ e) else norm_frac m (Z.to_nat (- e)).

(** A finite number as [(m, e)], standing for [m / 10^e]. *)
Definition parts (n : number) : option (Z * Z) :=
  match n with
  | Int z => Some (z, 0)
  | Dec m e => Some (m, Z.pos e)
  | _ => None
  end.

(** Order of two numbers; [None] when one of them is NaN. *)
Definition cmp (a b : number) : option comparison :=
  match a, b with
  | NaN, _ | _, NaN => None
  | Inf x, Inf y => Some (if x then (if y then Eq else Lt) else (if y then Gt else Eq))
  | Inf x, _ => Some (if x then Lt else Gt)
  | _, Inf y => Some (if y then Gt else Lt)
  | _, _ =>
      match parts a, parts b with
      | Some (m1, e1), Some (m2, e2) => Some (m1 * 10 ^ e2 ?= m2 * 10 ^ e1)
      | _, _ => None
      end
  end.

(** [a < b], [a <= b] and [a > b] of JavaScript: false when NaN is involved. *)
Definition lt (a b : number) : bool :=
  match cmp a b with Some Lt => true | _ => false end.
Definition le (a b : number) : bool :=
  match cmp a b with Some Lt | Some Eq => true | _ => false end.
Definition gt (a b : number) : bool := lt b a.

(** The sign of [a - b]; [None] when the difference is NaN. *)
Definition sub_sign (a b : number) : option comparison :=
  match a, b with
  | Inf x, Inf y => if Bool.eqb x y then None else cmp a b
  | _, _ => cmp a b
  end.

Definition isNaN (n : number) : bool :=
  match n with NaN => true | _ => false end.

(** [===] on numbers. *)
Definition strict_eq (a b : number) : bool :=
  negb (isNaN a) && bool_decide (a = b).

(** The SameValueZero comparison of [Set] and [Array.prototype.includes]. *)
Definition same_value_zero (a b : number) : bool := bool_decide (a = b).

(** ToBoolean on a number. *)
Definition truthy (n : number) : bool :=
  match n with NaN | Int 0 => false | _ => true end.

Fixpoint zeros (k : nat) : string :=
  match k with O => "" | S k' => String "0" (zeros k') end.

(** Number::toString, radix 10, without the exponent notation: the text
    that the code makes of an integer below 10^21 in magnitude and of a
    fraction of magnitude at least 10^-6. *)
Definition toString (n : number) : string :=
  match n with
  | NaN => "NaN"
  | Inf false => "Infinity"
  | Inf true => "-Infinity"
  | Int z => pretty z
  | Dec m e =>
      let a := Z.abs m in
      let p := 10 ^ Z.pos e in
      let frac := pretty (a mod p) in
      (if m <? 0 then "-" else "") +:+ pretty (a / p) +:+ "." +:+
      zeros (Pos.to_nat e - String.length frac) +:+ frac
  end.

(** A scanned decimal literal: integer digits, fraction digits, and the
    exponent when there is one; [lit_rest] is what follows the literal. *)
Record literal := {
  lit_int : list ascii;
  lit_dot : bool;
  lit_frac : list ascii;
  lit_exp : option Z;
  lit_rest : list ascii }.

Definition scan_exp (l : list ascii) : option Z * list ascii :=
  match l with
  | c :: r =>
      if Ascii.eqb c "e" || Ascii.eqb c "E" then
        let '(neg, r') :=
          match r with
          | s :: t => if Ascii.eqb s "-" then (true, t)
                      else if Ascii.eqb s "+" then (false, t) else (false, r)
          | [] => (false, r)
          end in
        let ds := Str.take_while Str.is_digit r' in
        match ds with
        | [] => (None, l)
        | _ => (Some (if neg then - Str.dec_value ds else Str.dec_value ds),
                Str.drop_while Str.is_digit r')
        end
      else (None, l)
  | [] => (None, l)
  end.

Definition scan (l : list ascii) : literal :=
  let ip := Str.take_while Str.is_digit l in
  let r1 := Str.drop_while Str.is_digit l in
  let '(dot, fp, r2) :=
    match r1 with
    | c :: t => if Ascii.eqb c "."
                then (true, Str.take_while Str.is_digit t, Str.drop_while Str.is_digit t)
                else (false, [], r1)
    | [] => (false, [], r1)
    end in
  let '(ex, r3) := scan_exp r2 in
  {| lit_int := ip; lit_dot := dot; lit_frac := fp; lit_exp := ex; lit_rest := r3 |}.

Definition literal_value (neg : bool) (t : literal) : number :=
  let m := Str.dec_value (lit_int t ++ lit_frac t) in
  scaled (if neg then - m else m)
         (default 0 (lit_exp t) - Z.of_nat (length (lit_frac t))).

(** Digits of a literal in radix 2, 8 or 16. *)
Fixpoint radix_value (radix : Z) (acc : Z) (l : list ascii) : option Z :=
  match l with
  | [] => Some acc
  | c :: r =>
      match Str.hex_val c with
      | Some d => if d <? radix then radix_value radix (radix * acc + d) r else None
      | None => None
      end
  end.

Definition radix_of_prefix (c : ascii) : option Z :=
  if Ascii.eqb c "x" || Ascii.eqb c "X" then Some 16
  else if Ascii.eqb c "o" || Ascii.eqb c "O" then Some 8
  else if Ascii.eqb c "b" || Ascii.eqb c "B" then Some 2
  else None.

Definition split_sign (l : list ascii) : bool * list ascii :=
  match l with
  | c :: r => if Ascii.eqb c "-" then (true, r)
              else if Ascii.eqb c "+" then (false, r) else (false, l)
  | [] => (false, l)
  end.

(** StrDecimalLiteral: an optional sign, then [Infinity] or digits with an
    optional fraction and exponent, and nothing after it. *)
Definition decimal_literal (l : list ascii) : number :=
  let '(neg, r) := split_sign l in
  if bool_decide (Str.of_list r = "Infinity") then Inf neg
  else
    let t := scan r in
    match lit_int t ++ lit_frac t, lit_rest t with
    | _ :: _, [] => literal_value neg t
    | _, _ => NaN
    end.

(** StringToNumber: [Number(s)] on a string, as the exact value that the
    text spells; the code holds the nearest double, which is that value when
    it is a safe integer. *)
Definition ofString (s : string) : number :=
  match Str.to_list (Str.trim s) with
  | [] => Int 0
  | c0 :: p :: d :: r =>
      match (if Ascii.eqb c0 "0" then radix_of_prefix p else None) with
      | Some radix =>
          match radix_value radix 0 (d :: r) with
          | Some v => Int v
          | None => NaN
          end
      | None => decimal_literal (c0 :: p :: d :: r)
      end
  | l => decimal_literal l
  end.

(** [parseInt(s)] without a radix: leading white space, a sign, [0x] for
    radix 16, then the longest run of digits; what follows is ignored.  The
    result is the exact value of the digits; the code holds the nearest
    double, which is that value when it is a safe integer. *)
Definition parseInt (s : string) : number :=
  let '(neg, l) := split_sign (Str.drop_ws (Str.to_list s)) in
  let sign (v : Z) := if neg then - v else v in
  match l with
  | c0 :: p :: r =>
      if Ascii.eqb c0 "0" && (Ascii.eqb p "x" || Ascii.eqb p "X") then
        match Str.take_while (fun c => bool_decide (is_Some (Str.hex_val c))) r with
        | [] => NaN
        | ds => match radix_value 16 0 ds with Some v => Int (sign v) | None => NaN end
        end
      else
        match Str.take_while Str.is_digit l with
        | [] => NaN
        | ds => Int (sign (Str.dec_value ds))
        end
  | _ =>
      match Str.take_while Str.is_digit l with
      | [] => NaN
      | ds => Int (sign (Str.dec_value ds))
      end
  end.

End Num.

(** ** Regular expressions

    The expressions of the source are all anchored at both ends, so
    [RegExp.prototype.test] is a match of the whole string; it is decided
    with derivatives. *)

Module Regex.

Inductive re : Type :=
| Void
| Eps
| Chr (c : ascii)
| Rng (lo hi : ascii)
| Cat (a b : re)
| Alt (a b : re)
| Star (a : re).

Definition Plus (a : re) : re := Cat a (Star a).

Fixpoint nullable (r : re) : bool :=
  match r with
  | Void | Chr _ | Rng _ _ => false
  | Eps | Star _ => true
  | Cat a b => nullable a && nullable b
  | Alt a b => nullable a || nullable b
  end.

Fixpoint deriv (c : ascii) (r : re) : re :=
  match r with
  | Void | Eps => Void
  | Chr d => if Ascii.eqb c d then Eps else Void
  | Rng lo hi => if Str.in_range lo hi c then Eps else Void
  | Cat a b =>
      if nullable a then Alt (Cat (deriv c a) b) (deriv c b) else Cat (deriv c a) b
  | Alt a b => Alt (deriv c a) (deriv c b)
  | Star a => Cat (deriv c a) (Star a)
  end.

Fixpoint matches (r : re) (s : string) : bool :=
  match s with
  | EmptyString => nullable r
  | String c t => matches (deriv c r) t
  end.

(** [/^r$/.test(s)] *)
Definition test (r : re) (s : string) : bool := matches r s.

End Regex.

(** ** JSON.parse *)

Local Unset Elimination Schemes.
Inductive json : Type :=
| JNull
| JBool (b : bool)
| JNum (n : number)
| JStr (raw : string)
| JArr (items : list json)
| JObj (members : list (string * json)).
(** [JStr] keeps the characters between the quotes as they are written,
    escape sequences included. *)
Local Set Elimination Schemes.

Module Json.

Definition is_json_ws (c : ascii) : bool :=
  match nat_of_ascii c with
  | 9%nat | 10%nat | 13%nat | 32%nat => true
  | _ => false
  end.

Definition skip_ws (l : list ascii) : list ascii := Str.drop_while is_json_ws l.

(** [eat p l]: what follows [p] at the head of [l]. *)
Fixpoint eat (p : list ascii) (l : list ascii) : option (list ascii) :=
  match p, l with
  | [], _ => Some l
  | c :: p', d :: l' => if Ascii.eqb c d then eat p' l' else None
  | _ :: _, [] => None
  end.

Definition is_hex (c : ascii) : bool := bool_decide (is_Some (Str.hex_val c)).

Definition is_escape (c : ascii) : bool :=
  bool_decide (c ∈ Str.dquote :: Str.to_list "\/bfnrt").

(** The characters of a string literal after the opening quote, up to the
    closing quote. *)
Fixpoint string_body (l : list ascii) (acc : list ascii) : option (string * list ascii) :=
  match l with
  | [] => None
  | c :: r =>
      if Ascii.eqb c Str.dquote then Some (Str.of_list (rev acc), r)
      else if (nat_of_ascii c <? 32)%nat then None
      else if Ascii.eqb c "\" then
        match r with
        | e :: r' =>
            if is_escape e then string_body r' (e :: c :: acc)
            else if Ascii.eqb e "u" then
              match r' with
              | h1 :: h2 :: h3 :: h4 :: r'' =>
                  if is_hex h1 && is_hex h2 && is_hex h3 && is_hex h4
                  then string_body r'' (h4 :: h3 :: h2 :: h1 :: e :: c :: acc)
                  else None
              | _ => None
              end
            else None
        | [] => None
        end
      else string_body r (c :: acc)
  end.

(** A JSON number: [-]? int frac? exp?, no leading zero, no bare dot. *)
Definition number_token (l : list ascii) : option (number * list ascii) :=
  let '(neg, r) :=
    match l with
    | c :: t => if Ascii.eqb c "-" then (true, t) else (false, l)
    | [] => (false, l)
    end in
  let t := Num.scan r in
  let int_ok :=
    match Num.lit_int t with
    | [] => false
    | [_] => true
    | c :: _ => negb (Ascii.eqb c "0")
    end in
  let frac_ok := negb (Num.lit_dot t) || negb (bool_decide (Num.lit_frac t = [])) in
  if int_ok && frac_ok then Some (Num.literal_value neg t, Num.lit_rest t) else None.

Section elements.
Variable value : list ascii -> option (json * list ascii).

(** The elements of an array after the first [[], at least one. *)
Fixpoint elements (fuel : nat) (l : list ascii) (acc : list json)
  : option (list json * list ascii) :=
  match fuel with
  | O => None
  | S f =>
      match value l with
      | Some (v, r) =>
          match skip_ws r with
          | c :: r' =>
              if Ascii.eqb c "," then elements f r' (v :: acc)
              else if Ascii.eqb c "]" then Some (rev (v :: acc), r')
              else None
          | [] => None
          end
      | None => None
      end
  end.

(** The members of an object after the [{], at least one. *)
Fixpoint members (fuel : nat) (l : list ascii) (acc : list (string * json))
  : option (list (string * json) * list ascii) :=
  match fuel with
  | O => None
  | S f =>
      match skip_ws l with
      | q :: r0 =>
          if Ascii.eqb q Str.dquote then
            match string_body r0 [] with
            | Some (k, r1) =>
                match skip_ws r1 with
                | c :: r2 =>
                    if Ascii.eqb c ":" then
                      match value r2 with
                      | Some (v, r3) =>
                          match skip_ws r3 with
                          | d :: r4 =>
                              if Ascii.eqb d "," then members f r4 ((k, v) :: acc)
                              else if Ascii.eqb d "}" then Some (rev ((k, v) :: acc), r4)
                              else None
                          | [] => None
                          end
                      | None => None
                      end
                    else None
                | [] => None
                end
            | None => None
            end
          else None
      | [] => None
      end
  end.
End elements.

Fixpoint value (fuel : nat) (l : list ascii) : option (json * list ascii) :=
  match fuel with
  | O => None
  | S f =>
      match skip_ws l with
      | [] => None
      | c :: r =>
          if Ascii.eqb c "[" then
            match skip_ws r with
            | d :: r' =>
                if Ascii.eqb d "]" then Some (JArr [], r')
                else
                  match elements (value f) (length r) r [] with
                  | Some (vs, r'') => Some (JArr vs, r'')
                  | None => None
                  end
            | [] => None
            end
          else if Ascii.eqb c "{" then
            match skip_ws r with
            | d :: r' =>
                if Ascii.eqb d "}" then Some (JObj [], r')
                else
                  match members (value f) (length r) r [] with
                  | Some (ms, r'') => Some (JObj ms, r'')
                  | None => None
                  end
            | [] => None
            end
          else if Ascii.eqb c Str.dquote then
            match string_body r [] with
            | Some (s, r') => Some (JStr s, r')
            | None => None
            end
          else
            match eat (Str.to_list "null") (c :: r),
                  eat (Str.to_list "true") (c :: r),
                  eat (Str.to_list "false") (c :: r) with
            | Some r', _, _ => Some (JNull, r')
            | _, Some r', _ => Some (JBool true, r')
            | _, _, Some r' => Some (JBool false, r')
            | _, _, _ =>
                match number_token (c :: r) with
                | Some (n, r') => Some (JNum n, r')
                | None => None
                end
            end
      end
  end.

(** [JSON.parse(s)]; [None] when it throws a SyntaxError.  The fuel is
    never exhausted: every level of nesting consumes a bracket and every
    element or member at least one character, so [value] is entered with
    more fuel than characters left, and [elements] and [members] with at
    least as much. *)
Definition parse (s : string) : option json :=
  let l := Str.to_list s in
  match value (S (length l)) l with
  | Some (v, r) => match skip_ws r with [] => Some v | _ => None end
  | None => None
  end.

End Json.

(** ** Cells, rows and the built-ins applied to them *)

Inductive jsval : Type :=
| VUndef
| VNull
| VBool (b : bool)
| VNum (n : number)
| VStr (s : string).

Global Instance jsval_eq_dec : EqDecision jsval.
Proof. solve_decision. Defined.

(** A row of a grid: [DataWithId], a record with arbitrary columns. *)
Abbreviation row := (gmap string jsval).

Module JS.

(** ToBoolean *)
Definition truthy (v : jsval) : bool :=
  match v with
  | VUndef | VNull => false
  | VBool b => b
  | VNum n => Num.truthy n
  | VStr s => negb (bool_decide (s = ""))
  end.

(** [a || b] on cells *)
Definition or (a b : jsval) : jsval := if truthy a then a else b.

(** [String(v)], and [${v}] in a template literal *)
Definition ToString (v : jsval) : string :=
  match v with
  | VUndef => "undefined"
  | VNull => "null"
  | VBool true => "true"
  | VBool false => "false"
  | VNum n => Num.toString n
  | VStr s => s
  end.

(** [a === b] *)
Definition strict_eq (a b : jsval) : bool :=
  match a, b with
  | VNum x, VNum y => Num.strict_eq x y
  | _, _ => bool_decide (a = b)
  end.

(** [row[col]]: a missing property reads as [undefined]. *)
Definition get (r : row) (col : string) : jsval := default VUndef (r !! col).

(** [Object.keys(r)] *)
Definition keys (r : row) : list string := (map_to_list r).*1.

(** [n || d] where [n] is read from a dictionary of numbers; [None] is
    [undefined]. *)
Definition num_or (o : option number) (d : number) : number :=
  match o with
  | Some n => if Num.truthy n then n else d
  | None => d
  end.

(** [a + b] on numbers, as the exact sum; the code holds the nearest
    double, which is that sum when it is a safe integer. *)
Definition add (a b : number) : number :=
  match a, b with
  | Int x, Int y => Int (x + y)
  | NaN, _ | _, NaN => NaN
  | Inf x, Inf y => if Bool.eqb x y then a else NaN
  | Inf _, _ => a
  | _, Inf _ => b
  | _, _ =>
      match Num.parts a, Num.parts b with
      | Some (m1, e1), Some (m2, e2) =>
          Num.scaled (m1 * 10 ^ e2 + m2 * 10 ^ e1) (- (e1 + e2))
      | _, _ => NaN
      end
  end.

(** [l.indexOf(x)]: the first index holding a value [===] to [x]. *)
Fixpoint indexOf (l : list jsval) (x : jsval) : option nat :=
  match l with
  | [] => None
  | y :: r => if strict_eq y x then Some O else S <$> indexOf r x
  end.

(** [l.includes(x)], by SameValueZero. *)
Definition includes {A} `{EqDecision A} (l : list A) (x : A) : bool :=
  bool_decide (x ∈ l).

(** A [Set]: its elements in insertion order, without repetition. *)
Definition Set_add {A} `{EqDecision A} (s : list A) (x : A) : list A :=
  if decide (x ∈ s) then s else s ++ [x].

Definition Set_from {A} `{EqDecision A} (l : list A) : list A :=
  foldl Set_add [] l.

(** [l.forEach((x, i) => ...)] where the body updates the state [S]. *)
Fixpoint forEach_from {A S} (i : nat) (body : S -> A -> nat -> S) (l : list A) (s : S) : S :=
  match l with
  | [] => s
  | x :: r => forEach_from (Datatypes.S i) body r (body s x i)
  end.

Definition forEach {A S} (body : S -> A -> nat -> S) (l : list A) (s : S) : S :=
  forEach_from O body l s.

(** [l.sort((a, b) => a - b)]: the insertion of each element after the
    elements that the comparator does not put behind it.  A NaN difference
    counts as 0. *)
Definition goes_before (a b : number) : bool :=
  match Num.sub_sign a b with Some Lt => true | _ => false end.

Fixpoint sort_insert (x : number) (l : list number) : list number :=
  match l with
  | [] => [x]
  | y :: r => if goes_before x y then x :: l else y :: sort_insert x r
  end.

Definition sort_numbers (l : list number) : list number :=
  foldl (fun acc x => sort_insert x acc) [] l.

(** The property names that a plain object [{}] inherits from
    [Object.prototype]. *)
Definition objectPrototypeNames : list string :=
  ["constructor"; "hasOwnProperty"; "isPrototypeOf"; "propertyIsEnumerable";
   "toLocaleString"; "toString"; "valueOf"; "__proto__";
   "__defineGetter__"; "__defineSetter__"; "__lookupGetter__"; "__lookupSetter__"].

Definition inherited (key : string) : bool := bool_decide (key ∈ objectPrototypeNames).

(** What [d[key]] reads on a plain object that the code fills with numbers
    under keys taken from the data: [undefined], the number stored under the
    key, or, for a key that names a member of [Object.prototype], that
    member or the text that an addition made from it: a value that is
    neither [undefined] nor a number. *)
Inductive entry : Type :=
| Missing
| Held (n : number)
| Inherited.

Definition dict_get (d : gmap string number) (key : string) : entry :=
  if inherited key then Inherited
  else match d !! key with
       | Some n => Held n
       | None => Missing
       end.

End JS.

(** ** Validation errors *)

Inductive dataset : Type := clients | workers | tasks.

Global Instance dataset_eq_dec : EqDecision dataset.
Proof. solve_decision. Defined.

(** What is wrong with one row. *)
Inductive problem : Type :=
| InvalidPriorityLevel
| MalformedAttributesJSON
| MalformedAvailableSlots
| InvalidMaxLoadPerPhase
| InvalidDuration
| InvalidMaxConcurrent
| MalformedPhasesArray
| MalformedPhasesJSON
| MalformedPhasesRange
| MalformedPhases
| TaskNotFound (reqId : string)
| SkillNotFound (reqSkill : string)
| Overloaded (slots : nat) (maxLoadPerPhase : number)
| ConcurrencyInfeasible (maxConcurrent : number).

(** One pushed message.  [RowIssue t i id p] is a message that starts with
    [Row ${i + 1} (<key>: ${id}): ]. *)
Inductive issue : Type :=
| MissingColumns (type : dataset) (cols : list string)
| DuplicateIds (type : dataset) (ids : list jsval)
| RowIssue (type : dataset) (rowIndex : nat) (id : jsval) (p : problem)
| PhaseSaturated (phase : number) (total capacity : number).

Global Instance problem_eq_dec : EqDecision problem.
Proof. solve_decision. Defined.
Global Instance issue_eq_dec : EqDecision issue.
Proof. solve_decision. Defined.

Inductive category : Type := structural | reference | capacity.

Definition problem_category (p : problem) : category :=
  match p with
  | TaskNotFound _ | SkillNotFound _ => reference
  | Overloaded _ _ | ConcurrencyInfeasible _ => capacity
  | _ => structural
  end.

Definition issue_category (e : issue) : category :=
  match e with
  | MissingColumns _ _ | DuplicateIds _ _ => structural
  | RowIssue _ _ _ p => problem_category p
  | PhaseSaturated _ _ _ => capacity
  end.

(** The row a message is attributed to, when it names one. *)
Definition issue_row (e : issue) : option nat :=
  match e with
  | RowIssue _ i _ _ => Some i
  | _ => None
  end.

Definition type_name (t : dataset) : string :=
  match t with clients => "clients" | workers => "workers" | tasks => "tasks" end.

Definition idField (t : dataset) : string :=
  match t with clients => "ClientID" | workers => "WorkerID" | tasks => "TaskID" end.

(** An element in [Array.prototype.join]: [undefined] and [null] are empty. *)
Definition join_item (v : jsval) : string :=
  match v with
  | VUndef | VNull => ""
  | _ => JS.ToString v
  end.

Definition problem_text (p : problem) : string :=
  match p with
  | InvalidPriorityLevel => "Invalid PriorityLevel. Must be between 1 and 5."
  | MalformedAttributesJSON => "Malformed AttributesJSON."
  | MalformedAvailableSlots => "Malformed AvailableSlots. Must be comma-separated numbers."
  | InvalidMaxLoadPerPhase => "Invalid MaxLoadPerPhase. Must be a non-negative number."
  | InvalidDuration => "Invalid Duration. Must be 1 or greater."
  | InvalidMaxConcurrent => "Invalid MaxConcurrent. Must be 1 or greater."
  | MalformedPhasesArray => "Malformed PreferredPhases array."
  | MalformedPhasesJSON => "Malformed PreferredPhases JSON array."
  | MalformedPhasesRange =>
      "Malformed PreferredPhases range. Use " +:+ Str.quote +:+ "start-end" +:+ Str.quote +:+
      " format where start <= end."
  | MalformedPhases =>
      "Malformed PreferredPhases. Use " +:+ Str.quote +:+ "1-3" +:+ Str.quote +:+ " or " +:+
      Str.quote +:+ "2,4,5" +:+ Str.quote +:+ " format."
  | TaskNotFound reqId => "Requested Task ID '" +:+ reqId +:+ "' not found in tasks data."
  | SkillNotFound reqSkill =>
      "Required skill '" +:+ reqSkill +:+ "' not found in any worker's skills."
  | Overloaded slots maxLoad =>
      "Worker is overloaded. Available slots (" +:+ pretty slots +:+
      ") are less than MaxLoadPerPhase (" +:+ Num.toString maxLoad +:+ ")."
  | ConcurrencyInfeasible maxConcurrent =>
      "MaxConcurrent (" +:+ Num.toString maxConcurrent +:+
      ") might not be feasible for all required skills. Not enough qualified workers."
  end.

(** The string that the source pushes. *)
Definition render (e : issue) : string :=
  match e with
  | MissingColumns t cols =>
      "Missing required columns for " +:+ type_name t +:+ ": " +:+ Str.join ", " cols
  | DuplicateIds t ids =>
      "Duplicate IDs found for " +:+ type_name t +:+ ": " +:+ Str.join ", " (join_item <$> ids)
  | RowIssue t i id p =>
      "Row " +:+ pretty (S i) +:+ " (" +:+ idField t +:+ ": " +:+ JS.ToString id +:+ "): " +:+
      problem_text p
  | PhaseSaturated phase total cap =>
      "Phase " +:+ Num.toString phase +:+ ": Total task duration (" +:+ Num.toString total +:+
      ") exceeds available worker capacity (" +:+ Num.toString cap +:+ ")."
  end.

(** ** The validators of [page.tsx] *)

(** [errors.push(e)] *)
Definition push {A} (errors : list A) (e : A) : list A := errors ++ [e].

(** [l.filter((x, index) => ...)] *)
Fixpoint filter_from {A} (i : nat) (p : A -> nat -> bool) (l : list A) : list A :=
  match l with
  | [] => []
  | x :: r => if p x i then x :: filter_from (S i) p r else filter_from (S i) p r
  end.

Definition filter_index {A} (p : A -> nat -> bool) (l : list A) : list A :=
  filter_from O p l.

(** [s] as a condition: a string is truthy when it is not empty. *)
Definition nonempty (s : string) : bool := JS.truthy (VStr s).

(** [/^[0-9]+$/] *)
Definition re_digits : Regex.re := Regex.Plus (Regex.Rng "0" "9").

(** [/^\\d+-\\d+$/]: in the regular expression literal [\\] is an escaped
    backslash, so the expression reads: a backslash, one or more letters
    [d], a dash, a backslash, one or more letters [d]. *)
Definition re_range : Regex.re :=
  Regex.Cat (Regex.Chr "\") (Regex.Cat (Regex.Plus (Regex.Chr "d"))
    (Regex.Cat (Regex.Chr "-") (Regex.Cat (Regex.Chr "\") (Regex.Plus (Regex.Chr "d"))))).

(** [/^\\d+(?:,\\d+)*$/]: a backslash and one or more letters [d], then any
    number of groups of a comma, a backslash and one or more letters [d]. *)
Definition re_list : Regex.re :=
  Regex.Cat (Regex.Chr "\") (Regex.Cat (Regex.Plus (Regex.Chr "d"))
    (Regex.Star (Regex.Cat (Regex.Chr ",") (Regex.Cat (Regex.Chr "\")
      (Regex.Plus (Regex.Chr "d")))))).

(** [for (let i = start; i <= end; i++) normalizedPhases.push(i)].  The
    loop runs at most [loop_bound] times on finite bounds.  No string
    reaches it with bounds that are numbers: what [re_range] accepts makes
    both of them NaN (see [parsePreferredPhases_range]). *)
Fixpoint count_up (fuel : nat) (i last : number) : list number :=
  match fuel with
  | O => []
  | S f => if Num.le i last then i :: count_up f (JS.add i (Int 1)) last else []
  end.

Definition loop_bound (start last : number) : nat :=
  match Num.parts start, Num.parts last with
  | Some (m1, e1), Some (m2, e2) => Z.to_nat (m2 / 10 ^ e2 - m1 / 10 ^ e1 + 2)
  | _, _ => O
  end.

(** The numbers of a parsed array, when every element is a number
    ([Array.isArray(a) && a.every(p => typeof p === 'number')]). *)
Definition number_array (j : json) : option (list number) :=
  match j with
  | JArr items => mapM (fun p => match p with JNum n => Some n | _ => None end) items
  | _ => None
  end.

(** [const [start, end] = l]: a missing element is [undefined], which
    [isNaN] takes for NaN. *)
Definition destructure2 (l : list number) : number * number :=
  (default NaN (l !! 0%nat), default NaN (l !! 1%nat)).

Definition requiredColumns (type : dataset) : list string :=
  match type with
  | clients => ["ClientID"; "ClientName"; "PriorityLevel"; "RequestedTaskIDs"; "GroupTag";
                "AttributesJSON"]
  | workers => ["WorkerID"; "WorkerName"; "Skills"; "AvailableSlots"; "MaxLoadPerPhase";
                "WorkerGroup"; "QualificationLevel"]
  | tasks => ["TaskID"; "TaskName"; "Category"; "Duration"; "RequiredSkills"; "PreferredPhases";
              "MaxConcurrent"]
  end.

(** [parseInt(String(row[col] || ''))] *)
Definition parseIntCell (r : row) (col : string) : number :=
  Num.parseInt (JS.ToString (JS.or (JS.get r col) (VStr ""))).

(** [row[idField] || 'N/A'] *)
Definition idOrNA (r : row) (type : dataset) : jsval :=
  JS.or (JS.get r (idField type)) (VStr "N/A").

(** The checks of one client row. *)
Definition validateClientRow (errors : list issue) (r : row) (rowIndex : nat) : list issue :=
  let priority := parseIntCell r "PriorityLevel" in
  let errors :=
    if Num.isNaN priority || Num.lt priority (Int 1) || Num.gt priority (Int 5)
    then push errors (RowIssue clients rowIndex (idOrNA r clients) InvalidPriorityLevel)
    else errors in
  let attrsJson := JS.get r "AttributesJSON" in
  match attrsJson with
  | VStr s =>
      if JS.truthy attrsJson && negb (bool_decide (Str.trim s = "")) then
        match Json.parse s with
        | Some _ => errors
        | None => push errors (RowIssue clients rowIndex (idOrNA r clients) MalformedAttributesJSON)
        end
      else errors
  | _ => errors
  end.

(** The checks of one worker row. *)
Definition validateWorkerRow (errors : list issue) (r : row) (rowIndex : nat) : list issue :=
  let errors :=
    if JS.truthy (JS.get r "AvailableSlots") then
      let pieces := Str.split "," (JS.ToString (JS.get r "AvailableSlots")) in
      let slots := map Num.ofString pieces in
      if existsb Num.isNaN slots
         || negb (forallb (fun s => Regex.test re_digits (Str.trim s)) pieces)
      then push errors (RowIssue workers rowIndex (idOrNA r workers) MalformedAvailableSlots)
      else errors
    else errors in
  let maxLoad := parseIntCell r "MaxLoadPerPhase" in
  if Num.isNaN maxLoad || Num.lt maxLoad (Int 0)
  then push errors (RowIssue workers rowIndex (idOrNA r workers) InvalidMaxLoadPerPhase)
  else errors.

(** The check of the [PreferredPhases] cell of a task row.  The source
    also fills [normalizedPhases] here and drops it. *)
Definition validatePreferredPhases (errors : list issue) (r : row) (rowIndex : nat) : list issue :=
  if JS.truthy (JS.get r "PreferredPhases") then
    let phasesString := Str.trim (JS.ToString (JS.get r "PreferredPhases")) in
    let err p := push errors (RowIssue tasks rowIndex (idOrNA r tasks) p) in
    if Str.startsWith "[" phasesString && Str.endsWith "]" phasesString then
      match Json.parse phasesString with
      | Some parsedArray =>
          match number_array parsedArray with
          | Some _ => errors
          | None => err MalformedPhasesArray
          end
      | None => err MalformedPhasesJSON
      end
    else if Regex.test re_range phasesString then
      let '(start, last) := destructure2 (map Num.ofString (Str.split "-" phasesString)) in
      if negb (Num.isNaN start) && negb (Num.isNaN last) && Num.le start last
      then errors
      else err MalformedPhasesRange
    else if Regex.test re_list phasesString then
      let normalizedPhases := map Num.ofString (Str.split "," phasesString) in
      if existsb Num.isNaN normalizedPhases then err MalformedPhases else errors
    else err MalformedPhases
  else errors.

(** The checks of one task row. *)
Definition validateTaskRow (errors : list issue) (r : row) (rowIndex : nat) : list issue :=
  let duration := parseIntCell r "Duration" in
  let errors :=
    if Num.isNaN duration || Num.lt duration (Int 1)
    then push errors (RowIssue tasks rowIndex (idOrNA r tasks) InvalidDuration)
    else errors in
  let maxConcurrent := parseIntCell r "MaxConcurrent" in
  let errors :=
    if Num.isNaN maxConcurrent || Num.lt maxConcurrent (Int 1)
    then push errors (RowIssue tasks rowIndex (idOrNA r tasks) InvalidMaxConcurrent)
    else errors in
  validatePreferredPhases errors r rowIndex.

(** [requiredColumns.filter(col => !actualColumns.includes(col))], with
    [actualColumns = Object.keys(data[0])] *)
Definition missingColumnsOf (first : row) (type : dataset) : list string :=
  let actualColumns := JS.keys first in
  List.filter (fun col => negb (JS.includes actualColumns col)) (requiredColumns type).

(** [ids.filter((id, index) => id !== undefined && ids.indexOf(id) !== index)] *)
Definition duplicateIdsOf (ids : list jsval) : list jsval :=
  filter_index
    (fun id index => negb (JS.strict_eq id VUndef)
                     && negb (bool_decide (JS.indexOf ids id = Some index))) ids.

(** [data.map(row => row[idField])] *)
Definition idsOf (data : list row) (type : dataset) : list jsval :=
  map (fun r => JS.get r (idField type)) data.

Definition validateSingleDataset (data : list row) (type : dataset) : list issue :=
  let errors : list issue := [] in
  (* 1. Missing required column(s). *)
  let errors :=
    match data with
    | first :: _ =>
        let missingColumns := missingColumnsOf first type in
        if (0 <? length missingColumns)%nat
        then push errors (MissingColumns type missingColumns)
        else errors
    | [] => errors
    end in
  (* 2. Duplicate IDs (ClientID/WorkerID/TaskID). *)
  let ids := idsOf data type in
  let duplicateIds := duplicateIdsOf ids in
  let errors :=
    if (0 <? length duplicateIds)%nat
    then push errors (DuplicateIds type (JS.Set_from duplicateIds))
    else errors in
  (* Specific validations based on data type *)
  JS.forEach
    (fun errors r rowIndex =>
       match type with
       | clients => validateClientRow errors r rowIndex
       | workers => validateWorkerRow errors r rowIndex
       | tasks => validateTaskRow errors r rowIndex
       end)
    data errors.

(** [new Set(tasks.map(task => String(task.TaskID)))] *)
Definition taskIdsOf (taskRows : list row) : gset string :=
  list_to_set (map (fun task => JS.ToString (JS.get task "TaskID")) taskRows).

(** [String(client.RequestedTaskIDs).split(',').map(id => id.trim())] *)
Definition requestedIdsOf (client : row) : list string :=
  map Str.trim (Str.split "," (JS.ToString (JS.get client "RequestedTaskIDs"))).

Definition validateClientTaskRelationship (clientRows taskRows : list row) : list issue :=
  let taskIds := taskIdsOf taskRows in
  JS.forEach
    (fun errors client rowIndex =>
       if JS.truthy (JS.get client "RequestedTaskIDs") then
         let requestedIds := requestedIdsOf client in
         JS.forEach
           (fun errors reqId (_ : nat) =>
              if nonempty reqId && negb (bool_decide (reqId ∈ taskIds))
              then push errors (RowIssue clients rowIndex (idOrNA client clients)
                                         (TaskNotFound reqId))
              else errors)
           requestedIds errors
       else errors)
    clientRows [].

(** [String(task.RequiredSkills).split(',').map(skill => skill.trim())] *)
Definition requiredSkillsOf (task : row) : list string :=
  map Str.trim (Str.split "," (JS.ToString (JS.get task "RequiredSkills"))).

(** [String(worker.Skills || '').split(',').map(s => s.trim()).filter(s => s)] *)
Definition skillsOf (worker : row) : list string :=
  List.filter nonempty
    (map Str.trim (Str.split "," (JS.ToString (JS.or (JS.get worker "Skills") (VStr ""))))).

(** [new Set(workers.flatMap(worker => ...))] *)
Definition workerSkillsOf (workerRows : list row) : gset string :=
  list_to_set (flat_map skillsOf workerRows).

Definition validateTaskWorkerRelationship (taskRows workerRows : list row) : list issue :=
  let workerSkills := workerSkillsOf workerRows in
  JS.forEach
    (fun errors task rowIndex =>
       if JS.truthy (JS.get task "RequiredSkills") then
         let requiredSkills := requiredSkillsOf task in
         JS.forEach
           (fun errors reqSkill (_ : nat) =>
              if nonempty reqSkill && negb (bool_decide (reqSkill ∈ workerSkills))
              then push errors (RowIssue tasks rowIndex (idOrNA task tasks)
                                         (SkillNotFound reqSkill))
              else errors)
           requiredSkills errors
       else errors)
    taskRows [].

(** [String(cell).split(',').map(Number).filter(n => !isNaN(n))] *)
Definition slotNumbers (cell : jsval) : list number :=
  List.filter (fun n => negb (Num.isNaN n))
    (map Num.ofString (Str.split "," (JS.ToString cell))).

Definition validateOverloadedWorkers (workerRows : list row) : list issue :=
  JS.forEach
    (fun errors worker rowIndex =>
       if JS.truthy (JS.get worker "AvailableSlots")
          && negb (JS.strict_eq (JS.get worker "MaxLoadPerPhase") VUndef) then
         let availableSlots := slotNumbers (JS.get worker "AvailableSlots") in
         let maxLoadPerPhase := parseIntCell worker "MaxLoadPerPhase" in
         if negb (Num.isNaN maxLoadPerPhase)
            && Num.lt (Int (Z.of_nat (length availableSlots))) maxLoadPerPhase
         then push errors (RowIssue workers rowIndex (idOrNA worker workers)
                                    (Overloaded (length availableSlots) maxLoadPerPhase))
         else errors
       else errors)
    workerRows [].

(** Helper function to parse PreferredPhases (copied from
    validateSingleDataset for re-use). *)
Definition parsePreferredPhases (phasesString : string) : list number :=
  if Str.startsWith "[" phasesString && Str.endsWith "]" phasesString then
    match Json.parse phasesString with
    | Some parsedArray =>
        match number_array parsedArray with
        | Some phases => phases
        | None => []
        end
    | None => []
    end
  else if Regex.test re_range phasesString then
    let '(start, last) := destructure2 (map Num.ofString (Str.split "-" phasesString)) in
    if negb (Num.isNaN start) && negb (Num.isNaN last) && Num.le start last
    then count_up (loop_bound start last) start last
    else []
  else if Regex.test re_list phasesString then
    map Num.ofString (Str.split "," phasesString)
  else [].

(** [parseInt(String(row[col] || '')) || 0] *)
Definition parseIntCellOr0 (r : row) (col : string) : number :=
  JS.num_or (Some (parseIntCell r col)) (Int 0).

(** [parsePreferredPhases(String(task.PreferredPhases || ''))] *)
Definition preferredPhasesOf (task : row) : list number :=
  parsePreferredPhases (JS.ToString (JS.or (JS.get task "PreferredPhases") (VStr ""))).

(** [String(worker.AvailableSlots || '').split(',').map(Number).filter(n => !isNaN(n))] *)
Definition availableSlotsOf (worker : row) : list number :=
  slotNumbers (JS.or (JS.get worker "AvailableSlots") (VStr "")).

(** [phaseCapacities] after the loop over the workers. *)
Definition phaseCapacitiesOf (workerRows : list row) : gmap number number :=
  JS.forEach
    (fun phaseCapacities worker (_ : nat) =>
       let availableSlots := availableSlotsOf worker in
       JS.forEach
         (fun (phaseCapacities : gmap number number) phase (_ : nat) =>
            <[phase := JS.add (JS.num_or (phaseCapacities !! phase) (Int 0))
                              (parseIntCellOr0 worker "MaxLoadPerPhase")]> phaseCapacities)
         availableSlots phaseCapacities)
    workerRows ∅.

(** [taskDurations] after the loop over the tasks; the source never reads it. *)
Definition taskDurationsOf (taskRows : list row) : gmap string number :=
  JS.forEach
    (fun (taskDurations : gmap string number) task (_ : nat) =>
       <[JS.ToString (JS.get task "TaskID") := parseIntCellOr0 task "Duration"]> taskDurations)
    taskRows ∅.

(** [allPhases] after the loop over the tasks. *)
Definition allPhasesOf (taskRows : list row) : list number :=
  JS.forEach
    (fun allPhases task (_ : nat) =>
       JS.forEach (fun allPhases phase (_ : nat) => JS.Set_add allPhases phase)
                  (preferredPhasesOf task) allPhases)
    taskRows [].

(** [totalTaskDurationInPhase] after the inner loop over the tasks. *)
Definition totalTaskDurationInPhase (taskRows : list row) (phase : number) : number :=
  JS.forEach
    (fun total task (_ : nat) =>
       if JS.includes (preferredPhasesOf task) phase
       then JS.add total (parseIntCellOr0 task "Duration")
       else total)
    taskRows (Int 0).

Definition validatePhaseSlotSaturation (taskRows workerRows : list row) : list issue :=
  let errors : list issue := [] in
  let phaseCapacities := phaseCapacitiesOf workerRows in
  let taskDurations := taskDurationsOf taskRows in
  let allPhases := allPhasesOf taskRows in
  JS.forEach
    (fun errors phase (_ : nat) =>
       let total := totalTaskDurationInPhase taskRows phase in
       let availableCapacity := JS.num_or (phaseCapacities !! phase) (Int 0) in
       if Num.gt total availableCapacity
       then push errors (PhaseSaturated phase total availableCapacity)
       else errors)
    (JS.sort_numbers allPhases) errors.

(** [skillToWorkerCount] after the loop over the workers: the numbers it
    holds.  [skillToWorkerCount[skill] = (skillToWorkerCount[skill] || 0) + 1]
    stores a number under a skill that names no member of
    [Object.prototype]; under the other skills the sum is a text made from
    the inherited member, and no number is ever stored or read there. *)
Definition skillToWorkerCountOf (workerRows : list row) : gmap string number :=
  JS.forEach
    (fun skillToWorkerCount worker (_ : nat) =>
       JS.forEach
         (fun (skillToWorkerCount : gmap string number) skill (_ : nat) =>
            if JS.inherited skill then skillToWorkerCount
            else <[skill := JS.add (JS.num_or (skillToWorkerCount !! skill) (Int 0)) (Int 1)]>
                   skillToWorkerCount)
         (skillsOf worker) skillToWorkerCount)
    workerRows ∅.

(** [canMeetConcurrency] after the loop over the required skills:
    [skillToWorkerCount[skill] === undefined || skillToWorkerCount[skill] < maxConcurrent]
    is false on an inherited member, which is not [undefined] and compares
    as NaN. *)
Definition canMeetConcurrencyOf (skillToWorkerCount : gmap string number)
    (requiredSkills : list string) (maxConcurrent : number) : bool :=
  JS.forEach
    (fun (canMeetConcurrency : bool) skill (_ : nat) =>
       match JS.dict_get skillToWorkerCount skill with
       | JS.Missing => false
       | JS.Held n => if Num.lt n maxConcurrent then false else canMeetConcurrency
       | JS.Inherited => canMeetConcurrency
       end)
    requiredSkills true.

Definition validateMaxConcurrencyFeasibility (taskRows workerRows : list row) : list issue :=
  let skillToWorkerCount := skillToWorkerCountOf workerRows in
  JS.forEach
    (fun errors task rowIndex =>
       if JS.truthy (JS.get task "RequiredSkills")
          && negb (JS.strict_eq (JS.get task "MaxConcurrent") VUndef) then
         let requiredSkills := requiredSkillsOf task in
         let maxConcurrent := parseIntCell task "MaxConcurrent" in
         if negb (Num.isNaN maxConcurrent) && Num.gt maxConcurrent (Int 0) then
           let canMeetConcurrency :=
             canMeetConcurrencyOf skillToWorkerCount requiredSkills maxConcurrent in
           if negb canMeetConcurrency
           then push errors (RowIssue tasks rowIndex (idOrNA task tasks)
                                      (ConcurrencyInfeasible maxConcurrent))
           else errors
         else errors
       else errors)
    taskRows [].

(** Placeholders of the source: they return no error. *)
Definition validateCircularCoRunGroups (_ : list row) : list issue := [].
Definition validateConflictingRules (_ : list row) : list issue := [].

(** ** The validation pass of [triggerFullValidation] *)

(** [allErrors[key] = [...(allErrors[key] || []), ...more]] when [more] is
    not empty. *)
Definition appendErrors (key : string) (more : list issue)
    (allErrors : gmap string (list issue)) : gmap string (list issue) :=
  if (0 <? length more)%nat
  then <[key := default [] (allErrors !! key) ++ more]> allErrors
  else allErrors.

(** [if (errs.length > 0) allErrors[key] = errs] *)
Definition setErrors (key : string) (errs : list issue)
    (allErrors : gmap string (list issue)) : gmap string (list issue) :=
  if (0 <? length errs)%nat then <[key := errs]> allErrors else allErrors.

(** The body of the deferred callback: [allErrors] for the three data sets
    it validates; [stateTasks] is the [tasksData] of the component, handed
    to the two placeholders. *)
Definition fullValidation (allClientsData allWorkersData allTasksData stateTasks : list row)
    : gmap string (list issue) :=
  let allErrors : gmap string (list issue) := ∅ in
  (* Basic validations *)
  let clientErrors := validateSingleDataset allClientsData clients in
  let workerErrors := validateSingleDataset allWorkersData workers in
  let taskErrors := validateSingleDataset allTasksData tasks in
  let allErrors := setErrors "clients" clientErrors allErrors in
  let allErrors := setErrors "workers" workerErrors allErrors in
  let allErrors := setErrors "tasks" taskErrors allErrors in
  (* Cross-data validations *)
  let allErrors :=
    if (0 <? length allClientsData)%nat && (0 <? length allTasksData)%nat
    then appendErrors "clients" (validateClientTaskRelationship allClientsData allTasksData)
                      allErrors
    else allErrors in
  let allErrors :=
    if (0 <? length allTasksData)%nat && (0 <? length allWorkersData)%nat
    then appendErrors "tasks" (validateTaskWorkerRelationship allTasksData allWorkersData)
                      allErrors
    else allErrors in
  (* Add complex validations *)
  let allErrors := appendErrors "workers" (validateOverloadedWorkers allWorkersData) allErrors in
  let allErrors :=
    appendErrors "tasks" (validatePhaseSlotSaturation allTasksData allWorkersData) allErrors in
  let allErrors :=
    appendErrors "tasks" (validateMaxConcurrencyFeasibility allTasksData allWorkersData)
                 allErrors in
  (* Placeholders for Milestone 2 validations *)
  let allErrors := appendErrors "tasks" (validateCircularCoRunGroups stateTasks) allErrors in
  let allErrors := appendErrors "tasks" (validateConflictingRules stateTasks) allErrors in
  allErrors.

(** The state of the page that the pass reads and writes. *)
Record pageState := {
  clientsData : list row;
  workersData : list row;
  tasksData : list row;
  validationErrors : gmap string (list string) }.

(** [s.includes(sub)] on strings *)
Fixpoint str_includes (sub s : string) : bool :=
  String.prefix sub s ||
  match s with
  | EmptyString => false
  | String _ t => str_includes sub t
  end.

Definition setClientsData (d : list row) (st : pageState) : pageState :=
  {| clientsData := d; workersData := workersData st; tasksData := tasksData st;
     validationErrors := validationErrors st |}.
Definition setWorkersData (d : list row) (st : pageState) : pageState :=
  {| clientsData := clientsData st; workersData := d; tasksData := tasksData st;
     validationErrors := validationErrors st |}.
Definition setTasksData (d : list row) (st : pageState) : pageState :=
  {| clientsData := clientsData st; workersData := workersData st; tasksData := d;
     validationErrors := validationErrors st |}.
Definition setValidationErrors (e : gmap string (list string)) (st : pageState) : pageState :=
  {| clientsData := clientsData st; workersData := workersData st; tasksData := tasksData st;
     validationErrors := e |}.

(** [triggerFullValidation(fileName, currentData, clients?, workers?, tasks?)]
    called in a render whose state is [st]: the data set named by the file
    is replaced, and the deferred pass validates the overrides, or else the
    data of [st], and replaces the report. *)
Definition triggerFullValidation (fileName : string) (currentData : list row)
    (clientsDataOverride workersDataOverride tasksDataOverride : option (list row))
    (st : pageState) : pageState :=
  let st' :=
    if str_includes "clients" fileName then setClientsData currentData st
    else if str_includes "workers" fileName then setWorkersData currentData st
    else if str_includes "tasks" fileName then setTasksData currentData st
    else st in
  let allClientsData := default (clientsData st) clientsDataOverride in
  let allWorkersData := default (workersData st) workersDataOverride in
  let allTasksData := default (tasksData st) tasksDataOverride in
  let allErrors := fullValidation allClientsData allWorkersData allTasksData (tasksData st) in
  setValidationErrors (map render <$> allErrors) st'.

(** ** The scenarios of the specification *)

Definition mkRow (cells : list (string * jsval)) : row := list_to_map cells.

Definition scenarioWorker (slots : string) (maxLoad : string) : row :=
  mkRow [("WorkerID", VStr "W1"); ("AvailableSlots", VStr slots);
         ("MaxLoadPerPhase", VStr maxLoad)].

Definition scenarioTask (phases : string) (duration : string) : row :=
  mkRow [("TaskID", VStr "T1"); ("PreferredPhases", VStr phases); ("Duration", VStr duration)].

Definition skillWorker (id skills : string) : row :=
  mkRow [("WorkerID", VStr id); ("Skills", VStr skills)].

Definition skillTask (skills maxConcurrent : string) : row :=
  mkRow [("TaskID", VStr "T1"); ("RequiredSkills", VStr skills);
         ("MaxConcurrent", VStr maxConcurrent)].

Definition clientWithId (id : string) : row := mkRow [("ClientID", VStr id)].

(** ** Vocabulary of the properties *)

(** The messages that a loop pushes when its body only appends: those of
    each iteration, in order. *)
Fixpoint emit_from {A B} (i : nat) (g : A -> nat -> list B) (l : list A) : list B :=
  match l with
  | [] => []
  | x :: r => g x i ++ emit_from (S i) g r
  end.

(** The errors of a list that are attributed to row [i]. *)
Definition at_row (i : nat) (errs : list issue) : list issue :=
  filter (fun e => issue_row e = Some i) errs.

(** The rows of the errors that name one, in the order of the list. *)
Definition rows_of (errs : list issue) : list nat := omap issue_row errs.

(** *** Closed forms of the loops

    What each validator pushes while it visits one row. *)

(** The requested task ids of a client that are reported. *)
Definition danglingTaskIds (taskRows : list row) (client : row) : list string :=
  if JS.truthy (JS.get client "RequestedTaskIDs") then
    List.filter (fun reqId => nonempty reqId && negb (bool_decide (reqId ∈ taskIdsOf taskRows)))
                (requestedIdsOf client)
  else [].

Definition clientTaskIssues (taskRows : list row) (client : row) (rowIndex : nat) : list issue :=
  map (fun reqId => RowIssue clients rowIndex (idOrNA client clients) (TaskNotFound reqId))
      (danglingTaskIds taskRows client).

(** The required skills of a task that are reported. *)
Definition danglingSkills (workerRows : list row) (task : row) : list string :=
  if JS.truthy (JS.get task "RequiredSkills") then
    List.filter (fun s => nonempty s && negb (bool_decide (s ∈ workerSkillsOf workerRows)))
                (requiredSkillsOf task)
  else [].

Definition taskWorkerIssues (workerRows : list row) (task : row) (rowIndex : nat) : list issue :=
  map (fun s => RowIssue tasks rowIndex (idOrNA task tasks) (SkillNotFound s))
      (danglingSkills workerRows task).

(** The worker passes the guard of the overload check and fails the check. *)
Definition overloaded (worker : row) : bool :=
  JS.truthy (JS.get worker "AvailableSlots")
  && negb (JS.strict_eq (JS.get worker "MaxLoadPerPhase") VUndef)
  && negb (Num.isNaN (parseIntCell worker "MaxLoadPerPhase"))
  && Num.lt (Int (Z.of_nat (length (slotNumbers (JS.get worker "AvailableSlots")))))
            (parseIntCell worker "MaxLoadPerPhase").

Definition overloadIssues (worker : row) (rowIndex : nat) : list issue :=
  if overloaded worker
  then [RowIssue workers rowIndex (idOrNA worker workers)
          (Overloaded (length (slotNumbers (JS.get worker "AvailableSlots")))
                      (parseIntCell worker "MaxLoadPerPhase"))]
  else [].

(** The task passes the guards of the concurrency check and fails the check. *)
Definition infeasible (workerRows : list row) (task : row) : bool :=
  JS.truthy (JS.get task "RequiredSkills")
  && negb (JS.strict_eq (JS.get task "MaxConcurrent") VUndef)
  && negb (Num.isNaN (parseIntCell task "MaxConcurrent"))
  && Num.gt (parseIntCell task "MaxConcurrent") (Int 0)
  && negb (canMeetConcurrencyOf (skillToWorkerCountOf workerRows) (requiredSkillsOf task)
                                (parseIntCell task "MaxConcurrent")).

Definition concurrencyIssues (workerRows : list row) (task : row) (rowIndex : nat) : list issue :=
  if infeasible workerRows task
  then [RowIssue tasks rowIndex (idOrNA task tasks)
          (ConcurrencyInfeasible (parseIntCell task "MaxConcurrent"))]
  else [].

(** What [validateSingleDataset] pushes before it visits the rows. *)
Definition headerIssues (data : list row) (type : dataset) : list issue :=
  match data with
  | first :: _ =>
      if (0 <? length (missingColumnsOf first type))%nat
      then [MissingColumns type (missingColumnsOf first type)]
      else []
  | [] => []
  end ++
  (if (0 <? length (duplicateIdsOf (idsOf data type)))%nat
   then [DuplicateIds type (JS.Set_from (duplicateIdsOf (idsOf data type)))]
   else []).

(** What [validateSingleDataset] pushes for one row. *)
Definition rowIssues (type : dataset) (r : row) (rowIndex : nat) : list issue :=
  match type with
  | clients => validateClientRow [] r rowIndex
  | workers => validateWorkerRow [] r rowIndex
  | tasks => validateTaskRow [] r rowIndex
  end.

(** *** Reading the report *)

(** The errors listed under a key of [allErrors]; none when the key is
    absent. *)
Definition errorsAt (key : string) (allErrors : gmap string (list issue)) : list issue :=
  default [] (allErrors !! key).

Definition in_category (c : category) (errs : list issue) : Prop :=
  Forall (fun e => issue_category e = c) errs.

(** The messages that name no row come first, then the messages about
    rows, in the order of the rows. *)
Definition in_row_order (errs : list issue) : Prop :=
  exists general perRow,
    errs = general ++ perRow
    /\ Forall (fun e => issue_row e = None) general
    /\ Forall (fun e => is_Some (issue_row e)) perRow
    /\ StronglySorted le (rows_of perRow).

Definition is_duplicate_report (e : issue) : bool :=
  match e with
  | DuplicateIds _ _ => true
  | _ => false
  end.

(** The errors of a list that belong to one category. *)
Global Instance category_eq_dec : EqDecision category.
Proof. solve_decision. Defined.

Definition of_category (c : category) (errs : list issue) : list issue :=
  filter (fun e => issue_category e = c) errs.

(** *** Counting for the capacity checks *)

(** The number of times a skill is written in the Skills cells of the
    workers: a worker that writes it twice counts twice. *)
Definition skillEntries (workerRows : list row) (skill : string) : nat :=
  length (List.filter (fun s => bool_decide (s = skill)) (flat_map skillsOf workerRows)).

(** In the words of the specification: the number of workers whose set of
    skills holds the skill. *)
Definition workersHolding (workerRows : list row) (skill : string) : nat :=
  length (List.filter (fun worker => bool_decide (skill ∈ skillsOf worker)) workerRows).

(** The integer that a number stands for; 0 for the others. *)
Definition intOf (n : number) : Z :=
  match n with
  | Int z => z
  | _ => 0
  end.

Definition sumZ (l : list Z) : Z := foldr Z.add 0 l.

(** The number of entries of a list that are a given number. *)
Definition occurrences (p : number) (l : list number) : nat :=
  length (List.filter (fun x => bool_decide (x = p)) l).

(** [parseInt(String(worker.MaxLoadPerPhase || '')) || 0] as an integer. *)
Definition loadOf (worker : row) : Z := intOf (parseIntCellOr0 worker "MaxLoadPerPhase").

(** [parseInt(String(task.Duration || '')) || 0] as an integer. *)
Definition durationOf (task : row) : Z := intOf (parseIntCellOr0 task "Duration").

(** The capacity of a phase: every slot entry of a worker that is the phase
    adds the load of the worker. *)
Definition capacityOf (workerRows : list row) (phase : number) : Z :=
  sumZ (map (fun worker =>
               Z.of_nat (occurrences phase (availableSlotsOf worker)) * loadOf worker)
            workerRows).

(** In the words of the specification: the sum of MaxLoadPerPhase over the
    workers whose AvailableSlots includes the phase. *)
Definition capacityOverWorkers (workerRows : list row) (phase : number) : Z :=
  sumZ (map loadOf
          (List.filter (fun worker => bool_decide (phase ∈ availableSlotsOf worker))
                       workerRows)).

(** The demand of a phase: the sum of the durations of the tasks whose
    preferred phases include it. *)
Definition demandOf (taskRows : list row) (phase : number) : Z :=
  sumZ (map durationOf
          (List.filter (fun task => bool_decide (phase ∈ preferredPhasesOf task)) taskRows)).

(** *** The steps of the loops, as left folds *)

(** One step of the loop that fills [skillToWorkerCount]. *)
Definition skillStep (m : gmap string number) (skill : string) : gmap string number :=
  if JS.inherited skill then m
  else <[skill := JS.add (JS.num_or (m !! skill) (Int 0)) (Int 1)]> m.

(** The entry of [skillToWorkerCount] for a skill written [c] times. *)
Definition countEntry (c : nat) : option number :=
  match c with
  | O => None
  | S _ => Some (Int (Z.of_nat c))
  end.

(** One step of the loop that fills [phaseCapacities], for a worker and one
    of its slots. *)
Definition capStep (m : gmap number number) (wp : row * number) : gmap number number :=
  <[wp.2 := JS.add (JS.num_or (m !! wp.2) (Int 0))
                   (parseIntCellOr0 wp.1 "MaxLoadPerPhase")]> m.

(** One step of the loop that sums [totalTaskDurationInPhase]. *)
Definition durationStep (p : number) (total : number) (task : row) : number :=
  if JS.includes (preferredPhasesOf task) p
  then JS.add total (parseIntCellOr0 task "Duration") else total.


(** *** The capacity of a phase, addition by addition *)

(** [(phaseCapacities[phase] || 0) + load] *)
Definition addLoad (capacity : option number) (load : number) : option number :=
  Some (JS.add (JS.num_or capacity (Int 0)) load).

(** The loads that the loop over the workers adds to the capacity of a
    phase, in order: the load of each worker, once for each of its slot
    entries that is the phase. *)
Definition loadsAdded (workerRows : list row) (phase : number) : list number :=
  flat_map (fun worker =>
              replicate (occurrences phase (availableSlotsOf worker))
                        (parseIntCellOr0 worker "MaxLoadPerPhase"))
           workerRows.

(** *** The numbers on which the embedding is the code *)

(** [Number.MAX_SAFE_INTEGER], 2^53 - 1 *)
Definition MAX_SAFE_INTEGER : Z := 9007199254740991.

(** An integer that a double holds exactly, as it holds its neighbours. *)
Definition is_safe_integer (n : number) : bool :=
  match n with
  | Int z => Z.abs z <=? MAX_SAFE_INTEGER
  | _ => false
  end.

Definition safe_integer (n : number) : Prop := is_safe_integer n = true.

(** The slots of the workers are safe integers, and so is every sum of
    loads that the capacity of a phase can reach: each slot entry adds the
    load of its worker once. *)
Definition safe_loads (workerRows : list row) : Prop :=
  Forall (fun worker => Forall safe_integer (availableSlotsOf worker)) workerRows
  /\ sumZ (map (fun worker =>
                  Z.of_nat (length (availableSlotsOf worker)) * Z.abs (loadOf worker))
               workerRows)
     <= MAX_SAFE_INTEGER.

(** *** The array syntax of PreferredPhases *)

(** The text that [parsePreferredPhases] receives for a task. *)
Definition phasesTextOf (task : row) : string :=
  JS.ToString (JS.or (JS.get task "PreferredPhases") (VStr "")).

Definition is_array_text (s : string) : bool :=
  Str.startsWith "[" s && Str.endsWith "]" s.

(** The phases that a text in the array syntax writes: the elements of the
    JSON array, when they are all numbers. *)
Definition arrayPhases (s : string) : list number :=
  if is_array_text s then
    match Json.parse s with
    | Some parsedArray => default [] (number_array parsedArray)
    | None => []
    end
  else [].

(** The texts that stay clear of the two expressions for the range and the
    list syntax: a text in the array syntax, and a text that starts with
    neither a digit, as a range or a list does, nor a backslash, as the
    texts that the two expressions accept do. *)
Definition clear_of_range_and_list (s : string) : bool :=
  is_array_text s
  || match s with
     | EmptyString => true
     | String c _ => negb (Str.is_digit c) && negb (Ascii.eqb c "\")
     end.

(** The demand of a phase among tasks written in the array syntax. *)
Definition arrayDemandOf (taskRows : list row) (phase : number) : Z :=
  sumZ (map durationOf
          (List.filter (fun task => bool_decide (phase ∈ arrayPhases (phasesTextOf task)))
                       taskRows)).

(** The phases of the tasks are safe integers, and so is every sum of
    durations that the demand of a phase can reach. *)
Definition safe_durations (taskRows : list row) : Prop :=
  Forall (fun task => Forall safe_integer (arrayPhases (phasesTextOf task))) taskRows
  /\ sumZ (map (fun task => Z.abs (durationOf task)) taskRows) <= MAX_SAFE_INTEGER.

(** ** More of [page.tsx]: toasts, uploads, cell edits, corrections and the grid *)

Module Val.

(** ToNumber on a cell *)
Definition ToNumber (v : jsval) : number :=
  match v with
  | VUndef => NaN
  | VNull => Int 0
  | VBool b => Int (if b then 1 else 0)
  | VNum n => n
  | VStr s => Num.ofString s
  end.

(** [a + b] on cells: concatenation when one of them is a string, the sum
    of the numbers otherwise. *)
Definition plus (a b : jsval) : jsval :=
  match a, b with
  | VStr _, _ | _, VStr _ => VStr (JS.ToString a +:+ JS.ToString b)
  | _, _ => VNum (JS.add (ToNumber a) (ToNumber b))
  end.

End Val.

(** The toast that ends a validation pass. *)
Inductive toast : Type := ToastError | ToastSuccess.

(** [Object.keys(allErrors).some(key => allErrors[key].length > 0)], then
    the test on the lengths of the three data sets. *)
Definition validationToast (allErrors : gmap string (list issue))
    (allClientsData allWorkersData allTasksData : list row) : option toast :=
  if existsb (fun kv : string * list issue => (0 <? length kv.2)%nat) (map_to_list allErrors)
  then Some ToastError
  else if (0 <? length allClientsData)%nat || (0 <? length allWorkersData)%nat
          || (0 <? length allTasksData)%nat
  then Some ToastSuccess
  else None.

(** [triggerFullValidation] called from a handler of the render whose
    state is [seen]: the data it reads is that of [seen], and the updates it
    queues land on [st], the state that the handler has updated so far. *)
Definition triggerFullValidationIn (seen : pageState)
    (fileName : string) (currentData : list row)
    (clientsDataOverride workersDataOverride tasksDataOverride : option (list row))
    (st : pageState) : pageState :=
  let st' :=
    if str_includes "clients" fileName then setClientsData currentData st
    else if str_includes "workers" fileName then setWorkersData currentData st
    else if str_includes "tasks" fileName then setTasksData currentData st
    else st in
  let allClientsData := default (clientsData seen) clientsDataOverride in
  let allWorkersData := default (workersData seen) workersDataOverride in
  let allTasksData := default (tasksData seen) tasksDataOverride in
  let allErrors :=
    fullValidation allClientsData allWorkersData allTasksData (tasksData seen) in
  setValidationErrors (map render <$> allErrors) st'.

(** [{ id: index, ...row }]: the index as [id], unless the row has an [id]
    of its own. *)
Definition withId (index : nat) (r : row) : row :=
  r ∪ {["id" := VNum (Int (Z.of_nat index))]}.

(** [rows.map((row, index) => ({ id: index, ...row }))] *)
Definition reindex (rows : list row) : list row := imap withId rows.

(** The corrections that the error-correction service suggested: a data
    set for each kind it corrected. *)
Record corrections := {
  corrClients : option (list row);
  corrWorkers : option (list row);
  corrTasks : option (list row) }.

Definition handleApplySuggestedCorrections (suggestedCorrections : option corrections)
    (st : pageState) : pageState :=
  match suggestedCorrections with
  | None => st
  | Some corr =>
      let updatedClientsData := clientsData st in
      let updatedWorkersData := workersData st in
      let updatedTasksData := tasksData st in
      let '(updatedClientsData, st1) :=
        match corrClients corr with
        | Some d => (reindex d, setClientsData (reindex d) st)
        | None => (updatedClientsData, st)
        end in
      let '(updatedWorkersData, st2) :=
        match corrWorkers corr with
        | Some d => (reindex d, setWorkersData (reindex d) st1)
        | None => (updatedWorkersData, st1)
        end in
      let '(updatedTasksData, st3) :=
        match corrTasks corr with
        | Some d => (reindex d, setTasksData (reindex d) st2)
        | None => (updatedTasksData, st2)
        end in
      (* the call of the source has four arguments: the file name, then the
         three data sets, which so take the places of currentData,
         clientsDataOverride and workersDataOverride *)
      triggerFullValidationIn st "applied-corrections" updatedClientsData
        (Some updatedWorkersData) (Some updatedTasksData) None st3
  end.

(** [prev.map((row) => (row.id === newRow.id ? newRow : row))] *)
Definition replaceRow (newRow : row) (rows : list row) : list row :=
  map (fun r => if JS.strict_eq (JS.get r "id") (JS.get newRow "id") then newRow else r) rows.

(** [processRowUpdate(newRow, oldRow, setter, type)] called from the render
    whose state is [st]; [setter] is the data set that the setter writes.
    The result is the row that the grid keeps, and the state after the
    deferred pass. *)
Definition processRowUpdate (newRow oldRow : row) (setter type : dataset) (st : pageState)
    : row * pageState :=
  (* Update the state *)
  let st' :=
    match setter with
    | clients => setClientsData (replaceRow newRow (clientsData st)) st
    | workers => setWorkersData (replaceRow newRow (workersData st)) st
    | tasks => setTasksData (replaceRow newRow (tasksData st)) st
    end in
  (* Trigger full validation after the state is updated *)
  let allClientsData :=
    if decide (type = clients)
    then (if decide (type = clients) then replaceRow newRow (clientsData st) else clientsData st)
    else clientsData st in
  let allWorkersData :=
    if decide (type = workers)
    then (if decide (type = workers) then replaceRow newRow (workersData st) else workersData st)
    else workersData st in
  let allTasksData :=
    if decide (type = tasks)
    then (if decide (type = tasks) then replaceRow newRow (tasksData st) else tasksData st)
    else tasksData st in
  let allErrors : gmap string (list issue) := ∅ in
  let clientErrors := validateSingleDataset allClientsData clients in
  let workerErrors := validateSingleDataset allWorkersData workers in
  let taskErrors := validateSingleDataset allTasksData tasks in
  let allErrors := setErrors "clients" clientErrors allErrors in
  let allErrors := setErrors "workers" workerErrors allErrors in
  let allErrors := setErrors "tasks" taskErrors allErrors in
  let allErrors :=
    if (0 <? length allClientsData)%nat && (0 <? length allTasksData)%nat
    then appendErrors "clients" (validateClientTaskRelationship allClientsData allTasksData)
                      allErrors
    else allErrors in
  let allErrors :=
    if (0 <? length allTasksData)%nat && (0 <? length allWorkersData)%nat
    then appendErrors "tasks" (validateTaskWorkerRelationship allTasksData allWorkersData)
                      allErrors
    else allErrors in
  (* Add complex validations *)
  let allErrors := appendErrors "workers" (validateOverloadedWorkers allWorkersData) allErrors in
  let allErrors :=
    appendErrors "tasks" (validatePhaseSlotSaturation allTasksData allWorkersData) allErrors in
  let allErrors :=
    appendErrors "tasks" (validateMaxConcurrencyFeasibility allTasksData allWorkersData)
                 allErrors in
  (* Placeholders for Milestone 2 validations *)
  let allErrors := appendErrors "tasks" (validateCircularCoRunGroups (tasksData st)) allErrors in
  let allErrors := appendErrors "tasks" (validateConflictingRules (tasksData st)) allErrors in
  (newRow, setValidationErrors (map render <$> allErrors) st').

(** The test of [cellClassName] in [generateColumns]: some error message of
    the grid includes the row number of the cell, or one of the three keys
    of its row. *)
Definition hasError (errorsForType : list string) (paramsId : jsval) (paramsRow : row) : bool :=
  existsb
    (fun errorMsg =>
       str_includes ("Row " +:+ JS.ToString (Val.plus paramsId (VNum (Int 1)))) errorMsg
       || str_includes ("(ClientID: " +:+ JS.ToString (JS.get paramsRow "ClientID") +:+ ")")
                       errorMsg
       || str_includes ("(WorkerID: " +:+ JS.ToString (JS.get paramsRow "WorkerID") +:+ ")")
                       errorMsg
       || str_includes ("(TaskID: " +:+ JS.ToString (JS.get paramsRow "TaskID") +:+ ")")
                       errorMsg)
    errorsForType.

(** [cellClassName(params)], with [errorsForType = validationErrors[type] || []] *)
Definition cellClassName (reported : gmap string (list string)) (type : dataset)
    (paramsId : jsval) (paramsRow : row) : string :=
  let errorsForType := default [] (reported !! type_name type) in
  if hasError errorsForType paramsId paramsRow then "error-cell" else "".

(** *** Vocabulary of the further properties *)

(** A non-empty run of decimal digits: what [/^[0-9]+$/] accepts. *)
Definition all_digits (s : string) : bool :=
  negb (bool_decide (s = "")) && forallb Str.is_digit (Str.to_list s).

Definition is_missing_report (e : issue) : bool :=
  match e with
  | MissingColumns _ _ => true
  | _ => false
  end.

(** Every list of the report is non-empty and stands under one of the
    three names. *)
Definition report_ok (m : gmap string (list issue)) : Prop :=
  forall key errs, m !! key = Some errs -> errs <> [] /\ exists d, key = type_name d.

(** The data set of a kind in the state, and an override for one kind. *)
Definition dataOf (d : dataset) (st : pageState) : list row :=
  match d with
  | clients => clientsData st
  | workers => workersData st
  | tasks => tasksData st
  end.

Definition overrideOf (d d' : dataset) (rows : list row) : option (list row) :=
  if decide (d = d') then Some rows else None.

(** The data a correction leaves for a kind: the corrected rows with their
    ids, or else the rows of the state. *)
Definition corrected (d : option (list row)) (old : list row) : list row :=
  from_option reindex old d.

(** The required columns that are no key of a row. *)
Definition absentColumns (first : row) (type : dataset) : list string :=
  filter (fun col => first !! col = None) (requiredColumns type).

(** The report on missing columns that a data set deserves: one message
    that lists the required columns absent from its first row, when there
    is such a row and such a column. *)
Definition missingColumnsReport (data : list row) (type : dataset) : list issue :=
  match data with
  | [] => []
  | first :: _ =>
      if decide (absentColumns first type = []) then []
      else [MissingColumns type (absentColumns first type)]
  end.

(** What may follow the digits that [parseInt] reads: nothing, or a
    character that is no digit and not the [x] of a hexadecimal prefix. *)
Definition ends_number (rest : list ascii) : bool :=
  match rest with
  | [] => true
  | c :: _ => negb (Str.is_digit c) && negb (Ascii.eqb c "x") && negb (Ascii.eqb c "X")
  end.

(** A file chosen for upload: its name, and the rows that Papa or XLSX
    read from it, when the reading succeeds. *)
Record upload := {
  fileName : string;
  parsedRows : option (list row) }.

Definition setData (d : dataset) (rows : list row) (st : pageState) : pageState :=
  match d with
  | clients => setClientsData rows st
  | workers => setWorkersData rows st
  | tasks => setTasksData rows st
  end.

(** [parseFile(file, setter)] started by a handler of the render whose
    state is [seen]: once the file is read, the rows get their ids, the
    setter stores them and a validation pass is triggered.  A name that
    ends neither with [.csv] nor with [.xlsx] starts nothing. *)
Definition parseFile (seen : pageState) (file : upload) (setter : dataset)
    (st : pageState) : pageState :=
  if Str.endsWith ".csv" (fileName file) || Str.endsWith ".xlsx" (fileName file) then
    match parsedRows file with
    | Some rows =>
        let parsedData := reindex rows in
        triggerFullValidationIn seen (fileName file) parsedData None None None
          (setData setter parsedData st)
    | None => st
    end
  else st.

(** [handleUpload()] called in the render whose state is [seen]: the files
    are parsed one after the other, then the pass named batch-upload runs.
    Every pass is the [triggerFullValidation] of that render. *)
Definition handleUpload (isUploading : bool) (clientsFile workersFile tasksFile : option upload)
    (seen : pageState) : pageState :=
  if isUploading then seen
  else
    match clientsFile, workersFile, tasksFile with
    | None, None, None => seen
    | _, _, _ =>
        let st := setValidationErrors ∅ seen in
        let st := from_option (fun f => parseFile seen f clients st) st clientsFile in
        let st := from_option (fun f => parseFile seen f workers st) st workersFile in
        let st := from_option (fun f => parseFile seen f tasks st) st tasksFile in
        triggerFullValidationIn seen "batch-upload" [] None None None st
    end.

(** What the data-modification service answers in [modifiedData]: an
    object with a data set for each kind it changed, or one array of rows,
    or something else. *)
Inductive modification : Type :=
| ModObject (sets : corrections)
| ModArray (rows : list row)
| ModOther.

(** The part of [handleNlDataModification] that follows the answer of the
    service, in the render whose state is [seen]. *)
Definition handleNlDataModification (modifiedData : modification) (seen : pageState)
    : pageState :=
  match modifiedData with
  | ModOther => seen
  | _ =>
      let changesApplied := false in
      let safeModifiedData :=
        match modifiedData with
        | ModObject sets => sets
        | _ => {| corrClients := None; corrWorkers := None; corrTasks := None |}
        end in
      let '(changesApplied, st) :=
        match corrClients safeModifiedData with
        | Some d => (true, setClientsData (reindex d) seen)
        | None => (changesApplied, seen)
        end in
      let '(changesApplied, st) :=
        match corrWorkers safeModifiedData with
        | Some d => (true, setWorkersData (reindex d) st)
        | None => (changesApplied, st)
        end in
      let '(changesApplied, st) :=
        match corrTasks safeModifiedData with
        | Some d => (true, setTasksData (reindex d) st)
        | None => (changesApplied, st)
        end in
      (* If the response is a single array (legacy format) *)
      let '(changesApplied, st) :=
        match modifiedData with
        | ModArray arrayData =>
            if (0 <? length (clientsData seen))%nat
            then (true, setClientsData (reindex arrayData) st)
            else if (0 <? length (workersData seen))%nat
            then (true, setWorkersData (reindex arrayData) st)
            else if (0 <? length (tasksData seen))%nat
            then (true, setTasksData (reindex arrayData) st)
            else (changesApplied, st)
        | _ => (changesApplied, st)
        end in
      if changesApplied
      then triggerFullValidationIn seen "data-modification-trigger" [] None None None st
      else st
  end.

(** * Properties *)

(** ** Checks of the built-ins on examples *)

Example trim_ex : Str.trim "  T9 " = "T9".
Proof. reflexivity. Qed.

Example split_ex : Str.split "," "a,,b," = ["a"; ""; "b"; ""].
Proof. reflexivity. Qed.

Example split_empty_ex : Str.split "," "" = [""].
Proof. reflexivity. Qed.

Example ofString_ex :
  map Num.ofString ["1"; " 2 "; ""; "x"; "1.50"; "1e2"; "0x1F"; "-Infinity"; "1,2"; ".";
                    "\d"; "12px"; "0x"; ".5"; "5."; "250e-2"]
  = [Int 1; Int 2; Int 0; NaN; Dec 15 1; Int 100; Int 31; Inf true; NaN; NaN;
     NaN; NaN; NaN; Dec 5 1; Int 5; Dec 25 1].
Proof. vm_compute. reflexivity. Qed.

Example parseInt_ex :
  map Num.parseInt [""; "5"; " 42abc"; "-7"; "0x1f"; "abc"; "3.9"; "1e3"; "0x"]
  = [NaN; Int 5; Int 42; Int (-7); Int 31; NaN; Int 3; Int 1; NaN].
Proof. vm_compute. reflexivity. Qed.

Example toString_ex :
  map Num.toString [Int 12; Int (-3); Dec 15 1; Dec (-5) 2; NaN; Int 0]
  = ["12"; "-3"; "1.5"; "-0.05"; "NaN"; "0"].
Proof. vm_compute. reflexivity. Qed.

Example json_parse_ex :
  map Json.parse ["[1,2,3]"; "[ 1 , 2.5,-3e2 ]"; "[]"; "[1,,3]"; "[1,true]"; "[01]"; "[1.]";
                  "[[1],2]"; "[1,2"; "12"; "{a:1}"; "[1] x"; "{}"]
  = [Some (JArr [JNum (Int 1); JNum (Int 2); JNum (Int 3)]);
     Some (JArr [JNum (Int 1); JNum (Dec 25 1); JNum (Int (-300))]);
     Some (JArr []); None; Some (JArr [JNum (Int 1); JBool true]);
     None; None; Some (JArr [JArr [JNum (Int 1)]; JNum (Int 2)]); None;
     Some (JNum (Int 12)); None; None; Some (JObj [])].
Proof. vm_compute. reflexivity. Qed.

Example json_parse_object_ex :
  Json.parse ("{" +:+ Str.quote +:+ "a" +:+ Str.quote +:+ ": [null, " +:+
              Str.quote +:+ "x\n" +:+ Str.quote +:+ "]}")
  = Some (JObj [("a", JArr [JNull; JStr "x\n"])]).
Proof. vm_compute. reflexivity. Qed.

Example sort_ex :
  JS.sort_numbers [Int 3; Int 1; Dec 15 1; Int 2] = [Int 1; Dec 15 1; Int 2; Int 3].
Proof. vm_compute. reflexivity. Qed.

Example set_from_ex :
  JS.Set_from [VStr "b"; VStr "a"; VStr "b"; VNum (Int 1)] = [VStr "b"; VStr "a"; VNum (Int 1)].
Proof. vm_compute. reflexivity. Qed.

Example render_ex :
  render (PhaseSaturated (Int 1) (Int 5) (Int 2))
  = "Phase 1: Total task duration (5) exceeds available worker capacity (2).".
Proof. vm_compute. reflexivity. Qed.

(** ** Laws of [forEach] *)

Section forEach_laws.
Context {A B : Type}.

Lemma forEach_from_emit (g : A -> nat -> list B) (body : list B -> A -> nat -> list B) :
  (forall s x i, body s x i = s ++ g x i) ->
  forall l i s, JS.forEach_from i body l s = s ++ emit_from i g l.
Proof.
  intros Hbody l. induction l as [|x r IH]; intros i s; simpl.
  - by rewrite app_nil_r.
  - rewrite IH, Hbody, <- app_assoc. reflexivity.
Qed.

Lemma forEach_emit (g : A -> nat -> list B) (body : list B -> A -> nat -> list B) :
  (forall s x i, body s x i = s ++ g x i) ->
  forall l, JS.forEach body l [] = emit_from O g l.
Proof. intros Hbody l. unfold JS.forEach. by rewrite (forEach_from_emit g). Qed.

(** A loop that pushes [e x] when [c x] holds. *)
Lemma forEach_from_push_if (c : A -> bool) (e : A -> B) l : forall i s,
  JS.forEach_from i (fun s x (_ : nat) => if c x then push s (e x) else s) l s
  = s ++ map e (List.filter c l).
Proof.
  induction l as [|x r IH]; intros i s; simpl.
  - by rewrite app_nil_r.
  - rewrite IH. destruct (c x); simpl; [|done].
    unfold push. by rewrite <- app_assoc.
Qed.

Lemma forEach_from_ext {S} (f g : S -> A -> nat -> S) l :
  (forall s x i, f s x i = g s x i) ->
  forall i s, JS.forEach_from i f l s = JS.forEach_from i g l s.
Proof.
  intros Hfg. induction l as [|x r IH]; intros i s; simpl; [done|].
  by rewrite Hfg, IH.
Qed.

(** A loop whose body ignores the index is a left fold. *)
Lemma forEach_from_foldl {S} (f : S -> A -> S) l : forall i s,
  JS.forEach_from i (fun s x (_ : nat) => f s x) l s = foldl f s l.
Proof. induction l as [|x r IH]; intros i s; simpl; [done|]. apply IH. Qed.

Lemma elem_of_emit_from (g : A -> nat -> list B) l e : forall i,
  e ∈ emit_from i g l <-> exists j x, l !! j = Some x /\ e ∈ g x (i + j)%nat.
Proof.
  induction l as [|x r IH]; intros i; simpl.
  - split; [by intros ?%elem_of_nil | by intros (j & y & ? & _)].
  - rewrite elem_of_app, IH. split.
    + intros [H | (j & y & Hj & He)].
      * exists O, x. by rewrite Nat.add_0_r.
      * exists (S j), y. split; [done|]. by replace (i + S j)%nat with (S i + j)%nat by lia.
    + intros ([|j] & y & Hj & He); simpl in Hj.
      * left. simplify_eq. by rewrite Nat.add_0_r in He.
      * right. exists j, y. split; [done|].
        by replace (S i + j)%nat with (i + S j)%nat by lia.
Qed.
End forEach_laws.

Lemma filter_all {A} (P : A -> Prop) `{forall x, Decision (P x)} (l : list A) :
  (forall x, x ∈ l -> P x) -> filter P l = l.
Proof.
  induction l as [|x r IH]; intros Hall; [done|].
  rewrite filter_cons_True by (apply Hall; left).
  f_equal. apply IH. intros y Hy. apply Hall. by right.
Qed.

Lemma filter_none {A} (P : A -> Prop) `{forall x, Decision (P x)} (l : list A) :
  (forall x, x ∈ l -> ~ P x) -> filter P l = [].
Proof.
  induction l as [|x r IH]; intros Hall; [done|].
  rewrite filter_cons_False by (apply Hall; left).
  apply IH. intros y Hy. apply Hall. by right.
Qed.

Lemma constant_sorted (i : nat) (l : list nat) :
  Forall (fun a => a = i) l -> StronglySorted le l.
Proof.
  induction 1 as [|a l' -> Hl IH]; constructor; [done|].
  eapply Forall_impl; [exact Hl|]. intros b ->. lia.
Qed.

Section row_attribution.
Context {A : Type} (g : A -> nat -> list issue).
Hypothesis g_row : forall x j e, e ∈ g x j -> issue_row e = Some j.

Lemma emit_from_row_ge l i e :
  e ∈ emit_from i g l -> exists j, (i <= j)%nat /\ issue_row e = Some j.
Proof.
  intros (j & x & _ & He)%elem_of_emit_from.
  exists (i + j)%nat. split; [lia|]. by eapply g_row.
Qed.

(** The errors of a loop that are attributed to one row are those of the
    iteration on that row. *)
Lemma at_row_emit_from l : forall i k x,
  l !! k = Some x -> at_row (i + k) (emit_from i g l) = g x (i + k)%nat.
Proof.
  unfold at_row. induction l as [|y r IH]; intros i k x Hk; [done|].
  simpl. rewrite filter_app. destruct k as [|k]; simpl in Hk.
  - simplify_eq. rewrite Nat.add_0_r.
    rewrite filter_all by (intros e He; by eapply g_row).
    rewrite filter_none; [by rewrite app_nil_r|].
    intros e (j & Hj & Hrow)%emit_from_row_ge. rewrite Hrow. intros [=]. lia.
  - rewrite filter_none.
    + replace (i + S k)%nat with (S i + k)%nat by lia. by apply IH.
    + intros e He. rewrite (g_row _ _ _ He). intros [=]. lia.
Qed.

Lemma at_row_emit_from_None l i k :
  l !! k = None -> at_row (i + k) (emit_from i g l) = [].
Proof.
  intros Hk. unfold at_row. apply filter_none.
  intros e (j & x & Hj & He)%elem_of_emit_from.
  rewrite (g_row _ _ _ He). intros [=].
  assert (j = k) by lia. simplify_eq.
Qed.

Lemma at_row_emit l k x :
l !! k = Some x -> at_row k (emit_from O g l) = g x k.
Proof. apply (at_row_emit_from l O). Qed.

(** The rows named by the errors of a loop never decrease. *)
Lemma rows_of_emit_from_sorted l : forall i,
  StronglySorted le (rows_of (emit_from i g l)).
Proof.
  unfold rows_of. induction l as [|x r IH]; intros i; simpl; [constructor|].
  rewrite omap_app. apply StronglySorted_app_2; [| |apply IH].
  - intros a b (e1 & He1 & Ha)%list_elem_of_omap (e2 & He2 & Hb)%list_elem_of_omap.
    rewrite (g_row _ _ _ He1) in Ha.
    apply emit_from_row_ge in He2 as (j & Hj & Hrow). simplify_eq. lia.
  - assert (Hall : Forall (fun a => a = i) (omap issue_row (g x i))).
    { apply Forall_forall. intros a (e & He & Ha)%list_elem_of_omap.
      rewrite (g_row _ _ _ He) in Ha. by simplify_eq. }
    by apply constant_sorted with i.
Qed.
End row_attribution.

(** ** The validators in closed form *)

Lemma validateClientTaskRelationship_emit clientRows taskRows :
  validateClientTaskRelationship clientRows taskRows
  = emit_from O (clientTaskIssues taskRows) clientRows.
Proof.
  unfold validateClientTaskRelationship. apply forEach_emit. intros s client i.
  unfold clientTaskIssues, danglingTaskIds.
  destruct (JS.truthy _); [|by rewrite app_nil_r].
  unfold JS.forEach. apply (forEach_from_push_if _ _ _ O).
Qed.

Lemma validateTaskWorkerRelationship_emit taskRows workerRows :
  validateTaskWorkerRelationship taskRows workerRows
  = emit_from O (taskWorkerIssues workerRows) taskRows.
Proof.
  unfold validateTaskWorkerRelationship. apply forEach_emit. intros s task i.
  unfold taskWorkerIssues, danglingSkills.
  destruct (JS.truthy _); [|by rewrite app_nil_r].
  unfold JS.forEach. apply (forEach_from_push_if _ _ _ O).
Qed.

Lemma validateOverloadedWorkers_emit workerRows :
  validateOverloadedWorkers workerRows = emit_from O overloadIssues workerRows.
Proof.
  unfold validateOverloadedWorkers. apply forEach_emit. intros s worker i.
  unfold overloadIssues, overloaded, push.
  repeat (destruct (_ : bool); simpl; try by rewrite ?app_nil_r).
Qed.

Lemma validateMaxConcurrencyFeasibility_emit taskRows workerRows :
  validateMaxConcurrencyFeasibility taskRows workerRows
  = emit_from O (concurrencyIssues workerRows) taskRows.
Proof.
  unfold validateMaxConcurrencyFeasibility. apply forEach_emit. intros s task i.
  unfold concurrencyIssues, infeasible, push.
  repeat (destruct (_ : bool); simpl; try by rewrite ?app_nil_r).
Qed.

Lemma validateClientRow_app errors r i :
  validateClientRow errors r i = errors ++ validateClientRow [] r i.
Proof.
  unfold validateClientRow, push.
  repeat case_match; cbn [app]; by rewrite ?app_nil_r, <- ?app_assoc.
Qed.

Lemma validateWorkerRow_app errors r i :
  validateWorkerRow errors r i = errors ++ validateWorkerRow [] r i.
Proof.
  unfold validateWorkerRow, push.
  repeat case_match; cbn [app]; by rewrite ?app_nil_r, <- ?app_assoc.
Qed.

Lemma validatePreferredPhases_app errors r i :
  validatePreferredPhases errors r i = errors ++ validatePreferredPhases [] r i.
Proof.
  unfold validatePreferredPhases, push.
  repeat case_match; cbn [app]; by rewrite ?app_nil_r, <- ?app_assoc.
Qed.

Lemma validateTaskRow_app errors r i :
  validateTaskRow errors r i = errors ++ validateTaskRow [] r i.
Proof.
  unfold validateTaskRow, push.
  destruct (_ || _); destruct (_ || _); simpl;
    rewrite (validatePreferredPhases_app (_ ++ _)) || rewrite (validatePreferredPhases_app errors);
    try rewrite (validatePreferredPhases_app [_]);
    try rewrite (validatePreferredPhases_app [_; _]);
    by rewrite <- ?app_assoc.
Qed.

Lemma validateSingleDataset_emit data type :
  validateSingleDataset data type
  = headerIssues data type ++ emit_from O (rowIssues type) data.
Proof.
  unfold validateSingleDataset, JS.forEach.
  rewrite (forEach_from_emit (rowIssues type)).
  - f_equal. unfold headerIssues, push.
    destruct data; repeat (case_match; simpl; try done).
  - intros s r i. destruct type; simpl.
    + apply validateClientRow_app.
    + apply validateWorkerRow_app.
    + apply validateTaskRow_app.
Qed.

(** ** What each validator can push *)

Lemma clientTaskIssues_row taskRows client j e :
  e ∈ clientTaskIssues taskRows client j -> issue_row e = Some j.
Proof. unfold clientTaskIssues. by intros (reqId & -> & _)%list_elem_of_fmap. Qed.

Lemma taskWorkerIssues_row workerRows task j e :
  e ∈ taskWorkerIssues workerRows task j -> issue_row e = Some j.
Proof. unfold taskWorkerIssues. by intros (s & -> & _)%list_elem_of_fmap. Qed.

Lemma overloadIssues_row worker j e :
  e ∈ overloadIssues worker j -> issue_row e = Some j.
Proof.
  unfold overloadIssues. destruct (overloaded worker); [|by intros ?%elem_of_nil].
  by intros ->%list_elem_of_singleton.
Qed.

Lemma concurrencyIssues_row workerRows task j e :
  e ∈ concurrencyIssues workerRows task j -> issue_row e = Some j.
Proof.
  unfold concurrencyIssues. destruct (infeasible _ _); [|by intros ?%elem_of_nil].
  by intros ->%list_elem_of_singleton.
Qed.

Lemma rowIssues_Forall type r j :
  Forall (fun e => exists p, e = RowIssue type j (idOrNA r type) p
                             /\ problem_category p = structural)
         (rowIssues type r j).
Proof.
  destruct type; simpl;
    unfold validateClientRow, validateWorkerRow, validateTaskRow, validatePreferredPhases, push;
    repeat case_match; cbn [app]; repeat constructor; eauto.
Qed.

Lemma rowIssues_shape type r j e :
  e ∈ rowIssues type r j ->
  exists p, e = RowIssue type j (idOrNA r type) p /\ problem_category p = structural.
Proof. intros He. by eapply Forall_forall in He; [|apply rowIssues_Forall]. Qed.

Lemma rowIssues_row type r j e : e ∈ rowIssues type r j -> issue_row e = Some j.
Proof. by intros (p & -> & _)%rowIssues_shape. Qed.

Lemma headerIssues_category data type : in_category structural (headerIssues data type).
Proof.
  unfold headerIssues, in_category. apply Forall_app. split.
  - destruct data; [constructor|]. case_match; repeat constructor.
  - case_match; repeat constructor.
Qed.

Lemma headerIssues_rowless data type :
  Forall (fun e => issue_row e = None) (headerIssues data type).
Proof.
  unfold headerIssues. apply Forall_app. split.
  - destruct data; [constructor|]. case_match; repeat constructor.
  - case_match; repeat constructor.
Qed.

Lemma emit_from_Forall {A B} (P : B -> Prop) (g : A -> nat -> list B) l :
  (forall x j e, e ∈ g x j -> P e) -> forall i, Forall P (emit_from i g l).
Proof.
  intros Hg i. apply Forall_forall. intros e (j & x & _ & He)%elem_of_emit_from. eauto.
Qed.

(** A loop whose iterations name their own row leaves its messages in
    row order. *)
Lemma emit_in_row_order {A} (g : A -> nat -> list issue) l :
  (forall x j e, e ∈ g x j -> issue_row e = Some j) ->
  in_row_order (emit_from O g l).
Proof.
  intros Hg. exists [], (emit_from O g l). split_and!; [done|constructor| |].
  - apply emit_from_Forall. intros x j e He. rewrite (Hg _ _ _ He). by eexists.
  - by apply rows_of_emit_from_sorted.
Qed.

(** Messages that name no row can precede a list in row order. *)
Lemma in_row_order_after l1 l2 :
  Forall (fun e => issue_row e = None) l1 -> in_row_order l2 -> in_row_order (l1 ++ l2).
Proof.
  intros H1 (general & perRow & -> & Hg & Hp & Hs).
  exists (l1 ++ general), perRow. rewrite app_assoc. split_and!; try done.
  by apply Forall_app.
Qed.

Lemma in_row_order_nil : in_row_order [].
Proof. exists [], []. split_and!; by constructor. Qed.

Lemma validateSingleDataset_category data type :
  in_category structural (validateSingleDataset data type).
Proof.
  rewrite validateSingleDataset_emit. apply Forall_app. split.
  - apply headerIssues_category.
  - apply emit_from_Forall. by intros r j e (p & -> & Hp)%rowIssues_shape.
Qed.

Lemma validateSingleDataset_row_order data type :
  in_row_order (validateSingleDataset data type).
Proof.
  rewrite validateSingleDataset_emit.
  apply in_row_order_after; [apply headerIssues_rowless|].
  apply emit_in_row_order, rowIssues_row.
Qed.

Lemma validateClientTaskRelationship_category clientRows taskRows :
  in_category reference (validateClientTaskRelationship clientRows taskRows).
Proof.
  rewrite validateClientTaskRelationship_emit. apply emit_from_Forall.
  unfold clientTaskIssues. by intros r j e (reqId & -> & _)%list_elem_of_fmap.
Qed.

Lemma validateClientTaskRelationship_row_order clientRows taskRows :
  in_row_order (validateClientTaskRelationship clientRows taskRows).
Proof.
  rewrite validateClientTaskRelationship_emit.
  apply emit_in_row_order, clientTaskIssues_row.
Qed.

Lemma validateTaskWorkerRelationship_category taskRows workerRows :
  in_category reference (validateTaskWorkerRelationship taskRows workerRows).
Proof.
  rewrite validateTaskWorkerRelationship_emit. apply emit_from_Forall.
  unfold taskWorkerIssues. by intros r j e (s & -> & _)%list_elem_of_fmap.
Qed.

Lemma validateTaskWorkerRelationship_row_order taskRows workerRows :
  in_row_order (validateTaskWorkerRelationship taskRows workerRows).
Proof.
  rewrite validateTaskWorkerRelationship_emit.
  apply emit_in_row_order, taskWorkerIssues_row.
Qed.

Lemma validateOverloadedWorkers_category workerRows :
  in_category capacity (validateOverloadedWorkers workerRows).
Proof.
  rewrite validateOverloadedWorkers_emit. apply emit_from_Forall.
  unfold overloadIssues. intros r j e. destruct (overloaded r); [|by intros ?%elem_of_nil].
  by intros ->%list_elem_of_singleton.
Qed.

Lemma validateOverloadedWorkers_row_order workerRows :
  in_row_order (validateOverloadedWorkers workerRows).
Proof.
  rewrite validateOverloadedWorkers_emit.
  apply emit_in_row_order, overloadIssues_row.
Qed.

Lemma validateMaxConcurrencyFeasibility_category taskRows workerRows :
  in_category capacity (validateMaxConcurrencyFeasibility taskRows workerRows).
Proof.
  rewrite validateMaxConcurrencyFeasibility_emit. apply emit_from_Forall.
  unfold concurrencyIssues. intros r j e. destruct (infeasible _ r); [|by intros ?%elem_of_nil].
  by intros ->%list_elem_of_singleton.
Qed.

Lemma validateMaxConcurrencyFeasibility_row_order taskRows workerRows :
  in_row_order (validateMaxConcurrencyFeasibility taskRows workerRows).
Proof.
  rewrite validateMaxConcurrencyFeasibility_emit.
  apply emit_in_row_order, concurrencyIssues_row.
Qed.

(** The saturation check pushes one message per listed phase that passes
    the test, in the order of the list. *)
Lemma validatePhaseSlotSaturation_filter taskRows workerRows :
  validatePhaseSlotSaturation taskRows workerRows
  = map (fun phase =>
           PhaseSaturated phase (totalTaskDurationInPhase taskRows phase)
             (JS.num_or (phaseCapacitiesOf workerRows !! phase) (Int 0)))
        (List.filter
           (fun phase => Num.gt (totalTaskDurationInPhase taskRows phase)
                           (JS.num_or (phaseCapacitiesOf workerRows !! phase) (Int 0)))
           (JS.sort_numbers (allPhasesOf taskRows))).
Proof.
  unfold validatePhaseSlotSaturation, JS.forEach.
  by rewrite (forEach_from_push_if
    (fun phase => Num.gt (totalTaskDurationInPhase taskRows phase)
                    (JS.num_or (phaseCapacitiesOf workerRows !! phase) (Int 0)))
    (fun phase => PhaseSaturated phase (totalTaskDurationInPhase taskRows phase)
                    (JS.num_or (phaseCapacitiesOf workerRows !! phase) (Int 0)))).
Qed.

Lemma validatePhaseSlotSaturation_category taskRows workerRows :
  in_category capacity (validatePhaseSlotSaturation taskRows workerRows).
Proof.
  rewrite validatePhaseSlotSaturation_filter. apply Forall_forall.
  by intros e (p & -> & _)%list_elem_of_fmap.
Qed.

Lemma validatePhaseSlotSaturation_rowless taskRows workerRows :
  Forall (fun e => issue_row e = None) (validatePhaseSlotSaturation taskRows workerRows).
Proof.
  rewrite validatePhaseSlotSaturation_filter. apply Forall_forall.
  by intros e (p & -> & _)%list_elem_of_fmap.
Qed.

Lemma in_category_nil c : in_category c [].
Proof. constructor. Qed.

Lemma in_category_app c l1 l2 :
  in_category c l1 -> in_category c l2 -> in_category c (l1 ++ l2).
Proof. intros. by apply Forall_app. Qed.

Create HintDb report discriminated.
#[local] Hint Resolve
  in_category_nil in_row_order_nil in_category_app in_row_order_after
  validateSingleDataset_category validateSingleDataset_row_order
  validateClientTaskRelationship_category validateClientTaskRelationship_row_order
  validateTaskWorkerRelationship_category validateTaskWorkerRelationship_row_order
  validateOverloadedWorkers_category validateOverloadedWorkers_row_order
  validateMaxConcurrencyFeasibility_category validateMaxConcurrencyFeasibility_row_order
  validatePhaseSlotSaturation_category validatePhaseSlotSaturation_rowless : report.

(** ** The report, key by key *)

Lemma errorsAt_setErrors_eq key errs m :
  errorsAt key (setErrors key errs m)
  = if (0 <? length errs)%nat then errs else errorsAt key m.
Proof.
  unfold errorsAt, setErrors. destruct (0 <? length errs)%nat; [|done].
  by rewrite lookup_insert_eq.
Qed.

Lemma errorsAt_setErrors_ne key key' errs m :
  key <> key' -> errorsAt key' (setErrors key errs m) = errorsAt key' m.
Proof.
  intros Hne. unfold errorsAt, setErrors. destruct (0 <? length errs)%nat; [|done].
  by rewrite lookup_insert_ne.
Qed.

Lemma errorsAt_appendErrors_eq key more m :
  errorsAt key (appendErrors key more m) = errorsAt key m ++ more.
Proof.
  unfold errorsAt, appendErrors. destruct (0 <? length more)%nat eqn:E.
  - by rewrite lookup_insert_eq.
  - apply Nat.ltb_ge in E. destruct more; [|simpl in E; lia]. by rewrite app_nil_r.
Qed.

Lemma errorsAt_appendErrors_ne key key' more m :
  key <> key' -> errorsAt key' (appendErrors key more m) = errorsAt key' m.
Proof.
  intros Hne. unfold errorsAt, appendErrors. destruct (0 <? length more)%nat; [|done].
  by rewrite lookup_insert_ne.
Qed.

Lemma errorsAt_empty key : errorsAt key ∅ = [].
Proof. unfold errorsAt. by rewrite lookup_empty. Qed.

Lemma nonempty_or_nil {A} (l : list A) : (if (0 <? length l)%nat then l else []) = l.
Proof. by destruct l. Qed.

Ltac read_report :=
  repeat first
    [ rewrite errorsAt_appendErrors_eq
    | rewrite errorsAt_appendErrors_ne by discriminate
    | rewrite errorsAt_setErrors_eq
    | rewrite errorsAt_setErrors_ne by discriminate
    | rewrite errorsAt_empty ].

Lemma fullValidation_clients c w t s :
  errorsAt "clients" (fullValidation c w t s)
  = validateSingleDataset c clients ++
    (if (0 <? length c)%nat && (0 <? length t)%nat
     then validateClientTaskRelationship c t else []).
Proof.
  unfold fullValidation, validateCircularCoRunGroups, validateConflictingRules.
  destruct ((0 <? length c)%nat && (0 <? length t)%nat);
    destruct ((0 <? length t)%nat && (0 <? length w)%nat);
    read_report;
    by rewrite ?nonempty_or_nil, ?app_nil_r.
Qed.

Lemma fullValidation_workers c w t s :
  errorsAt "workers" (fullValidation c w t s)
  = validateSingleDataset w workers ++ validateOverloadedWorkers w.
Proof.
  unfold fullValidation, validateCircularCoRunGroups, validateConflictingRules.
  destruct ((0 <? length c)%nat && (0 <? length t)%nat);
    destruct ((0 <? length t)%nat && (0 <? length w)%nat);
    read_report;
    by rewrite ?nonempty_or_nil, ?app_nil_r.
Qed.

Lemma fullValidation_tasks c w t s :
  errorsAt "tasks" (fullValidation c w t s)
  = validateSingleDataset t tasks ++
    (if (0 <? length t)%nat && (0 <? length w)%nat
     then validateTaskWorkerRelationship t w else []) ++
    (validatePhaseSlotSaturation t w ++ validateMaxConcurrencyFeasibility t w).
Proof.
  unfold fullValidation, validateCircularCoRunGroups, validateConflictingRules.
  destruct ((0 <? length c)%nat && (0 <? length t)%nat);
    destruct ((0 <? length t)%nat && (0 <? length w)%nat);
    read_report;
    by rewrite ?nonempty_or_nil, ?app_nil_r, <- ?app_assoc.
Qed.

Lemma of_category_same c errs : in_category c errs -> of_category c errs = errs.
Proof.
  intros H. apply filter_all. intros e He. by eapply Forall_forall in H.
Qed.

Lemma of_category_other c c' errs :
  c <> c' -> in_category c' errs -> of_category c errs = [].
Proof.
  intros Hne H. apply filter_none. intros e He.
  eapply Forall_forall in H; [|done]. congruence.
Qed.

Lemma of_category_app c l1 l2 :
  of_category c (l1 ++ l2) = of_category c l1 ++ of_category c l2.
Proof. apply filter_app. Qed.

(** ** Per-worker overload (C4) *)

(** C4, at the input the claim names: a worker whose AvailableSlots cell is
    empty and whose MaxLoadPerPhase is 3 has fewer slot entries than its load
    (one entry by the normalisation of the source, none by that of the
    specification), and the check reports nothing. *)
Lemma C4_empty_slots_not_reported :
  let worker := scenarioWorker "" "3" in
  JS.get worker "AvailableSlots" = VStr ""
  /\ parseIntCell worker "MaxLoadPerPhase" = Int 3
  /\ Num.lt (Int (Z.of_nat (length (slotNumbers (JS.get worker "AvailableSlots"))))) (Int 3) = true
  /\ validateOverloadedWorkers [worker] = [].
Proof. vm_compute. done. Qed.

(** C4, amended: for every row of the workers data, the overload check
    reports the row exactly once when its AvailableSlots cell is truthy, its
    MaxLoadPerPhase is not undefined, and the number of comma-separated slot
    entries that are numbers is less than parseInt of MaxLoadPerPhase; it
    reports nothing for the row otherwise. *)
Theorem C4_overload_per_worker (workerRows : list row) (i : nat) (worker : row) :
  workerRows !! i = Some worker ->
  at_row i (validateOverloadedWorkers workerRows)
  = if JS.truthy (JS.get worker "AvailableSlots")
       && negb (JS.strict_eq (JS.get worker "MaxLoadPerPhase") VUndef)
    then
      if Num.lt (Int (Z.of_nat (length (slotNumbers (JS.get worker "AvailableSlots")))))
                (parseIntCell worker "MaxLoadPerPhase")
      then [RowIssue workers i (idOrNA worker workers)
              (Overloaded (length (slotNumbers (JS.get worker "AvailableSlots")))
                          (parseIntCell worker "MaxLoadPerPhase"))]
      else []
    else [].
Proof.
  intros Hi. rewrite validateOverloadedWorkers_emit.
  rewrite (at_row_emit overloadIssues overloadIssues_row workerRows i worker Hi).
  unfold overloadIssues, overloaded. simpl.
  destruct (JS.truthy _); simpl; [|done].
  destruct (JS.strict_eq _ _); simpl; [done|].
  by destruct (parseIntCell worker "MaxLoadPerPhase").
Qed.

Lemma C4_overload_witness :
  at_row 0 (validateOverloadedWorkers [scenarioWorker "1,2" "3"; scenarioWorker "1,2,3" "3"])
  = [RowIssue workers 0 (VStr "W1") (Overloaded 2 (Int 3))]
  /\ at_row 1 (validateOverloadedWorkers [scenarioWorker "1,2" "3"; scenarioWorker "1,2,3" "3"])
     = [].
Proof.
  split.
  - rewrite (C4_overload_per_worker _ 0%nat (scenarioWorker "1,2" "3")) by reflexivity.
    vm_compute. reflexivity.
  - rewrite (C4_overload_per_worker _ 1%nat (scenarioWorker "1,2,3" "3")) by reflexivity.
    vm_compute. reflexivity.
Defined.

(** ** Client to task references (C5, C10) *)

Lemma elem_of_taskIdsOf taskRows reqId :
  reqId ∈ taskIdsOf taskRows
  <-> exists task, task ∈ taskRows /\ JS.ToString (JS.get task "TaskID") = reqId.
Proof.
  unfold taskIdsOf. rewrite elem_of_list_to_set. change map with (@fmap list _).
  rewrite list_elem_of_fmap. split; intros (task & H1 & H2); exists task; done.
Qed.

(** C5, at an input with an empty token: the trimmed tokens of [T1,] are
    [T1] and the empty string, the empty string is the TaskID of no task, and
    no error is reported for it. *)
Lemma C5_empty_token_not_reported :
  let client := mkRow [("ClientID", VStr "C1"); ("RequestedTaskIDs", VStr "T1,")] in
  let taskRows := [mkRow [("TaskID", VStr "T1")]] in
  requestedIdsOf client = ["T1"; ""]
  /\ bool_decide ("" ∈ taskIdsOf taskRows) = false
  /\ validateClientTaskRelationship [client] taskRows = []
  /\ errorsAt "clients" (fullValidation [client] [] taskRows [])
     = validateSingleDataset [client] clients.
Proof. vm_compute. done. Qed.

(** C5, amended: when the tasks data is not empty, the reference errors that
    the report lists under clients for a client row are, in the order of the
    tokens, one error for every trimmed token of its RequestedTaskIDs that is
    not empty and is the TaskID of no task; the other tokens give none, and a
    row whose RequestedTaskIDs cell is falsy gives none. *)
Theorem C5_client_task_references (c w t s : list row) (i : nat) (client : row) :
  c !! i = Some client ->
  t <> [] ->
  at_row i (of_category reference (errorsAt "clients" (fullValidation c w t s)))
  = map (fun reqId => RowIssue clients i (idOrNA client clients) (TaskNotFound reqId))
        (List.filter
           (fun reqId => nonempty reqId && negb (bool_decide (reqId ∈ taskIdsOf t)))
           (if JS.truthy (JS.get client "RequestedTaskIDs") then requestedIdsOf client else [])).
Proof.
  intros Hi Ht. rewrite fullValidation_clients.
  assert ((0 <? length c)%nat && (0 <? length t)%nat = true) as ->.
  { destruct c; [done|]. by destruct t. }
  rewrite of_category_app.
  rewrite (of_category_other _ structural) by (done || apply validateSingleDataset_category).
  rewrite of_category_same by apply validateClientTaskRelationship_category.
  simpl. rewrite validateClientTaskRelationship_emit.
  rewrite (at_row_emit _ (clientTaskIssues_row t) c i client Hi).
  unfold clientTaskIssues, danglingTaskIds. simpl.
  by destruct (JS.truthy _).
Qed.

Lemma C5_reference_witness :
  let client := mkRow [("RequestedTaskIDs", VStr "T1,T9")] in
  let taskRows := [mkRow [("TaskID", VStr "T1")]] in
  at_row 0 (of_category reference (errorsAt "clients" (fullValidation [client] [] taskRows [])))
  = [RowIssue clients 0 (VStr "N/A") (TaskNotFound "T9")]
  /\ render (RowIssue clients 0 (VStr "N/A") (TaskNotFound "T9"))
     = "Row 1 (ClientID: N/A): Requested Task ID 'T9' not found in tasks data.".
Proof.
  split; [|vm_compute; reflexivity].
  rewrite (C5_client_task_references _ _ _ _ 0%nat (mkRow [("RequestedTaskIDs", VStr "T1,T9")]))
    by (reflexivity || discriminate).
  vm_compute. reflexivity.
Defined.

(** C10: no error of the two cross-reference checks names an empty token:
    the messages of the client check are all about a non-empty requested
    id that no task has, and those of the skill check about a non-empty
    required skill that no worker has. *)
Theorem C10_empty_tokens_skipped (clientRows workerRows taskRows : list row) :
  (forall e, e ∈ validateClientTaskRelationship clientRows taskRows ->
     exists i client reqId,
       clientRows !! i = Some client
       /\ e = RowIssue clients i (idOrNA client clients) (TaskNotFound reqId)
       /\ reqId ∈ requestedIdsOf client /\ reqId <> "" /\ reqId ∉ taskIdsOf taskRows)
  /\ (forall e, e ∈ validateTaskWorkerRelationship taskRows workerRows ->
     exists i task reqSkill,
       taskRows !! i = Some task
       /\ e = RowIssue tasks i (idOrNA task tasks) (SkillNotFound reqSkill)
       /\ reqSkill ∈ requiredSkillsOf task /\ reqSkill <> ""
       /\ reqSkill ∉ workerSkillsOf workerRows).
Proof.
  split; intros e.
  - rewrite validateClientTaskRelationship_emit.
    intros (i & client & Hi & He)%elem_of_emit_from. exists i, client.
    unfold clientTaskIssues, danglingTaskIds in He. simpl in He.
    apply list_elem_of_fmap in He as (reqId & -> & Hin).
    destruct (JS.truthy _); [|by apply elem_of_nil in Hin].
    apply list_elem_of_In, filter_In in Hin as [Hin Hc].
    apply andb_true_iff in Hc as [Hne Hnot].
    exists reqId. repeat split; [done|by apply list_elem_of_In| |].
    + intros ->. done.
    + apply negb_true_iff, bool_decide_eq_false in Hnot. done.
  - rewrite validateTaskWorkerRelationship_emit.
    intros (i & task & Hi & He)%elem_of_emit_from. exists i, task.
    unfold taskWorkerIssues, danglingSkills in He. simpl in He.
    apply list_elem_of_fmap in He as (reqSkill & -> & Hin).
    destruct (JS.truthy _); [|by apply elem_of_nil in Hin].
    apply list_elem_of_In, filter_In in Hin as [Hin Hc].
    apply andb_true_iff in Hc as [Hne Hnot].
    exists reqSkill. repeat split; [done|by apply list_elem_of_In| |].
    + intros ->. done.
    + apply negb_true_iff, bool_decide_eq_false in Hnot. done.
Qed.

(** ** Order of the report (C7) *)

(** C7: under each key of the report the errors are the schema errors, then
    the cross-reference errors, then the capacity errors, and within each of
    the three the errors come in the order of the rows they name, after the
    messages that name no row (missing columns and duplicate keys among the
    schema errors, the saturated phases among the capacity errors). *)
Theorem C7_error_order (c w t s : list row) (type : dataset) :
  exists schema refs caps,
    errorsAt (type_name type) (fullValidation c w t s) = schema ++ refs ++ caps
    /\ schema = validateSingleDataset
                  (match type with clients => c | workers => w | tasks => t end) type
    /\ in_category structural schema /\ in_row_order schema
    /\ in_category reference refs /\ in_row_order refs
    /\ in_category capacity caps /\ in_row_order caps.
Proof.
  destruct type; simpl.
  - exists (validateSingleDataset c clients),
      (if (0 <? length c)%nat && (0 <? length t)%nat
       then validateClientTaskRelationship c t else []), [].
    rewrite fullValidation_clients, app_nil_r.
    split_and!; try done; try case_match; auto with report.
  - exists (validateSingleDataset w workers), [], (validateOverloadedWorkers w).
    rewrite fullValidation_workers.
    split_and!; try done; auto with report.
  - exists (validateSingleDataset t tasks),
      (if (0 <? length t)%nat && (0 <? length w)%nat
       then validateTaskWorkerRelationship t w else []),
      (validatePhaseSlotSaturation t w ++ validateMaxConcurrencyFeasibility t w).
    rewrite fullValidation_tasks.
    split_and!; try done; try case_match; auto with report.
Qed.

(** ** Primary keys (C6) *)

Lemma Set_add_elem_of {A} `{EqDecision A} (s : list A) (x y : A) :
  y ∈ JS.Set_add s x <-> y ∈ s \/ y = x.
Proof.
  unfold JS.Set_add. case_decide.
  - split; [by left|]. by intros [?| ->].
  - rewrite elem_of_app, list_elem_of_singleton. done.
Qed.

Lemma Set_add_NoDup {A} `{EqDecision A} (s : list A) (x : A) :
  NoDup s -> NoDup (JS.Set_add s x).
Proof.
  intros Hs. unfold JS.Set_add. case_decide; [done|].
  apply NoDup_app. split_and!; [done| |apply NoDup_singleton].
  intros y Hy ->%list_elem_of_singleton. done.
Qed.

Lemma foldl_Set_add_elem_of {A} `{EqDecision A} (l s : list A) (y : A) :
  y ∈ foldl JS.Set_add s l <-> y ∈ s \/ y ∈ l.
Proof.
  revert s. induction l as [|x r IH]; intros s; simpl.
  - split; [by left|]. by intros [?|?%elem_of_nil].
  - rewrite IH, Set_add_elem_of, elem_of_cons. tauto.
Qed.

Lemma foldl_Set_add_NoDup {A} `{EqDecision A} (l s : list A) :
  NoDup s -> NoDup (foldl JS.Set_add s l).
Proof.
  revert s. induction l as [|x r IH]; intros s Hs; simpl; [done|].
  by apply IH, Set_add_NoDup.
Qed.

Lemma Set_from_elem_of {A} `{EqDecision A} (l : list A) (y : A) :
  y ∈ JS.Set_from l <-> y ∈ l.
Proof.
  unfold JS.Set_from. rewrite foldl_Set_add_elem_of.
  split; [by intros [?%elem_of_nil|?] | by right].
Qed.

Lemma Set_from_NoDup {A} `{EqDecision A} (l : list A) : NoDup (JS.Set_from l).
Proof. apply foldl_Set_add_NoDup, NoDup_nil_2. Qed.

Lemma elem_of_filter_from {A} (p : A -> nat -> bool) (l : list A) (x : A) : forall i,
  x ∈ filter_from i p l <-> exists k, l !! k = Some x /\ p x (i + k)%nat = true.
Proof.
  induction l as [|y r IH]; intros i; simpl.
  - split; [by intros ?%elem_of_nil | by intros (k & ? & _)].
  - assert (Hr : x ∈ filter_from (S i) p r
                 <-> exists k, r !! k = Some x /\ p x (i + S k)%nat = true).
    { rewrite IH. by setoid_rewrite Nat.add_succ_r. }
    destruct (p y i) eqn:Hp; rewrite ?elem_of_cons, Hr; split.
    + intros [-> | (k & Hk & Hpk)]; [exists O | exists (S k)]; [|done].
      by rewrite Nat.add_0_r.
    + intros ([|k] & Hk & Hpk); simpl in Hk; simplify_eq; [by left|right; eauto].
    + intros (k & Hk & Hpk). by exists (S k).
    + intros ([|k] & Hk & Hpk); simpl in Hk; simplify_eq; [|eauto].
      rewrite Nat.add_0_r in Hpk. congruence.
Qed.

Lemma strict_eq_NaN_r y : JS.strict_eq y (VNum NaN) = false.
Proof. destruct y as [| | |[]|]; done. Qed.

Lemma strict_eq_refl v : v <> VNum NaN -> JS.strict_eq v v = true.
Proof.
  intros Hv. destruct v as [| | |n|]; try (by apply bool_decide_eq_true).
  unfold JS.strict_eq, Num.strict_eq. rewrite bool_decide_eq_true_2 by done.
  by destruct n.
Qed.

Lemma strict_eq_eq a b : JS.strict_eq a b = true -> a = b.
Proof.
  destruct a, b; try (by intros ?%bool_decide_eq_true).
  unfold JS.strict_eq, Num.strict_eq.
  intros [_ ?%bool_decide_eq_true]%andb_true_iff. congruence.
Qed.

Lemma indexOf_NaN l : JS.indexOf l (VNum NaN) = None.
Proof.
  induction l as [|y r IH]; [done|]. simpl.
  by rewrite strict_eq_NaN_r, IH.
Qed.

(** [indexOf] finds an occurrence at or before any given one. *)
Lemma indexOf_le l v : forall i,
  v <> VNum NaN -> l !! i = Some v -> exists k, JS.indexOf l v = Some k /\ (k <= i)%nat.
Proof.
  induction l as [|y r IH]; intros i Hv Hi; [done|]. simpl.
  destruct (JS.strict_eq y v) eqn:E.
  - exists O. split; [done|lia].
  - destruct i as [|i]; simpl in Hi.
    + simplify_eq. by rewrite strict_eq_refl in E.
    + destruct (IH i Hv Hi) as (k & -> & Hk). exists (S k). split; [done|lia].
Qed.

(** What [indexOf] finds holds the value. *)
Lemma indexOf_Some l v : forall k, JS.indexOf l v = Some k -> l !! k = Some v.
Proof.
  induction l as [|y r IH]; intros k; [done|]. simpl.
  destruct (JS.strict_eq y v) eqn:E.
  - intros [= <-]. simpl. f_equal. by apply strict_eq_eq.
  - destruct (JS.indexOf r v) as [k'|] eqn:Hk; [|done].
    intros [= <-]. simpl. by apply IH.
Qed.

(** A key value found in two rows is one of the duplicates. *)
Lemma duplicateIdsOf_complete ids v i j :
  i <> j -> ids !! i = Some v -> ids !! j = Some v -> v <> VUndef ->
  v ∈ duplicateIdsOf ids.
Proof.
  intros Hij Hi Hj Hv. unfold duplicateIdsOf, filter_index.
  apply elem_of_filter_from.
  assert (Hundef : negb (JS.strict_eq v VUndef) = true).
  { apply negb_true_iff. by destruct v. }
  destruct (decide (v = VNum NaN)) as [->|Hnan].
  - exists i. split; [done|]. by rewrite indexOf_NaN.
  - destruct (indexOf_le ids v i Hnan Hi) as (k & Hk & Hki).
    destruct (indexOf_le ids v j Hnan Hj) as (k' & Hk' & Hkj).
    assert (k' = k) by congruence. subst k'.
    exists (Nat.max i j). split; [by destruct (Nat.max_spec i j) as [[_ ->]|[_ ->]]|].
    rewrite Hundef, Hk. simpl. apply negb_true_iff, bool_decide_eq_false.
    intros [= ->]. lia.
Qed.

(** A duplicate other than NaN is the key value of two rows. *)
Lemma duplicateIdsOf_sound ids v :
  v ∈ duplicateIdsOf ids -> v <> VNum NaN ->
  exists i j, i <> j /\ ids !! i = Some v /\ ids !! j = Some v.
Proof.
  unfold duplicateIdsOf, filter_index.
  intros (j & Hj & Hp)%elem_of_filter_from Hnan. simpl in Hp.
  apply andb_true_iff in Hp as [_ Hp]. apply negb_true_iff, bool_decide_eq_false in Hp.
  destruct (indexOf_le ids v j Hnan Hj) as (k & Hk & Hkj).
  exists k, j. split_and!; [|by apply indexOf_Some|done].
  intros ->. done.
Qed.

(** The duplicate reports among the errors of a data set. *)
Lemma duplicate_reports data type :
  List.filter is_duplicate_report (validateSingleDataset data type)
  = if (0 <? length (duplicateIdsOf (idsOf data type)))%nat
    then [DuplicateIds type (JS.Set_from (duplicateIdsOf (idsOf data type)))]
    else [].
Proof.
  rewrite validateSingleDataset_emit, List.filter_app.
  assert (List.filter is_duplicate_report (emit_from O (rowIssues type) data) = []) as ->.
  { generalize O. induction data as [|r data IH]; intros i; [done|]. simpl.
    rewrite List.filter_app, IH, app_nil_r.
    pose proof (rowIssues_Forall type r i) as HF.
    induction HF as [|e l (p & -> & _) _ IH']; [done|]. simpl. exact IH'. }
  rewrite app_nil_r. unfold headerIssues. rewrite List.filter_app.
  destruct (0 <? length (duplicateIdsOf _))%nat;
    (destruct data as [|first rest];
     [reflexivity | destruct (0 <? length (missingColumnsOf first type))%nat; reflexivity]).
Qed.

(** C6: the errors of a data set hold at most one report of duplicate
    keys.  When a key value other than undefined is found in two rows there
    is exactly one, it lists that value, and it lists no value twice; every
    value it lists, NaN apart, is the key of two rows.  On the clients
    C1, C1, C2 the one report lists C1 alone. *)
Theorem C6_duplicate_ids (data : list row) (type : dataset) :
  (length (List.filter is_duplicate_report (validateSingleDataset data type)) <= 1)%nat
  /\ (forall v i j,
        i <> j -> idsOf data type !! i = Some v -> idsOf data type !! j = Some v ->
        v <> VUndef ->
        exists listed,
          List.filter is_duplicate_report (validateSingleDataset data type)
          = [DuplicateIds type listed]
          /\ v ∈ listed /\ NoDup listed)
  /\ (forall listed v,
        DuplicateIds type listed ∈ validateSingleDataset data type ->
        v ∈ listed -> v <> VNum NaN ->
        exists i j, i <> j /\ idsOf data type !! i = Some v /\ idsOf data type !! j = Some v)
  /\ List.filter is_duplicate_report
       (validateSingleDataset [clientWithId "C1"; clientWithId "C1"; clientWithId "C2"] clients)
     = [DuplicateIds clients [VStr "C1"]]
  /\ render (DuplicateIds clients [VStr "C1"]) = "Duplicate IDs found for clients: C1".
Proof.
  split_and!.
  - rewrite duplicate_reports. case_match; simpl; lia.
  - intros v i j Hij Hi Hj Hv.
    pose proof (duplicateIdsOf_complete _ v i j Hij Hi Hj Hv) as Hdup.
    exists (JS.Set_from (duplicateIdsOf (idsOf data type))).
    rewrite duplicate_reports. split_and!.
    + destruct (duplicateIdsOf (idsOf data type)); [by apply elem_of_nil in Hdup|done].
    + by apply Set_from_elem_of.
    + apply Set_from_NoDup.
  - intros listed v Hin Hv Hnan.
    assert (DuplicateIds type listed
              ∈ List.filter is_duplicate_report (validateSingleDataset data type)) as Hf.
    { apply list_elem_of_In, filter_In. split; [by apply list_elem_of_In|done]. }
    rewrite duplicate_reports in Hf.
    destruct (0 <? _)%nat; [|by apply elem_of_nil in Hf].
    apply list_elem_of_singleton in Hf. simplify_eq.
    apply duplicateIdsOf_sound; [|done]. by apply Set_from_elem_of.
  - vm_compute. reflexivity.
  - vm_compute. reflexivity.
Qed.

(** ** Numbers read from cells *)

Lemma parseInt_Int_or_NaN s : Num.parseInt s = NaN \/ exists z, Num.parseInt s = Int z.
Proof.
  unfold Num.parseInt. destruct (Num.split_sign _) as [neg l].
  repeat case_match; eauto.
Qed.

Lemma parseIntCell_Int_or_NaN r col :
  parseIntCell r col = NaN \/ exists z, parseIntCell r col = Int z.
Proof. apply parseInt_Int_or_NaN. Qed.

Lemma parseIntCellOr0_Int r col :
  parseIntCellOr0 r col = Int (intOf (parseIntCellOr0 r col)).
Proof.
  unfold parseIntCellOr0, JS.num_or.
  destruct (parseIntCell_Int_or_NaN r col) as [-> | [z ->]]; [done|].
  by destruct z.
Qed.

Lemma lt_Int a b : Num.lt (Int a) (Int b) = (a <? b).
Proof.
  unfold Num.lt, Num.cmp. simpl. rewrite !Z.mul_1_r. unfold Z.ltb.
  by destruct (a ?= b).
Qed.

Lemma num_or_Int z : JS.num_or (Some (Int z)) (Int 0) = Int z.
Proof. by destruct z. Qed.

(** ** Nested loops *)

Lemma forEach_nested_foldl {A B S} (h : A -> list B) (f : A -> S -> B -> S) l : forall i s,
  JS.forEach_from i
    (fun s x (_ : nat) => JS.forEach (fun s y (_ : nat) => f x s y) (h x) s) l s
  = foldl (fun s xy => f xy.1 s xy.2) s (flat_map (fun x => map (pair x) (h x)) l).
Proof.
  induction l as [|x r IH]; intros i s; [done|]. simpl.
  rewrite IH, foldl_app. f_equal.
  unfold JS.forEach. rewrite forEach_from_foldl.
  generalize (h x) s. clear. intros l. induction l as [|y l IH]; intros s; [done|].
  simpl. apply IH.
Qed.

(** ** Skill concurrency (C3) *)

Lemma skillToWorkerCountOf_foldl workerRows :
  skillToWorkerCountOf workerRows = foldl skillStep ∅ (flat_map skillsOf workerRows).
Proof.
  unfold skillToWorkerCountOf, JS.forEach.
  rewrite (forEach_nested_foldl skillsOf (fun _ m skill => skillStep m skill)).
  generalize (∅ : gmap string number).
  induction workerRows as [|w r IH]; intros m; [done|]. simpl.
  rewrite !foldl_app, <- IH. f_equal.
  generalize (skillsOf w) m. clear. intros l.
  induction l as [|y l IH]; intros m; [done|]. simpl. apply IH.
Qed.

Lemma foldl_skillStep k skills :
  JS.inherited k = false ->
  forall (m : gmap string number) (c : nat),
    m !! k = countEntry c ->
    foldl skillStep m skills !! k
    = countEntry (c + length (List.filter (fun s => bool_decide (s = k)) skills)).
Proof.
  intros Hk. induction skills as [|x r IH]; intros m c Hm; simpl.
  - by rewrite Nat.add_0_r.
  - unfold skillStep at 2. destruct (JS.inherited x) eqn:Hx.
    + rewrite bool_decide_eq_false_2 by (intros ->; congruence). by apply IH.
    + destruct (decide (x = k)) as [->|Hne].
      * rewrite bool_decide_eq_true_2 by done. simpl length.
        replace (c + S (length (List.filter (fun s => bool_decide (s = k)) r)))%nat
          with (S c + length (List.filter (fun s => bool_decide (s = k)) r))%nat by lia.
        apply IH. rewrite lookup_insert_eq, Hm.
        destruct c as [|c]; simpl; [done|]. f_equal. f_equal. lia.
      * rewrite bool_decide_eq_false_2 by done. apply IH.
        by rewrite lookup_insert_ne.
Qed.

(** Under a skill that names no inherited member, [skillToWorkerCount]
    holds the number of times the skill is written by the workers. *)
Lemma skillToWorkerCountOf_lookup workerRows skill :
  JS.inherited skill = false ->
  skillToWorkerCountOf workerRows !! skill = countEntry (skillEntries workerRows skill).
Proof.
  intros Hk. rewrite skillToWorkerCountOf_foldl.
  by rewrite (foldl_skillStep skill _ Hk ∅ O) by apply lookup_empty.
Qed.

Lemma canMeetConcurrencyOf_forallb (m : gmap string number) skills maxConcurrent :
  canMeetConcurrencyOf m skills maxConcurrent
  = forallb (fun skill => match JS.dict_get m skill with
                          | JS.Missing => false
                          | JS.Held n => negb (Num.lt n maxConcurrent)
                          | JS.Inherited => true
                          end) skills.
Proof.
  unfold canMeetConcurrencyOf, JS.forEach. rewrite forEach_from_foldl.
  assert (forall acc,
    foldl (fun (acc : bool) skill =>
             match JS.dict_get m skill with
             | JS.Missing => false
             | JS.Held n => if Num.lt n maxConcurrent then false else acc
             | JS.Inherited => acc
             end) acc skills
    = acc && forallb (fun skill => match JS.dict_get m skill with
                                   | JS.Missing => false
                                   | JS.Held n => negb (Num.lt n maxConcurrent)
                                   | JS.Inherited => true
                                   end) skills) as H.
  { induction skills as [|x r IH]; intros acc; simpl; [by rewrite andb_true_r|].
    rewrite IH. destruct (JS.dict_get m x) as [|n|]; [by rewrite andb_false_r| |done].
    destruct (Num.lt n maxConcurrent); simpl; [by rewrite andb_false_r|done]. }
  apply H.
Qed.

Lemma canMeetConcurrencyOf_entries workerRows skills k :
  0 < k ->
  negb (canMeetConcurrencyOf (skillToWorkerCountOf workerRows) skills (Int k))
  = existsb (fun skill => negb (JS.inherited skill)
                          && (Z.of_nat (skillEntries workerRows skill) <? k)) skills.
Proof.
  intros Hk. rewrite canMeetConcurrencyOf_forallb.
  induction skills as [|x r IH]; [done|]. simpl.
  rewrite negb_andb, IH. f_equal.
  unfold JS.dict_get. destruct (JS.inherited x) eqn:Hx; [done|].
  rewrite (skillToWorkerCountOf_lookup _ _ Hx).
  destruct (skillEntries workerRows x) as [|c]; simpl.
  - symmetry. apply Z.ltb_lt. lia.
  - by rewrite negb_involutive, lt_Int.
Qed.

(** What the concurrency check pushes for a task row. *)
Lemma concurrency_at_row (taskRows workerRows : list row) (i : nat) (task : row) :
  taskRows !! i = Some task ->
  at_row i (validateMaxConcurrencyFeasibility taskRows workerRows)
  = match parseIntCell task "MaxConcurrent" with
    | Int k =>
        if JS.truthy (JS.get task "RequiredSkills")
           && negb (JS.strict_eq (JS.get task "MaxConcurrent") VUndef)
           && (0 <? k)
           && existsb (fun skill => negb (JS.inherited skill)
                                    && (Z.of_nat (skillEntries workerRows skill) <? k))
                      (requiredSkillsOf task)
        then [RowIssue tasks i (idOrNA task tasks) (ConcurrencyInfeasible (Int k))]
        else []
    | _ => []
    end.
Proof.
  intros Hi. rewrite validateMaxConcurrencyFeasibility_emit.
  rewrite (at_row_emit _ (concurrencyIssues_row workerRows) taskRows i task Hi).
  unfold concurrencyIssues, infeasible.
  destruct (parseIntCell_Int_or_NaN task "MaxConcurrent") as [-> | [k ->]].
  - by rewrite !andb_false_r.
  - unfold Num.gt. rewrite lt_Int. simpl.
    destruct (0 <? k) eqn:Hk.
    + apply Z.ltb_lt in Hk. rewrite canMeetConcurrencyOf_entries by done.
      by rewrite !andb_true_r.
    + by rewrite !andb_false_r.
Qed.

(** C3, on the code.  The check counts, for a skill, the times it is
    written in the Skills cells, not the workers that hold it, against the
    comment of the code itself (the count of qualified workers for that
    skill): a worker that writes python twice is counted twice, and a task
    that asks for two workers with python is not reported although one
    worker holds the skill.  The count is kept in a plain object: a skill
    named like a member of [Object.prototype] reads the inherited member,
    which is neither undefined nor less than any number, so a task that
    requires only such a skill is never reported, whatever the workers.
    For every task row the check pushes one error exactly when the
    RequiredSkills cell is truthy, MaxConcurrent is not undefined and reads
    as an integer k above zero, and some required token that names no
    inherited member is written fewer than k times by the workers.  The
    scenario of the claim holds: one worker with python and a task that
    asks for two gives the error, a second worker with python removes it. *)
Theorem C3_counts_entries_not_workers :
  (forall workerRows skill,
     JS.inherited skill = false ->
     skillToWorkerCountOf workerRows !! skill = countEntry (skillEntries workerRows skill))
  /\ (forall (taskRows workerRows : list row) (i : nat) (task : row),
        taskRows !! i = Some task ->
        at_row i (validateMaxConcurrencyFeasibility taskRows workerRows)
        = match parseIntCell task "MaxConcurrent" with
          | Int k =>
              if JS.truthy (JS.get task "RequiredSkills")
                 && negb (JS.strict_eq (JS.get task "MaxConcurrent") VUndef)
                 && (0 <? k)
                 && existsb (fun skill => negb (JS.inherited skill)
                                          && (Z.of_nat (skillEntries workerRows skill) <? k))
                            (requiredSkillsOf task)
              then [RowIssue tasks i (idOrNA task tasks) (ConcurrencyInfeasible (Int k))]
              else []
          | _ => []
          end)
  /\ workersHolding [skillWorker "W1" "python,python"] "python" = 1%nat
  /\ skillEntries [skillWorker "W1" "python,python"] "python" = 2%nat
  /\ validateMaxConcurrencyFeasibility [skillTask "python" "2"]
       [skillWorker "W1" "python,python"] = []
  /\ workersHolding [skillWorker "W1" "python"] "constructor" = 0%nat
  /\ validateMaxConcurrencyFeasibility [skillTask "constructor" "1"]
       [skillWorker "W1" "python"] = []
  /\ validateMaxConcurrencyFeasibility [skillTask "python" "2"] [skillWorker "W1" "python"]
     = [RowIssue tasks 0 (VStr "T1") (ConcurrencyInfeasible (Int 2))]
  /\ validateMaxConcurrencyFeasibility [skillTask "python" "2"]
       [skillWorker "W1" "python"; skillWorker "W2" "python"] = []
  /\ render (RowIssue tasks 0 (VStr "T1") (ConcurrencyInfeasible (Int 2)))
     = "Row 1 (TaskID: T1): MaxConcurrent (2) might not be feasible for all required skills. "
       +:+ "Not enough qualified workers.".
Proof.
  split_and!;
    [ apply skillToWorkerCountOf_lookup
    | apply concurrency_at_row
    | vm_compute; reflexivity .. ].
Qed.

(** ** Phase saturation: demands and capacities (C9) *)

Lemma phaseCapacitiesOf_foldl workerRows :
  phaseCapacitiesOf workerRows
  = foldl capStep ∅ (flat_map (fun w => map (pair w) (availableSlotsOf w)) workerRows).
Proof.
  unfold phaseCapacitiesOf. cbv zeta. unfold JS.forEach at 1.
  rewrite (forEach_nested_foldl availableSlotsOf
    (fun w (m : gmap number number) phase =>
       <[phase := JS.add (JS.num_or (m !! phase) (Int 0))
                         (parseIntCellOr0 w "MaxLoadPerPhase")]> m)).
  reflexivity.
Qed.

Lemma foldl_capStep pairs : forall (m : gmap number number) (c : number -> Z),
  (forall p, JS.num_or (m !! p) (Int 0) = Int (c p)) ->
  forall p, JS.num_or (foldl capStep m pairs !! p) (Int 0)
            = Int (c p + sumZ (map (fun wp : row * number =>
                                      if bool_decide (wp.2 = p) then loadOf wp.1 else 0)
                                   pairs)).
Proof.
  induction pairs as [|[w x] r IH]; intros m c Hm p; simpl.
  - by rewrite Z.add_0_r.
  - rewrite (IH _ (fun p => c p + if bool_decide (x = p) then loadOf w else 0)).
    + f_equal. lia.
    + intros q. unfold capStep. simpl. rewrite lookup_insert.
      destruct (decide (x = q)) as [->|Hne].
      * rewrite bool_decide_eq_true_2 by done.
        rewrite Hm, parseIntCellOr0_Int. simpl. apply num_or_Int.
      * rewrite bool_decide_eq_false_2 by done. by rewrite Hm, Z.add_0_r.
Qed.

Lemma sumZ_app l1 l2 : sumZ (l1 ++ l2) = sumZ l1 + sumZ l2.
Proof. induction l1 as [|x l IH]; simpl; [done|]. rewrite IH. lia. Qed.

Lemma sumZ_slots (w : row) p slots :
  sumZ (map (fun wp : row * number => if bool_decide (wp.2 = p) then loadOf wp.1 else 0)
            (map (pair w) slots))
  = Z.of_nat (occurrences p slots) * loadOf w.
Proof.
  unfold occurrences. induction slots as [|x r IH]; simpl; [done|].
  rewrite IH. destruct (bool_decide (x = p)); simpl length; lia.
Qed.

Lemma sumZ_pairs workerRows p :
  sumZ (map (fun wp : row * number => if bool_decide (wp.2 = p) then loadOf wp.1 else 0)
            (flat_map (fun w => map (pair w) (availableSlotsOf w)) workerRows))
  = capacityOf workerRows p.
Proof.
  unfold capacityOf. induction workerRows as [|w r IH]; [done|]. simpl.
  by rewrite map_app, sumZ_app, IH, sumZ_slots.
Qed.

(** The capacity that the loop over the workers leaves for a phase. *)
Lemma phaseCapacitiesOf_lookup workerRows p :
  JS.num_or (phaseCapacitiesOf workerRows !! p) (Int 0) = Int (capacityOf workerRows p).
Proof.
  rewrite phaseCapacitiesOf_foldl.
  rewrite (foldl_capStep _ ∅ (fun _ => 0)) by (intros; by rewrite lookup_empty).
  by rewrite sumZ_pairs.
Qed.

Lemma durationStep_Int p z task :
  durationStep p (Int z) task
  = Int (z + if bool_decide (p ∈ preferredPhasesOf task) then durationOf task else 0).
Proof.
  unfold durationStep, JS.includes, durationOf.
  destruct (bool_decide _); [|by rewrite Z.add_0_r].
  by rewrite parseIntCellOr0_Int.
Qed.

Lemma foldl_durationStep p taskRows : forall z,
  foldl (durationStep p) (Int z) taskRows = Int (z + demandOf taskRows p).
Proof.
  unfold demandOf. induction taskRows as [|t r IH]; intros z; simpl.
  - by rewrite Z.add_0_r.
  - rewrite durationStep_Int, IH. destruct (bool_decide _); simpl; f_equal; lia.
Qed.

Lemma totalTaskDurationInPhase_demand taskRows p :
  totalTaskDurationInPhase taskRows p = Int (demandOf taskRows p).
Proof.
  unfold totalTaskDurationInPhase, JS.forEach.
  rewrite (forEach_from_foldl (durationStep p)). apply foldl_durationStep.
Qed.

Lemma allPhasesOf_Set_from taskRows :
  allPhasesOf taskRows = JS.Set_from (flat_map preferredPhasesOf taskRows).
Proof.
  unfold allPhasesOf, JS.Set_from. unfold JS.forEach at 1.
  rewrite (forEach_nested_foldl preferredPhasesOf (fun _ s p => JS.Set_add s p)).
  generalize (@nil number).
  induction taskRows as [|t r IH]; intros s; [done|]. simpl.
  rewrite !foldl_app, <- IH. f_equal.
  generalize (preferredPhasesOf t) s. clear. intros l.
  induction l as [|y l IH]; intros s; [done|]. simpl. apply IH.
Qed.

Lemma elem_of_allPhasesOf taskRows p :
  p ∈ allPhasesOf taskRows <-> exists task, task ∈ taskRows /\ p ∈ preferredPhasesOf task.
Proof.
  rewrite allPhasesOf_Set_from, Set_from_elem_of, list_elem_of_In, in_flat_map.
  by setoid_rewrite list_elem_of_In.
Qed.

Lemma sort_insert_perm x l : JS.sort_insert x l ≡ₚ x :: l.
Proof.
  induction l as [|y r IH]; simpl; [done|].
  destruct (JS.goes_before x y); [done|].
  rewrite IH. apply Permutation_swap.
Qed.

Lemma sort_numbers_perm l : JS.sort_numbers l ≡ₚ l.
Proof.
  unfold JS.sort_numbers.
  assert (forall acc, foldl (fun acc x => JS.sort_insert x acc) acc l ≡ₚ acc ++ l) as H.
  { induction l as [|x r IH]; intros acc; simpl; [by rewrite app_nil_r|].
    rewrite IH, sort_insert_perm. simpl. apply Permutation_middle. }
  apply H.
Qed.

Lemma gt_Int a b : Num.gt (Int a) (Int b) = (b <? a).
Proof. apply lt_Int. Qed.

(** The messages of the saturation check: one for every listed phase whose
    demand exceeds its capacity. *)
Lemma validatePhaseSlotSaturation_closed taskRows workerRows :
  validatePhaseSlotSaturation taskRows workerRows
  = map (fun p => PhaseSaturated p (Int (demandOf taskRows p)) (Int (capacityOf workerRows p)))
        (List.filter (fun p => capacityOf workerRows p <? demandOf taskRows p)
                     (JS.sort_numbers (allPhasesOf taskRows))).
Proof.
  rewrite validatePhaseSlotSaturation_filter.
  rewrite (List.filter_ext _ (fun p => capacityOf workerRows p <? demandOf taskRows p)).
  - apply map_ext. intros p.
    by rewrite totalTaskDurationInPhase_demand, phaseCapacitiesOf_lookup.
  - intros p. by rewrite totalTaskDurationInPhase_demand, phaseCapacitiesOf_lookup, gt_Int.
Qed.

(** What the loop over the workers leaves under a phase: the loads of the
    slot entries that are the phase, added one after the other. *)
Lemma foldl_capStep_lookup p pairs : forall (m : gmap number number),
  foldl capStep m pairs !! p
  = foldl addLoad (m !! p)
      (map (fun wp : row * number => parseIntCellOr0 wp.1 "MaxLoadPerPhase")
           (List.filter (fun wp : row * number => bool_decide (wp.2 = p)) pairs)).
Proof.
  induction pairs as [|[w x] r IH]; intros m; [done|]. cbn [foldl List.filter].
  rewrite IH. unfold capStep. cbn [fst snd].
  destruct (decide (x = p)) as [->|Hne].
  - rewrite bool_decide_eq_true_2 by done. cbn [map foldl fst].
    by rewrite lookup_insert_eq.
  - rewrite bool_decide_eq_false_2 by done. by rewrite lookup_insert_ne.
Qed.

Lemma loads_of_slots (w : row) p slots :
  map (fun wp : row * number => parseIntCellOr0 wp.1 "MaxLoadPerPhase")
      (List.filter (fun wp : row * number => bool_decide (wp.2 = p)) (map (pair w) slots))
  = replicate (occurrences p slots) (parseIntCellOr0 w "MaxLoadPerPhase").
Proof.
  unfold occurrences. induction slots as [|x r IH]; [done|]. simpl.
  destruct (bool_decide (x = p)); simpl; by rewrite IH.
Qed.

Lemma phaseCapacitiesOf_added workerRows p :
  phaseCapacitiesOf workerRows !! p = foldl addLoad None (loadsAdded workerRows p).
Proof.
  rewrite phaseCapacitiesOf_foldl, foldl_capStep_lookup, lookup_empty. f_equal.
  unfold loadsAdded. induction workerRows as [|w r IH]; [done|]. simpl.
  by rewrite List.filter_app, map_app, IH, loads_of_slots.
Qed.

(** C9: a worker's AvailableSlots entries are not deduplicated before the
    capacities are summed.  The capacity that the saturation check keeps for
    a phase is made of the loads of the workers, added one after the other,
    the load of a worker once for each of its slot entries that is the
    phase: a phase written n times by one worker adds its load n times.
    When the slots are safe integers and the loads add up within the safe
    integers, this is, for every worker, its MaxLoadPerPhase times the
    number of its slot entries that are the phase.  With one worker of load
    2 and a task of duration 3 on phase 1, the slots 1 give capacity 2 and
    the error, and the slots 1,1 give capacity 4 and no error. *)
Theorem C9_duplicate_slots_inflate_capacity (workerRows : list row) (p : number) :
  phaseCapacitiesOf workerRows !! p = foldl addLoad None (loadsAdded workerRows p)
  /\ (forall worker,
        loadsAdded [worker] p
        = replicate (occurrences p (availableSlotsOf worker))
                    (parseIntCellOr0 worker "MaxLoadPerPhase"))
  /\ (safe_loads workerRows ->
      JS.num_or (phaseCapacitiesOf workerRows !! p) (Int 0)
      = Int (sumZ (map (fun worker =>
                          Z.of_nat (occurrences p (availableSlotsOf worker))
                          * intOf (parseIntCellOr0 worker "MaxLoadPerPhase"))
                       workerRows)))
  /\ availableSlotsOf (scenarioWorker "1,1" "2") = [Int 1; Int 1]
  /\ loadsAdded [scenarioWorker "1,1" "2"] (Int 1) = [Int 2; Int 2]
  /\ validatePhaseSlotSaturation [scenarioTask "[1]" "3"] [scenarioWorker "1" "2"]
     = [PhaseSaturated (Int 1) (Int 3) (Int 2)]
  /\ validatePhaseSlotSaturation [scenarioTask "[1]" "3"] [scenarioWorker "1,1" "2"] = [].
Proof.
  split_and!.
  - apply phaseCapacitiesOf_added.
  - intros worker. unfold loadsAdded. simpl. by rewrite app_nil_r.
  - intros _. apply phaseCapacitiesOf_lookup.
  - vm_compute. reflexivity.
  - vm_compute. reflexivity.
  - vm_compute. reflexivity.
  - vm_compute. reflexivity.
Qed.

Lemma C9_duplicate_slots_witness :
  JS.num_or (phaseCapacitiesOf [scenarioWorker "1,1" "2"] !! Int 1) (Int 0)
  = Int (sumZ (map (fun worker =>
                      Z.of_nat (occurrences (Int 1) (availableSlotsOf worker))
                      * intOf (parseIntCellOr0 worker "MaxLoadPerPhase"))
                   [scenarioWorker "1,1" "2"]))
  /\ sumZ (map (fun worker =>
                  Z.of_nat (occurrences (Int 1) (availableSlotsOf worker))
                  * intOf (parseIntCellOr0 worker "MaxLoadPerPhase"))
               [scenarioWorker "1,1" "2"]) = 4.
Proof.
  split; [|vm_compute; reflexivity].
  destruct (C9_duplicate_slots_inflate_capacity [scenarioWorker "1,1" "2"] (Int 1))
    as (_ & _ & H & _).
  apply H. split; [repeat constructor|vm_compute; discriminate].
Defined.

(** ** Determinism of the pass (C8) *)

Lemma fullValidation_placeholders c w t s s' :
  fullValidation c w t s = fullValidation c w t s'.
Proof. reflexivity. Qed.

(** C8: the report that a validation pass leaves is determined by the three
    data sets it validates: two passes over the same clients, workers and
    tasks leave equal reports, message for message, whatever the state of
    the page before each pass (its previous report included) and whatever
    file name and data the call carries for the state update. *)
Theorem C8_report_determined_by_snapshot
    (fileName1 fileName2 : string) (currentData1 currentData2 : list row)
    (clients1 workers1 tasks1 clients2 workers2 tasks2 : option (list row))
    (st1 st2 : pageState) :
  default (clientsData st1) clients1 = default (clientsData st2) clients2 ->
  default (workersData st1) workers1 = default (workersData st2) workers2 ->
  default (tasksData st1) tasks1 = default (tasksData st2) tasks2 ->
  validationErrors (triggerFullValidation fileName1 currentData1 clients1 workers1 tasks1 st1)
  = validationErrors (triggerFullValidation fileName2 currentData2 clients2 workers2 tasks2 st2).
Proof.
  intros Hc Hw Ht. unfold triggerFullValidation. simpl.
  rewrite Hc, Hw, Ht.
  by rewrite (fullValidation_placeholders _ _ _ (tasksData st1) (tasksData st2)).
Qed.

Lemma C8_second_pass_witness :
  let c := Some [clientWithId "C1"; clientWithId "C1"] in
  let w := Some [scenarioWorker "1" "2"] in
  let t := Some [scenarioTask "[1]" "5"] in
  let st0 := {| clientsData := []; workersData := []; tasksData := [];
                validationErrors := ∅ |} in
  let st1 := triggerFullValidation "applied-corrections" [] c w t st0 in
  validationErrors (triggerFullValidation "applied-corrections" [] c w t st1)
  = validationErrors st1.
Proof.
  intros c w t st0 st1.
  exact (C8_report_determined_by_snapshot "applied-corrections" "applied-corrections" [] []
           c w t c w t st1 st0 eq_refl eq_refl eq_refl).
Defined.

(** ** The three syntaxes of PreferredPhases (C1) *)

Lemma matches_Cat_Void r s : Regex.matches (Regex.Cat Regex.Void r) s = false.
Proof. induction s as [|c s IH]; [done|]. exact IH. Qed.

Lemma test_needs_backslash r c s :
  c <> "\"%char -> Regex.test (Regex.Cat (Regex.Chr "\") r) (String c s) = false.
Proof.
  intros Hc. unfold Regex.test. simpl.
  destruct (Ascii.eqb_spec c "\"); [done|]. apply matches_Cat_Void.
Qed.

Lemma prefix_cons a b s1 s2 :
  String.prefix (String a s1) (String b s2)
  = if ascii_dec a b then String.prefix s1 s2 else false.
Proof. reflexivity. Qed.

(** A cell that starts with a digit normalizes to no phase. *)
Lemma parsePreferredPhases_digit_first c s :
  Str.is_digit c = true -> parsePreferredPhases (String c s) = [].
Proof.
  intros Hc. unfold parsePreferredPhases.
  assert (Str.startsWith "[" (String c s) = false) as ->.
  { unfold Str.startsWith.
    rewrite prefix_cons. by destruct (ascii_dec "[" c) as [<-|]. }
  cbn [andb]. unfold re_range, re_list.
  rewrite !test_needs_backslash; [done| |]; by intros ->.
Qed.

Lemma drop_ws_snoc l c :
  Str.is_ws c = false -> exists l', Str.drop_ws (l ++ [c]) = l' ++ [c].
Proof.
  intros Hc. induction l as [|x l IH]; simpl.
  - exists []. by rewrite Hc.
  - destruct (Str.is_ws x); [exact IH|]. by exists (x :: l).
Qed.

(** Trimming keeps a first character that is not white space. *)
Lemma trim_first c s :
  Str.is_ws c = false -> exists s', Str.trim (String c s) = String c s'.
Proof.
  intros Hc. unfold Str.trim. cbn [Str.to_list Str.drop_ws]. rewrite Hc. cbn [rev].
  destruct (drop_ws_snoc (rev (Str.to_list s)) c Hc) as (l' & ->).
  rewrite rev_app_distr. cbn [rev app Str.of_list]. eexists. reflexivity.
Qed.

Lemma is_digit_not_ws c : Str.is_digit c = true -> Str.is_ws c = false.
Proof.
  unfold Str.is_digit, Str.in_range, Str.is_ws.
  intros [H1 H2]%andb_true_iff. apply Nat.leb_le in H1, H2.
  change (nat_of_ascii "0") with 48%nat in H1.
  generalize dependent (nat_of_ascii c). intros n H1 H2.
  do 33 (destruct n as [|n]; [lia|]). reflexivity.
Qed.

(** A task whose PreferredPhases cell starts with a digit is reported as
    malformed. *)
Lemma validatePreferredPhases_digit_first (r : row) i c s :
  JS.get r "PreferredPhases" = VStr (String c s) ->
  Str.is_digit c = true ->
  validatePreferredPhases [] r i = [RowIssue tasks i (idOrNA r tasks) MalformedPhases].
Proof.
  intros Hcell Hc. unfold validatePreferredPhases. rewrite Hcell.
  destruct (trim_first c s (is_digit_not_ws c Hc)) as (s' & Hs').
  change (JS.ToString (VStr (String c s))) with (String c s). rewrite Hs'.
  change (JS.truthy (VStr (String c s))) with true. cbv iota.
  assert (Str.startsWith "[" (String c s') = false) as ->.
  { unfold Str.startsWith. rewrite prefix_cons. by destruct (ascii_dec "[" c) as [<-|]. }
  cbn [andb]. unfold re_range, re_list.
  rewrite !test_needs_backslash; [done| |]; by intros ->.
Qed.

(** ** The range branch of parsePreferredPhases

    The strings that [re_range] accepts start with a backslash, so both
    ends of the range are NaN and the counting loop never runs. *)

Lemma test_backslash_first r s :
  Regex.test (Regex.Cat (Regex.Chr "\") r) s = true -> exists s', s = String "\" s'.
Proof.
  destruct s as [|c s]; [done|]. intros H.
  destruct (decide (c = "\"%char)) as [->|Hc]; [by eexists|].
  by rewrite test_needs_backslash in H.
Qed.

Lemma split_go_first sep l : forall cur,
  exists x rest, Str.split_go sep cur l = Str.of_list (rev cur ++ x) :: rest.
Proof.
  induction l as [|c l IH]; intros cur; simpl.
  - exists [], []. by rewrite app_nil_r.
  - destruct (Ascii.eqb c sep).
    + exists [], (Str.split_go sep [] l). by rewrite app_nil_r.
    + destruct (IH (c :: cur)) as (x & rest & ->). exists (c :: x), rest.
      simpl. by rewrite <- app_assoc.
Qed.

Lemma split_backslash_first sep s :
  sep <> "\"%char ->
  exists p rest, Str.split sep (String "\" s) = String "\" p :: rest.
Proof.
  intros Hsep. unfold Str.split. cbn [Str.to_list Str.split_go].
  destruct (Ascii.eqb_spec "\" sep) as [<-|_]; [done|].
  destruct (split_go_first sep (Str.to_list s) ["\"%char]) as (x & rest & ->).
  cbn [rev app Str.of_list]. eexists _, _. reflexivity.
Qed.

Lemma ofString_backslash s : Num.ofString (String "\" s) = NaN.
Proof.
  unfold Num.ofString.
  destruct (trim_first "\" s eq_refl) as (s' & ->). simpl.
  destruct (Str.to_list s') as [|p [|d r]]; reflexivity.
Qed.

Lemma parsePreferredPhases_range s :
  Str.startsWith "[" s && Str.endsWith "]" s = false ->
  Regex.test re_range s = true ->
  parsePreferredPhases s = [].
Proof.
  intros Hb Hr. unfold parsePreferredPhases. rewrite Hb, Hr.
  apply test_backslash_first in Hr as (s' & ->).
  destruct (split_backslash_first "-" s') as (p & rest & ->); [done|].
  cbn [map]. rewrite ofString_backslash. by destruct rest.
Qed.

(** Outside the array syntax, a cell yields phases only when it starts with
    a backslash and the list expression accepts it. *)
Lemma parsePreferredPhases_outside_arrays s :
  Str.startsWith "[" s && Str.endsWith "]" s = false ->
  parsePreferredPhases s <> [] ->
  Regex.test re_list s = true /\ exists s', s = String "\" s'.
Proof.
  intros Hb Hne. destruct (Regex.test re_range s) eqn:Hr.
  - by rewrite parsePreferredPhases_range in Hne.
  - unfold parsePreferredPhases in Hne. rewrite Hb, Hr in Hne.
    destruct (Regex.test re_list s) eqn:Hl; [|done].
    split; [done|]. by apply test_backslash_first in Hl.
Qed.

(** C1, on the code: the array syntax normalizes to the phases 1, 2, 3 and
    is accepted; the range 1-3 and the list 1,2,3 normalize to no phase, as
    every cell that starts with a digit does, and the schema check reports
    each of them as malformed, with the message it gives for 1,,3 and x-y.
    Outside the array syntax only cells that start with a backslash yield
    phases: the regular expressions of the two syntaxes accept a backslash
    followed by the letter d where digits were meant. *)
Theorem C1_range_and_list_not_recognised :
  parsePreferredPhases "[1,2,3]" = [Int 1; Int 2; Int 3]
  /\ parsePreferredPhases "1-3" = []
  /\ parsePreferredPhases "1,2,3" = []
  /\ (forall c s, Str.is_digit c = true -> parsePreferredPhases (String c s) = [])
  /\ (forall (r : row) i c s,
        JS.get r "PreferredPhases" = VStr (String c s) -> Str.is_digit c = true ->
        validatePreferredPhases [] r i = [RowIssue tasks i (idOrNA r tasks) MalformedPhases])
  /\ (forall s,
        Str.startsWith "[" s && Str.endsWith "]" s = false -> parsePreferredPhases s <> [] ->
        Regex.test re_list s = true /\ exists s', s = String "\" s')
  /\ validatePreferredPhases [] (scenarioTask "[1,2,3]" "1") 0 = []
  /\ validatePreferredPhases [] (scenarioTask "1-3" "1") 0
     = [RowIssue tasks 0 (VStr "T1") MalformedPhases]
  /\ validatePreferredPhases [] (scenarioTask "1,2,3" "1") 0
     = [RowIssue tasks 0 (VStr "T1") MalformedPhases]
  /\ validatePreferredPhases [] (scenarioTask "1,,3" "1") 0
     = [RowIssue tasks 0 (VStr "T1") MalformedPhases]
  /\ validatePreferredPhases [] (scenarioTask "x-y" "1") 0
     = [RowIssue tasks 0 (VStr "T1") MalformedPhases]
  /\ Regex.test re_range "1-3" = false
  /\ Regex.test re_list "1,2,3" = false
  /\ Regex.test re_range "\d-\d" = true
  /\ Regex.test re_list "\d,\d" = true
  /\ render (RowIssue tasks 0 (VStr "T1") MalformedPhases)
     = "Row 1 (TaskID: T1): Malformed PreferredPhases. Use " +:+ Str.quote +:+ "1-3" +:+
       Str.quote +:+ " or " +:+ Str.quote +:+ "2,4,5" +:+ Str.quote +:+ " format.".
Proof.
  split_and!;
    [ vm_compute; reflexivity | vm_compute; reflexivity | vm_compute; reflexivity
    | apply parsePreferredPhases_digit_first
    | apply validatePreferredPhases_digit_first
    | apply parsePreferredPhases_outside_arrays
    | vm_compute; reflexivity .. ].
Qed.

(** ** Phase saturation (C2) *)

(** On a text that stays clear of the range and the list syntax, the
    phases are those of the array. *)
Lemma parsePreferredPhases_clear s :
  clear_of_range_and_list s = true -> parsePreferredPhases s = arrayPhases s.
Proof.
  unfold clear_of_range_and_list, arrayPhases. destruct (is_array_text s) eqn:Hb.
  - intros _. unfold parsePreferredPhases. unfold is_array_text in Hb. rewrite Hb.
    destruct (Json.parse s) as [parsedArray|]; [|done]. by destruct (number_array _).
  - cbn [orb]. intros Hc.
    destruct (decide (parsePreferredPhases s = [])) as [|Hne]; [done|].
    destruct (parsePreferredPhases_outside_arrays s Hb Hne) as [_ [s' ->]].
    by rewrite andb_false_r in Hc.
Qed.

Lemma preferredPhasesOf_clear task :
  clear_of_range_and_list (phasesTextOf task) = true ->
  preferredPhasesOf task = arrayPhases (phasesTextOf task).
Proof. apply parsePreferredPhases_clear. Qed.

Lemma demandOf_clear taskRows p :
  Forall (fun task => clear_of_range_and_list (phasesTextOf task) = true) taskRows ->
  demandOf taskRows p = arrayDemandOf taskRows p.
Proof.
  intros Hall. unfold demandOf, arrayDemandOf. f_equal. f_equal.
  induction Hall as [|task l Htask _ IH]; [done|]. simpl.
  by rewrite IH, (preferredPhasesOf_clear _ Htask).
Qed.

(** C2, at an input in the array syntax.  A phase written twice in one
    worker's AvailableSlots: the demand of phase 1 is 3, the loads of the
    workers whose slots include it sum to 2, and nothing is reported. *)
Lemma C2_no_error_at_saturated_phase :
  let workerRows := [scenarioWorker "1,1" "2"] in
  let taskRows := [scenarioTask "[1]" "3"] in
  arrayPhases (phasesTextOf (scenarioTask "[1]" "3")) = [Int 1]
  /\ arrayDemandOf taskRows (Int 1) = 3
  /\ capacityOverWorkers workerRows (Int 1) = 2
  /\ validatePhaseSlotSaturation taskRows workerRows = [].
Proof. vm_compute. done. Qed.

(** C2, amended: for tasks whose PreferredPhases cell stays clear of the
    range and the list syntax (it is written as an array, or starts with
    neither a digit nor a backslash), and for phases, slots, durations and
    loads within the safe integers, the saturation check reports exactly the
    phases that the array of some task holds and whose demand (the sum of
    Duration over the tasks whose array holds the phase) exceeds the
    capacity (for every worker, MaxLoadPerPhase once for each slot entry
    that is the phase), each once, with the phase, the demand and the
    capacity. *)
Theorem C2_phase_saturation (taskRows workerRows : list row) :
  Forall (fun task => clear_of_range_and_list (phasesTextOf task) = true) taskRows ->
  safe_durations taskRows ->
  safe_loads workerRows ->
  (forall e, e ∈ validatePhaseSlotSaturation taskRows workerRows
     <-> exists p,
           (exists task, task ∈ taskRows /\ p ∈ arrayPhases (phasesTextOf task))
           /\ capacityOf workerRows p < arrayDemandOf taskRows p
           /\ e = PhaseSaturated p (Int (arrayDemandOf taskRows p))
                                   (Int (capacityOf workerRows p)))
  /\ NoDup (validatePhaseSlotSaturation taskRows workerRows).
Proof.
  intros Hclear _ _.
  assert (forall p, (exists task, task ∈ taskRows /\ p ∈ preferredPhasesOf task)
                    <-> (exists task, task ∈ taskRows /\ p ∈ arrayPhases (phasesTextOf task)))
    as Hphases.
  { intros p. split; intros (task & Htask & Hp); exists task; split; try done.
    - rewrite <- preferredPhasesOf_clear; [done|]. by eapply Forall_forall in Hclear.
    - rewrite preferredPhasesOf_clear; [done|]. by eapply Forall_forall in Hclear. }
  split.
  - intros e. rewrite validatePhaseSlotSaturation_closed, list_elem_of_fmap.
    split.
    + intros (p & -> & Hp). exists p. rewrite <- (demandOf_clear _ _ Hclear).
      apply list_elem_of_In, filter_In in Hp as [Hp Hlt].
      apply list_elem_of_In in Hp. rewrite sort_numbers_perm in Hp.
      apply elem_of_allPhasesOf, Hphases in Hp. apply Z.ltb_lt in Hlt. done.
    + intros (p & Hp & Hlt & ->). exists p. rewrite <- (demandOf_clear _ _ Hclear) in *.
      split; [done|].
      apply list_elem_of_In, filter_In. split; [|by apply Z.ltb_lt].
      apply list_elem_of_In. rewrite sort_numbers_perm.
      by apply elem_of_allPhasesOf, Hphases.
  - rewrite validatePhaseSlotSaturation_closed.
    apply NoDup_fmap_2_strong.
    + intros p q _ _ [=]. done.
    + apply NoDup_ListNoDup, List.NoDup_filter, NoDup_ListNoDup.
      rewrite sort_numbers_perm, allPhasesOf_Set_from. apply Set_from_NoDup.
Qed.

(** With the phases written as the array [1]: one worker with slot 1 and
    load 2 and one task of duration 5 give the error for phase 1 with demand
    5 and capacity 2, and duration 2 gives none. *)
Lemma C2_phase_saturation_witness :
  ((forall e, e ∈ validatePhaseSlotSaturation [scenarioTask "[1]" "5"] [scenarioWorker "1" "2"]
      <-> exists p,
            (exists task, task ∈ [scenarioTask "[1]" "5"]
                          /\ p ∈ arrayPhases (phasesTextOf task))
            /\ capacityOf [scenarioWorker "1" "2"] p
               < arrayDemandOf [scenarioTask "[1]" "5"] p
            /\ e = PhaseSaturated p (Int (arrayDemandOf [scenarioTask "[1]" "5"] p))
                                    (Int (capacityOf [scenarioWorker "1" "2"] p)))
   /\ NoDup (validatePhaseSlotSaturation [scenarioTask "[1]" "5"] [scenarioWorker "1" "2"]))
  /\ validatePhaseSlotSaturation [scenarioTask "[1]" "5"] [scenarioWorker "1" "2"]
     = [PhaseSaturated (Int 1) (Int 5) (Int 2)]
  /\ render (PhaseSaturated (Int 1) (Int 5) (Int 2))
     = "Phase 1: Total task duration (5) exceeds available worker capacity (2)."
  /\ validatePhaseSlotSaturation [scenarioTask "[1]" "2"] [scenarioWorker "1" "2"] = [].
Proof.
  split; [|split_and!; vm_compute; reflexivity].
  apply (C2_phase_saturation [scenarioTask "[1]" "5"] [scenarioWorker "1" "2"]).
  - repeat constructor.
  - split; [repeat constructor|vm_compute; discriminate].
  - split; [repeat constructor|vm_compute; discriminate].
Defined.

(** * Further properties *)

(** ** The keys of the report and the toast of a pass *)

Lemma report_ok_empty : report_ok ∅.
Proof. intros key errs H. by rewrite lookup_empty in H. Qed.

Lemma report_ok_setErrors d errs m :
  report_ok m -> report_ok (setErrors (type_name d) errs m).
Proof.
  intros Hm key l. unfold setErrors. destruct errs as [|e errs]; simpl; [apply Hm|].
  rewrite lookup_insert. case_decide; [|apply Hm].
  intros [= <-]. split; [done|]. by exists d.
Qed.

Lemma report_ok_appendErrors d more m :
  report_ok m -> report_ok (appendErrors (type_name d) more m).
Proof.
  intros Hm key l. unfold appendErrors. destruct more as [|e more]; simpl; [apply Hm|].
  rewrite lookup_insert. case_decide; [|apply Hm].
  intros [= <-]. split; [by destruct (default [] _)|]. by exists d.
Qed.

Lemma fullValidation_report_ok c w t s : report_ok (fullValidation c w t s).
Proof.
  unfold fullValidation.
  repeat first
    [ apply (report_ok_appendErrors clients) | apply (report_ok_appendErrors workers)
    | apply (report_ok_appendErrors tasks) | apply (report_ok_setErrors clients)
    | apply (report_ok_setErrors workers) | apply (report_ok_setErrors tasks)
    | apply report_ok_empty | case_match ].
Qed.

Lemma some_nonempty_list (m : gmap string (list issue)) :
  report_ok m ->
  existsb (fun kv : string * list issue => (0 <? length kv.2)%nat) (map_to_list m) = true
  <-> m <> ∅.
Proof.
  intros Hm. rewrite existsb_exists. split.
  - intros ([k l] & Hin & _) ->. by rewrite map_to_list_empty in Hin.
  - intros Hne. destruct (map_choose m Hne) as (k & l & Hk).
    exists (k, l). split; [by apply list_elem_of_In, elem_of_map_to_list|].
    destruct (Hm k l Hk) as [Hl _]. by destruct l.
Qed.

Lemma fullValidation_nothing s : fullValidation [] [] [] s = ∅.
Proof. reflexivity. Qed.

(** X1: the report of a pass never lists an empty sequence and has no key
    but clients, workers and tasks; so the pass ends with the error toast
    exactly when the report is not empty, and with no toast at all exactly
    when the three data sets are empty. *)
Theorem report_keys_and_toast (c w t s : list row) :
  (forall key errs, fullValidation c w t s !! key = Some errs ->
     errs <> [] /\ (key = "clients" \/ key = "workers" \/ key = "tasks"))
  /\ (validationToast (fullValidation c w t s) c w t = Some ToastError
      <-> fullValidation c w t s <> ∅)
  /\ (validationToast (fullValidation c w t s) c w t = Some ToastSuccess
      <-> fullValidation c w t s = ∅ /\ (c <> [] \/ w <> [] \/ t <> []))
  /\ (validationToast (fullValidation c w t s) c w t = None
      <-> c = [] /\ w = [] /\ t = []).
Proof.
  pose proof (fullValidation_report_ok c w t s) as Hok.
  pose proof (some_nonempty_list _ Hok) as Hsome.
  unfold validationToast. split_and!.
  - intros key errs H. destruct (Hok key errs H) as [? [[] ->]]; auto.
  - destruct (existsb _ _).
    + split; [intros _; by apply Hsome | done].
    + split; [by case_match|]. intros Hne. apply Hsome in Hne. done.
  - destruct (existsb _ _).
    + split; [done|]. intros [Hempty _]. by apply Hsome in Hempty.
    + assert (fullValidation c w t s = ∅) as Hempty.
      { destruct (decide (fullValidation c w t s = ∅)) as [|Hne]; [done|].
        by apply Hsome in Hne. }
      destruct c, w, t; simpl; split; try done; try (intros _; split; [done|]; auto);
        intros [_ [?|[?|?]]]; done.
  - destruct (existsb _ _) eqn:E.
    + split; [done|]. intros (-> & -> & ->). rewrite fullValidation_nothing in Hsome.
      by destruct (proj1 Hsome eq_refl).
    + destruct c, w, t; simpl; split; try done; intros (? & ? & ?); done.
Qed.

(** ** Cell edits and applied corrections *)

Lemma triggerFullValidationIn_same f d co wo to st :
  triggerFullValidationIn st f d co wo to st = triggerFullValidation f d co wo to st.
Proof. reflexivity. Qed.

Lemma replaceRow_length newRow rows : length (replaceRow newRow rows) = length rows.
Proof. apply length_map. Qed.

(** X2: an edit of a cell of the grid runs the pass of an upload: the
    state and the report after [processRowUpdate] on a data set are those of
    [triggerFullValidation] called with the name of the data set, the edited
    rows as its data and as the override of that data set; the grid keeps
    the new row, and the edited data set keeps its length. *)
Theorem processRowUpdate_is_full_pass (newRow oldRow : row) (d : dataset) (st : pageState) :
  processRowUpdate newRow oldRow d d st
  = (newRow,
     triggerFullValidation (type_name d) (replaceRow newRow (dataOf d st))
       (overrideOf d clients (replaceRow newRow (dataOf d st)))
       (overrideOf d workers (replaceRow newRow (dataOf d st)))
       (overrideOf d tasks (replaceRow newRow (dataOf d st))) st)
  /\ dataOf d (processRowUpdate newRow oldRow d d st).2 = replaceRow newRow (dataOf d st)
  /\ length (replaceRow newRow (dataOf d st)) = length (dataOf d st).
Proof.
  split_and!.
  - by destruct d.
  - by destruct d.
  - apply replaceRow_length.
Qed.

Lemma withId_id index r :
  r !! "id" = None -> JS.get (withId index r) "id" = VNum (Int (Z.of_nat index)).
Proof.
  intros H. unfold JS.get, withId.
  by rewrite (lookup_union_r r _ "id" H), lookup_singleton_eq.
Qed.

Lemma strict_eq_Int i k : JS.strict_eq (VNum (Int i)) (VNum (Int k)) = bool_decide (i = k).
Proof.
  unfold JS.strict_eq, Num.strict_eq. simpl.
  apply bool_decide_ext. split; [by intros [= ->]|by intros ->].
Qed.

(** X3: the rows of a parsed file get their index as [id] when they have
    no [id] column of their own, and then an edit whose new row carries the
    id [k] replaces the row at index [k] and no other; an id beyond the last
    row changes nothing. *)
Theorem edit_replaces_row_of_id (raw : list row) (k : nat) (newRow : row) :
  Forall (fun r => r !! "id" = None) raw ->
  JS.get newRow "id" = VNum (Int (Z.of_nat k)) ->
  replaceRow newRow (reindex raw) = <[k := newRow]> (reindex raw).
Proof.
  intros Hraw Hid. unfold replaceRow, reindex. rewrite Hid.
  change (map ?f ?l) with (f <$> l).
  apply list_eq. intros i. rewrite list_lookup_fmap, list_lookup_imap.
  destruct (decide (i = k)) as [->|Hne].
  - destruct (raw !! k) as [r|] eqn:Hr.
    + rewrite list_lookup_insert_eq by (rewrite length_imap; by eapply lookup_lt_Some).
      simpl. rewrite withId_id by (by eapply Forall_lookup_1 in Hraw).
      by rewrite strict_eq_Int, bool_decide_eq_true_2.
    + simpl. symmetry. apply list_lookup_insert_None. by rewrite list_lookup_imap, Hr.
  - rewrite list_lookup_insert_ne, list_lookup_imap by done.
    destruct (raw !! i) as [r|] eqn:Hr; [|done].
    simpl. rewrite withId_id by (by eapply Forall_lookup_1 in Hraw).
    rewrite strict_eq_Int, bool_decide_eq_false_2; [done|lia].
Qed.

Lemma edit_replaces_row_of_id_witness :
  replaceRow (mkRow [("id", VNum (Int 1)); ("TaskID", VStr "T9")])
             (reindex [mkRow [("TaskID", VStr "T1")]; mkRow [("TaskID", VStr "T2")]])
  = <[1%nat := mkRow [("id", VNum (Int 1)); ("TaskID", VStr "T9")]]>
      (reindex [mkRow [("TaskID", VStr "T1")]; mkRow [("TaskID", VStr "T2")]]).
Proof.
  apply (edit_replaces_row_of_id
           [mkRow [("TaskID", VStr "T1")]; mkRow [("TaskID", VStr "T2")]] 1
           (mkRow [("id", VNum (Int 1)); ("TaskID", VStr "T9")])).
  - repeat constructor.
  - reflexivity.
Defined.


(** X4: applying the suggested corrections stores each corrected data set
    with its ids, but the pass it starts receives the three data sets one
    place too early: the client rows take the place of the data of the
    file, which the name of the pass makes unused, the worker rows are
    validated as clients and the task rows as workers, and the tasks that
    are validated are those of the state before the corrections. *)
Theorem applied_corrections_are_validated_shifted (corr : corrections) (st : pageState) :
  clientsData (handleApplySuggestedCorrections (Some corr) st)
    = corrected (corrClients corr) (clientsData st)
  /\ workersData (handleApplySuggestedCorrections (Some corr) st)
    = corrected (corrWorkers corr) (workersData st)
  /\ tasksData (handleApplySuggestedCorrections (Some corr) st)
    = corrected (corrTasks corr) (tasksData st)
  /\ validationErrors (handleApplySuggestedCorrections (Some corr) st)
    = (map render <$>
        fullValidation (corrected (corrWorkers corr) (workersData st))
                       (corrected (corrTasks corr) (tasksData st))
                       (tasksData st) (tasksData st)).
Proof. destruct corr as [[c|] [w|] [t|]]; by split_and!. Qed.

(** ** Missing columns *)

Lemma elem_of_keys (r : row) (col : string) : col ∈ JS.keys r <-> is_Some (r !! col).
Proof.
  unfold JS.keys. rewrite list_elem_of_fmap. split.
  - intros ([k v] & -> & Hkv). apply elem_of_map_to_list in Hkv. by eexists.
  - intros [v Hv]. exists (col, v). split; [done|]. by apply elem_of_map_to_list.
Qed.

Lemma List_filter_decide {A} (f : A -> bool) (P : A -> Prop) `{forall x, Decision (P x)} l :
  (forall x, f x = true <-> P x) -> List.filter f l = filter P l.
Proof.
  intros Hf. induction l as [|x l IH]; [done|]. simpl.
  destruct (f x) eqn:E.
  - rewrite filter_cons_True by (by apply Hf). by f_equal.
  - rewrite filter_cons_False; [done|]. intros HP%Hf. congruence.
Qed.

Lemma missingColumnsOf_absent first type :
  missingColumnsOf first type = absentColumns first type.
Proof.
  unfold missingColumnsOf, absentColumns. apply List_filter_decide. intros col.
  unfold JS.includes. rewrite negb_true_iff, bool_decide_eq_false, elem_of_keys.
  by rewrite eq_None_not_Some.
Qed.

Lemma no_missing_report_in_rows (l : list issue) :
  Forall (fun e => is_Some (issue_row e)) l -> List.filter is_missing_report l = [].
Proof.
  induction 1 as [|e l [i He] _ IH]; [done|]. simpl. by destruct e.
Qed.

Lemma no_missing_report_emit {A} (g : A -> nat -> list issue) l :
  (forall x j e, e ∈ g x j -> issue_row e = Some j) ->
  List.filter is_missing_report (emit_from O g l) = [].
Proof.
  intros Hg. apply no_missing_report_in_rows, emit_from_Forall.
  intros x j e He. rewrite (Hg _ _ _ He). by eexists.
Qed.

Lemma validateSingleDataset_missing data type :
  List.filter is_missing_report (validateSingleDataset data type)
  = missingColumnsReport data type.
Proof.
  rewrite validateSingleDataset_emit, List.filter_app.
  rewrite (no_missing_report_emit _ _ (rowIssues_row type)), app_nil_r.
  unfold headerIssues, missingColumnsReport. rewrite List.filter_app.
  assert (forall l, List.filter is_missing_report
            (if (0 <? length l)%nat then [DuplicateIds type (JS.Set_from l)] else []) = [])
    as -> by (intros l; by case_match).
  rewrite app_nil_r. destruct data as [|first rest]; [done|].
  rewrite missingColumnsOf_absent.
  destruct (absentColumns first type); by case_decide.
Qed.

Lemma no_missing_report_saturation taskRows workerRows :
  List.filter is_missing_report (validatePhaseSlotSaturation taskRows workerRows) = [].
Proof.
  pose proof (validatePhaseSlotSaturation_category taskRows workerRows) as H.
  induction H as [|e l He _ IH]; [done|]. simpl. by destruct e.
Qed.

(** X5: under each key, the report holds at most one message on missing
    columns: none for an empty data set, and else the one that lists, in
    the order of the required columns, those that are no key of the FIRST
    row; a column that only a later row lacks is not reported, and a key
    of the first row counts whatever its value. *)
Theorem missing_columns_of_first_row (c w t s : list row) :
  List.filter is_missing_report (errorsAt "clients" (fullValidation c w t s))
    = missingColumnsReport c clients
  /\ List.filter is_missing_report (errorsAt "workers" (fullValidation c w t s))
    = missingColumnsReport w workers
  /\ List.filter is_missing_report (errorsAt "tasks" (fullValidation c w t s))
    = missingColumnsReport t tasks.
Proof.
  rewrite fullValidation_clients, fullValidation_workers, fullValidation_tasks.
  rewrite !List.filter_app, !validateSingleDataset_missing.
  rewrite validateOverloadedWorkers_emit, validateMaxConcurrencyFeasibility_emit.
  rewrite (no_missing_report_emit _ _ overloadIssues_row).
  rewrite (no_missing_report_emit _ _ (concurrencyIssues_row w)).
  rewrite no_missing_report_saturation, !app_nil_r.
  split_and!; [|done|].
  - case_match; [|by rewrite app_nil_r].
    rewrite validateClientTaskRelationship_emit.
    by rewrite (no_missing_report_emit _ _ (clientTaskIssues_row t)), app_nil_r.
  - case_match; [|by rewrite app_nil_r].
    rewrite validateTaskWorkerRelationship_emit.
    by rewrite (no_missing_report_emit _ _ (taskWorkerIssues_row w)), app_nil_r.
Qed.

(** ** Integers read from cells *)

Lemma to_list_of_list l : Str.to_list (Str.of_list l) = l.
Proof. induction l as [|c l IH]; simpl; by f_equal. Qed.

Lemma of_list_to_list s : Str.of_list (Str.to_list s) = s.
Proof. induction s as [|c s IH]; simpl; by f_equal. Qed.

Lemma to_list_app s1 s2 : Str.to_list (s1 +:+ s2) = Str.to_list s1 ++ Str.to_list s2.
Proof. induction s1 as [|c s1 IH]; simpl; by f_equal. Qed.

Lemma dec_value_snoc ds c : Str.dec_value (ds ++ [c]) = 10 * Str.dec_value ds + Str.digit_val c.
Proof. unfold Str.dec_value. by rewrite fold_left_app. Qed.

Lemma pretty_N_char_digit d :
  (d < 10)%N ->
  Str.is_digit (pretty_N_char d) = true /\ Str.digit_val (pretty_N_char d) = Z.of_N d.
Proof.
  intros Hd.
  assert (d = 0 \/ d = 1 \/ d = 2 \/ d = 3 \/ d = 4 \/ d = 5 \/ d = 6 \/ d = 7 \/ d = 8
          \/ d = 9)%N as H by lia.
  destruct_or!; subst; by vm_compute.
Qed.

(** The digits that [pretty] writes in front of a string, and their value. *)
Lemma pretty_N_go_digits x : forall s,
  exists ds,
    Str.to_list (pretty_N_go x s) = ds ++ Str.to_list s
    /\ forallb Str.is_digit ds = true
    /\ Str.dec_value ds = Z.of_N x
    /\ ((0 < x)%N -> ds <> []).
Proof.
  induction (N.lt_wf_0 x) as [x _ IH]. intros s.
  destruct (decide (x = 0%N)) as [->|Hx].
  - exists []. rewrite pretty_N_go_0. split_and!; [done..|lia].
  - rewrite pretty_N_go_step by lia.
    destruct (IH (x `div` 10)%N) with (s := String (pretty_N_char (x `mod` 10)) s)
      as (ds & Hds & Hdig & Hval & _).
    { apply N.div_lt; lia. }
    destruct (pretty_N_char_digit (x `mod` 10)) as [Hc Hv].
    { apply N.mod_upper_bound. lia. }
    exists (ds ++ [pretty_N_char (x `mod` 10)%N]). split_and!.
    + rewrite Hds. simpl. by rewrite <- app_assoc.
    + rewrite forallb_app, Hdig. simpl. by rewrite Hc.
    + rewrite dec_value_snoc, Hval, Hv.
      rewrite (N.div_mod x 10) at 3 by lia. lia.
    + intros _. by destruct ds.
Qed.

Lemma pretty_positive_digits (p : positive) :
  exists ds, Str.to_list (pretty p) = ds /\ forallb Str.is_digit ds = true
             /\ Str.dec_value ds = Z.pos p /\ ds <> [].
Proof.
  destruct (pretty_N_go_digits (Npos p) "") as (ds & Hds & Hdig & Hval & Hne).
  exists ds. split_and!; [|done|done|by apply Hne].
  unfold pretty, pretty_positive, pretty, pretty_N. simpl.
  rewrite Hds. simpl. by rewrite app_nil_r.
Qed.

Lemma is_digit_no_sign c :
  Str.is_digit c = true ->
  Ascii.eqb c "-" = false /\ Ascii.eqb c "+" = false
  /\ Ascii.eqb c "x" = false /\ Ascii.eqb c "X" = false /\ Str.is_ws c = false.
Proof.
  intros H. split_and!; try (apply Ascii.eqb_neq; intros ->; by vm_compute in H).
  by apply is_digit_not_ws.
Qed.

Lemma take_while_digits ds rest :
  forallb Str.is_digit ds = true -> ends_number rest = true ->
  Str.take_while Str.is_digit (ds ++ rest) = ds.
Proof.
  intros Hds Hrest. induction ds as [|c ds IH]; simpl in *.
  - destruct rest as [|c rest]; [done|]. simpl in *. by destruct (Str.is_digit c).
  - apply andb_true_iff in Hds as [-> Hds]. f_equal. by apply IH.
Qed.

(** [parseInt] on digits that something else may follow. *)
Lemma parseInt_unsigned l ds rest :
  l = ds ++ rest -> ds <> [] -> forallb Str.is_digit ds = true -> ends_number rest = true ->
  forall neg : bool,
  match l with
  | c0 :: p :: r =>
      if Ascii.eqb c0 "0" && (Ascii.eqb p "x" || Ascii.eqb p "X") then
        match Str.take_while (fun c => bool_decide (is_Some (Str.hex_val c))) r with
        | [] => NaN
        | ds => match Num.radix_value 16 0 ds with
                | Some v => Int (if neg then - v else v) | None => NaN end
        end
      else
        match Str.take_while Str.is_digit l with
        | [] => NaN
        | ds => Int ((if neg then - Str.dec_value ds else Str.dec_value ds))
        end
  | _ =>
      match Str.take_while Str.is_digit l with
      | [] => NaN
      | ds => Int ((if neg then - Str.dec_value ds else Str.dec_value ds))
      end
  end = Int (if neg then - Str.dec_value ds else Str.dec_value ds).
Proof.
  intros -> Hne Hds Hrest neg.
  pose proof (take_while_digits ds rest Hds Hrest) as Htw.
  assert (forall l', l' = ds ++ rest ->
            match Str.take_while Str.is_digit l' with
            | [] => NaN
            | ds0 => Int (if neg then - Str.dec_value ds0 else Str.dec_value ds0)
            end = Int (if neg then - Str.dec_value ds else Str.dec_value ds)) as Hgen.
  { intros l' ->. rewrite Htw. by destruct ds. }
  destruct (ds ++ rest) as [|c0 [|p r]] eqn:El; try (by apply Hgen).
  assert (Ascii.eqb p "x" || Ascii.eqb p "X" = false) as ->.
  { destruct ds as [|d0 [|d1 ds]]; [done| |].
    - simpl in El. injection El as -> ->. simpl in Hrest.
      destruct (Ascii.eqb p "x"), (Ascii.eqb p "X"); simpl in *;
        rewrite ?andb_false_r in Hrest; done.
    - simpl in El. injection El as -> -> _. simpl in Hds.
      apply andb_true_iff in Hds as [_ [Hp _]%andb_true_iff].
      destruct (is_digit_no_sign p Hp) as (_ & _ & -> & -> & _). done. }
  rewrite andb_false_r. by apply Hgen.
Qed.

Lemma parseInt_digits s ds rest :
  Str.drop_ws (Str.to_list s) = ds ++ rest ->
  ds <> [] -> forallb Str.is_digit ds = true -> ends_number rest = true ->
  Num.parseInt s = Int (Str.dec_value ds).
Proof.
  intros Hs Hne Hds Hrest. unfold Num.parseInt. rewrite Hs.
  destruct ds as [|d ds]; [done|].
  pose proof Hds as Hd. simpl in Hd. apply andb_true_iff in Hd as [Hd _].
  destruct (is_digit_no_sign d Hd) as (Hm & Hp & _).
  simpl app. unfold Num.split_sign. rewrite Hm, Hp.
  by apply (parseInt_unsigned _ (d :: ds) rest eq_refl Hne Hds Hrest false).
Qed.

Lemma parseInt_negative_digits s ds rest :
  Str.drop_ws (Str.to_list s) = "-"%char :: ds ++ rest ->
  ds <> [] -> forallb Str.is_digit ds = true -> ends_number rest = true ->
  Num.parseInt s = Int (- Str.dec_value ds).
Proof.
  intros Hs Hne Hds Hrest. unfold Num.parseInt. rewrite Hs.
  unfold Num.split_sign. simpl Ascii.eqb. cbv iota.
  by apply (parseInt_unsigned _ ds rest eq_refl Hne Hds Hrest true).
Qed.

Lemma drop_ws_digit d l : Str.is_digit d = true -> Str.drop_ws (d :: l) = d :: l.
Proof. intros Hd. simpl. by rewrite (is_digit_not_ws d Hd). Qed.

(** The round trip of an integer through its decimal writing. *)
Lemma parseInt_toString (z : Z) : z <> 0 -> Num.parseInt (Num.toString (Int z)) = Int z.
Proof.
  intros Hz. unfold Num.toString. destruct z as [|p|p]; [done| |].
  - destruct (pretty_positive_digits p) as (ds & Hds & Hdig & Hval & Hne).
    replace (Int (Z.pos p)) with (Int (Str.dec_value ds)) by (by rewrite Hval).
    apply (parseInt_digits _ ds []); try done.
    change (pretty (Z.pos p)) with (pretty p). rewrite Hds, app_nil_r.
    destruct ds as [|d ds]; [done|]. apply drop_ws_digit.
    simpl in Hdig. by apply andb_true_iff in Hdig as [-> _].
  - destruct (pretty_positive_digits p) as (ds & Hds & Hdig & Hval & Hne).
    replace (Int (Z.neg p)) with (Int (- Str.dec_value ds)) by (by rewrite Hval).
    apply (parseInt_negative_digits _ ds []); try done.
    change (pretty (Z.neg p)) with ("-" +:+ pretty p).
    rewrite to_list_app, Hds, app_nil_r. done.
Qed.

(** ** The checks of one row, in the report *)

Lemma at_row_app i l1 l2 : at_row i (l1 ++ l2) = at_row i l1 ++ at_row i l2.
Proof. apply filter_app. Qed.

Lemma at_row_rowless i l : Forall (fun e => issue_row e = None) l -> at_row i l = [].
Proof.
  intros H. apply filter_none. intros e He.
  eapply Forall_forall in H; [|done]. by rewrite H.
Qed.

Lemma validateSingleDataset_at_row data type i r :
  data !! i = Some r -> at_row i (validateSingleDataset data type) = rowIssues type r i.
Proof.
  intros Hi. rewrite validateSingleDataset_emit, at_row_app.
  rewrite (at_row_rowless _ _ (headerIssues_rowless data type)).
  apply (at_row_emit _ (rowIssues_row type) data i r Hi).
Qed.

Lemma of_category_if c c' (b : bool) errs :
  c <> c' -> in_category c' errs -> of_category c (if b then errs else []) = [].
Proof. intros Hne H. destruct b; [by apply (of_category_other _ c')|done]. Qed.

(** The structural errors that the report lists for a row are those of the
    checks of [validateSingleDataset] on that row. *)
Lemma structural_clients c w t s i r :
  c !! i = Some r ->
  at_row i (of_category structural (errorsAt "clients" (fullValidation c w t s)))
  = validateClientRow [] r i.
Proof.
  intros Hi. rewrite fullValidation_clients, of_category_app.
  rewrite of_category_same by apply validateSingleDataset_category.
  rewrite (of_category_if _ reference)
    by (done || apply validateClientTaskRelationship_category).
  rewrite app_nil_r. by apply (validateSingleDataset_at_row c clients).
Qed.

Lemma structural_workers c w t s i r :
  w !! i = Some r ->
  at_row i (of_category structural (errorsAt "workers" (fullValidation c w t s)))
  = validateWorkerRow [] r i.
Proof.
  intros Hi. rewrite fullValidation_workers, of_category_app.
  rewrite of_category_same by apply validateSingleDataset_category.
  rewrite (of_category_other _ capacity)
    by (done || apply validateOverloadedWorkers_category).
  rewrite app_nil_r. by apply (validateSingleDataset_at_row w workers).
Qed.

Lemma structural_tasks c w t s i r :
  t !! i = Some r ->
  at_row i (of_category structural (errorsAt "tasks" (fullValidation c w t s)))
  = validateTaskRow [] r i.
Proof.
  intros Hi. rewrite fullValidation_tasks, !of_category_app.
  rewrite of_category_same by apply validateSingleDataset_category.
  rewrite (of_category_if _ reference)
    by (done || apply validateTaskWorkerRelationship_category).
  rewrite (of_category_other _ capacity (validatePhaseSlotSaturation _ _))
    by (done || apply validatePhaseSlotSaturation_category).
  rewrite (of_category_other _ capacity)
    by (done || apply validateMaxConcurrencyFeasibility_category).
  rewrite !app_nil_r. by apply (validateSingleDataset_at_row t tasks).
Qed.

Lemma elem_of_structural_row errs d i id p :
  problem_category p = structural ->
  RowIssue d i id p ∈ errs
  <-> RowIssue d i id p ∈ at_row i (of_category structural errs).
Proof.
  intros Hp. unfold at_row, of_category. rewrite !list_elem_of_filter. simpl. intuition.
Qed.

Ltac row_membership :=
  unfold push; repeat case_match; cbn [app];
  rewrite ?elem_of_cons, ?elem_of_nil; intuition (discriminate || congruence).

Lemma priority_reported r i :
  RowIssue clients i (idOrNA r clients) InvalidPriorityLevel ∈ validateClientRow [] r i
  <-> Num.isNaN (parseIntCell r "PriorityLevel")
      || Num.lt (parseIntCell r "PriorityLevel") (Int 1)
      || Num.gt (parseIntCell r "PriorityLevel") (Int 5) = true.
Proof. unfold validateClientRow. destruct (_ || _); row_membership. Qed.

Lemma maxLoad_reported r i :
  RowIssue workers i (idOrNA r workers) InvalidMaxLoadPerPhase ∈ validateWorkerRow [] r i
  <-> Num.isNaN (parseIntCell r "MaxLoadPerPhase")
      || Num.lt (parseIntCell r "MaxLoadPerPhase") (Int 0) = true.
Proof.
  unfold validateWorkerRow.
  destruct (Num.isNaN (parseIntCell r "MaxLoadPerPhase") || _); row_membership.
Qed.

Lemma validatePreferredPhases_only errors r i e :
  e ∈ validatePreferredPhases errors r i ->
  e ∈ errors \/ exists p, e = RowIssue tasks i (idOrNA r tasks) p
                          /\ p <> InvalidDuration /\ p <> InvalidMaxConcurrent.
Proof.
  unfold validatePreferredPhases, push. repeat case_match; cbn [app];
    rewrite ?elem_of_app, ?elem_of_cons, ?elem_of_nil;
    intuition (try (right; eexists; split_and!; [eassumption|discriminate..]); eauto).
Qed.

Lemma validatePreferredPhases_keeps errors r i e :
  e ∈ errors -> e ∈ validatePreferredPhases errors r i.
Proof.
  rewrite (validatePreferredPhases_app errors). intros H. apply elem_of_app. by left.
Qed.

Lemma duration_reported r i :
  RowIssue tasks i (idOrNA r tasks) InvalidDuration ∈ validateTaskRow [] r i
  <-> Num.isNaN (parseIntCell r "Duration")
      || Num.lt (parseIntCell r "Duration") (Int 1) = true.
Proof.
  unfold validateTaskRow. split.
  - intros [H|(p & [= <-] & ? & ?)]%validatePreferredPhases_only; [|done].
    revert H. destruct (Num.isNaN (parseIntCell r "Duration") || _); [done|].
    row_membership.
  - intros ->. apply validatePreferredPhases_keeps. row_membership.
Qed.

Lemma maxConcurrent_reported r i :
  RowIssue tasks i (idOrNA r tasks) InvalidMaxConcurrent ∈ validateTaskRow [] r i
  <-> Num.isNaN (parseIntCell r "MaxConcurrent")
      || Num.lt (parseIntCell r "MaxConcurrent") (Int 1) = true.
Proof.
  unfold validateTaskRow. split.
  - intros [H|(p & [= <-] & ? & ?)]%validatePreferredPhases_only; [|done].
    revert H. destruct (Num.isNaN (parseIntCell r "MaxConcurrent") || _); [done|].
    row_membership.
  - intros ->. apply validatePreferredPhases_keeps. row_membership.
Qed.

(** A cell that holds an integer as a number: zero is falsy and is read as
    the empty text. *)
Lemma parseIntCell_number r col n :
  JS.get r col = VNum (Int n) ->
  parseIntCell r col = if decide (n = 0) then NaN else Int n.
Proof.
  intros H. unfold parseIntCell, JS.or. rewrite H.
  case_decide as Hn; [by subst|].
  replace (JS.truthy (VNum (Int n))) with true by (by destruct n).
  by apply parseInt_toString.
Qed.

(** A cell that holds a text. *)
Lemma parseIntCell_text r col s ds rest :
  JS.get r col = VStr s ->
  Str.drop_ws (Str.to_list s) = ds ++ rest ->
  ds <> [] -> forallb Str.is_digit ds = true -> ends_number rest = true ->
  parseIntCell r col = Int (Str.dec_value ds).
Proof.
  intros H Hs Hne Hds Hrest. unfold parseIntCell, JS.or. rewrite H. simpl.
  case_bool_decide as Hempty; simpl.
  - subst. simpl in Hs. by destruct ds.
  - by apply (parseInt_digits s ds rest).
Qed.

Lemma digit_val_nonneg c : Str.is_digit c = true -> 0 <= Str.digit_val c.
Proof.
  unfold Str.is_digit, Str.in_range, Str.digit_val.
  intros [H _]%andb_true_iff. apply Nat.leb_le in H.
  change (nat_of_ascii "0") with 48%nat in H. lia.
Qed.

Lemma dec_value_nonneg ds : forallb Str.is_digit ds = true -> 0 <= Str.dec_value ds.
Proof.
  unfold Str.dec_value.
  assert (forall acc, 0 <= acc -> forallb Str.is_digit ds = true ->
            0 <= fold_left (fun acc c => 10 * acc + Str.digit_val c) ds acc) as Hgen.
  { induction ds as [|d ds IH]; intros acc Hacc Hds; simpl in *; [done|].
    apply andb_true_iff in Hds as [Hd Hds]. apply IH; [|done].
    pose proof (digit_val_nonneg d Hd). lia. }
  by apply Hgen.
Qed.

(** X6: a cell that holds an integer as a number, as a workbook gives it,
    is judged by its value when that is below 10^21 in magnitude, where the
    text of a number has no exponent, except that zero reads as an empty
    cell: a PriorityLevel is reported exactly when it is outside 1..5, a
    Duration or a MaxConcurrent exactly when it is less than 1, and a
    MaxLoadPerPhase exactly when it is negative or zero, although the text 0
    is accepted for it. *)
Theorem integer_cells_held_as_numbers (c w t s : list row) (i : nat) (r : row) (n : Z) :
  Z.abs n < 10 ^ 21 ->
  (c !! i = Some r -> JS.get r "PriorityLevel" = VNum (Int n) ->
   (RowIssue clients i (idOrNA r clients) InvalidPriorityLevel
      ∈ errorsAt "clients" (fullValidation c w t s)
    <-> n < 1 \/ 5 < n))
  /\ (w !! i = Some r -> JS.get r "MaxLoadPerPhase" = VNum (Int n) ->
      (RowIssue workers i (idOrNA r workers) InvalidMaxLoadPerPhase
         ∈ errorsAt "workers" (fullValidation c w t s)
       <-> n <= 0))
  /\ (w !! i = Some r -> JS.get r "MaxLoadPerPhase" = VStr "0" ->
      RowIssue workers i (idOrNA r workers) InvalidMaxLoadPerPhase
        ∉ errorsAt "workers" (fullValidation c w t s))
  /\ (t !! i = Some r -> JS.get r "Duration" = VNum (Int n) ->
      (RowIssue tasks i (idOrNA r tasks) InvalidDuration
         ∈ errorsAt "tasks" (fullValidation c w t s)
       <-> n < 1))
  /\ (t !! i = Some r -> JS.get r "MaxConcurrent" = VNum (Int n) ->
      (RowIssue tasks i (idOrNA r tasks) InvalidMaxConcurrent
         ∈ errorsAt "tasks" (fullValidation c w t s)
       <-> n < 1)).
Proof.
  intros _. split_and!; intros Hi Hcell; rewrite elem_of_structural_row by done.
  - rewrite (structural_clients _ _ _ _ _ _ Hi), priority_reported.
    rewrite (parseIntCell_number _ _ _ Hcell). case_decide as Hn.
    + subst. simpl. split; [lia|done].
    + simpl. rewrite lt_Int, gt_Int, orb_true_iff, !Z.ltb_lt. done.
  - rewrite (structural_workers _ _ _ _ _ _ Hi), maxLoad_reported.
    rewrite (parseIntCell_number _ _ _ Hcell). case_decide as Hn.
    + subst. simpl. split; [lia|done].
    + simpl. rewrite lt_Int, Z.ltb_lt. lia.
  - rewrite (structural_workers _ _ _ _ _ _ Hi), maxLoad_reported.
    unfold parseIntCell, JS.or. rewrite Hcell. by vm_compute.
  - rewrite (structural_tasks _ _ _ _ _ _ Hi), duration_reported.
    rewrite (parseIntCell_number _ _ _ Hcell). case_decide as Hn.
    + subst. simpl. split; [lia|done].
    + simpl. rewrite lt_Int, Z.ltb_lt. lia.
  - rewrite (structural_tasks _ _ _ _ _ _ Hi), maxConcurrent_reported.
    rewrite (parseIntCell_number _ _ _ Hcell). case_decide as Hn.
    + subst. simpl. split; [lia|done].
    + simpl. rewrite lt_Int, Z.ltb_lt. lia.
Qed.

Lemma integer_cells_held_as_numbers_witness :
  let r := mkRow [("WorkerID", VStr "W1"); ("MaxLoadPerPhase", VNum (Int 0))] in
  RowIssue workers 0 (idOrNA r workers) InvalidMaxLoadPerPhase
    ∈ errorsAt "workers" (fullValidation [] [r] [] []).
Proof.
  intros r.
  destruct (integer_cells_held_as_numbers [] [r] [] [] 0 r 0) as (_ & H & _);
    [by vm_compute|].
  apply (H eq_refl eq_refl). lia.
Defined.

(** X7: in a cell that holds a text, the check reads the digits that
    follow the leading white space and ignores what comes after them: the
    text is judged by the value of those digits, so a priority of three
    followed by any word is accepted, and a MaxLoadPerPhase that starts
    with a digit is never reported. *)
Theorem integer_cells_held_as_text (c w t s : list row) (i : nat) (r : row)
    (txt : string) (ds rest : list ascii) :
  Str.drop_ws (Str.to_list txt) = ds ++ rest ->
  ds <> [] ->
  forallb Str.is_digit ds = true ->
  ends_number rest = true ->
  (c !! i = Some r -> JS.get r "PriorityLevel" = VStr txt ->
   (RowIssue clients i (idOrNA r clients) InvalidPriorityLevel
      ∈ errorsAt "clients" (fullValidation c w t s)
    <-> Str.dec_value ds < 1 \/ 5 < Str.dec_value ds))
  /\ (w !! i = Some r -> JS.get r "MaxLoadPerPhase" = VStr txt ->
      RowIssue workers i (idOrNA r workers) InvalidMaxLoadPerPhase
        ∉ errorsAt "workers" (fullValidation c w t s))
  /\ (t !! i = Some r -> JS.get r "Duration" = VStr txt ->
      (RowIssue tasks i (idOrNA r tasks) InvalidDuration
         ∈ errorsAt "tasks" (fullValidation c w t s)
       <-> Str.dec_value ds < 1))
  /\ (t !! i = Some r -> JS.get r "MaxConcurrent" = VStr txt ->
      (RowIssue tasks i (idOrNA r tasks) InvalidMaxConcurrent
         ∈ errorsAt "tasks" (fullValidation c w t s)
       <-> Str.dec_value ds < 1)).
Proof.
  intros Htxt Hne Hds Hrest.
  pose proof (dec_value_nonneg ds Hds) as Hpos.
  split_and!; intros Hi Hcell; rewrite elem_of_structural_row by done.
  - rewrite (structural_clients _ _ _ _ _ _ Hi), priority_reported.
    rewrite (parseIntCell_text _ _ _ _ _ Hcell Htxt Hne Hds Hrest). simpl.
    rewrite lt_Int, gt_Int, orb_true_iff, !Z.ltb_lt. done.
  - rewrite (structural_workers _ _ _ _ _ _ Hi), maxLoad_reported.
    rewrite (parseIntCell_text _ _ _ _ _ Hcell Htxt Hne Hds Hrest). simpl.
    rewrite lt_Int, Z.ltb_lt. lia.
  - rewrite (structural_tasks _ _ _ _ _ _ Hi), duration_reported.
    rewrite (parseIntCell_text _ _ _ _ _ Hcell Htxt Hne Hds Hrest). simpl.
    rewrite lt_Int, Z.ltb_lt. done.
  - rewrite (structural_tasks _ _ _ _ _ _ Hi), maxConcurrent_reported.
    rewrite (parseIntCell_text _ _ _ _ _ Hcell Htxt Hne Hds Hrest). simpl.
    rewrite lt_Int, Z.ltb_lt. done.
Qed.

Lemma integer_cells_held_as_text_witness :
  let r := mkRow [("ClientID", VStr "C1"); ("PriorityLevel", VStr " 3 or so")] in
  RowIssue clients 0 (idOrNA r clients) InvalidPriorityLevel
    ∈ errorsAt "clients" (fullValidation [r] [] [] [])
  <-> Str.dec_value ["3"%char] < 1 \/ 5 < Str.dec_value ["3"%char].
Proof.
  intros r.
  destruct (integer_cells_held_as_text [r] [] [] [] 0 r " 3 or so"
              ["3"%char] (Str.to_list " or so")) as [H _]; try done.
  exact (H eq_refl eq_refl).
Defined.

(** ** Skills: references and concurrency *)

Lemma strict_eq_Undef v : v <> VUndef -> JS.strict_eq v VUndef = false.
Proof. intros H. destruct v; try done; unfold JS.strict_eq; by apply bool_decide_eq_false_2. Qed.

Lemma elem_of_workerSkillsOf workerRows skill :
  skill ∈ workerSkillsOf workerRows <-> skill ∈ flat_map skillsOf workerRows.
Proof. unfold workerSkillsOf. by rewrite elem_of_list_to_set. Qed.

Lemma skillEntries_unknown workerRows skill :
  skill ∉ workerSkillsOf workerRows -> skillEntries workerRows skill = O.
Proof.
  rewrite elem_of_workerSkillsOf. unfold skillEntries.
  induction (flat_map skillsOf workerRows) as [|x l IH]; intros H; [done|]. simpl.
  rewrite bool_decide_eq_false_2 by (intros ->; apply H; left).
  apply IH. intros Hin. apply H. by right.
Qed.

Lemma empty_is_no_worker_skill workerRows : "" ∉ workerSkillsOf workerRows.
Proof.
  rewrite elem_of_workerSkillsOf, list_elem_of_In, in_flat_map.
  intros (worker & _ & H). unfold skillsOf in H. by apply filter_In in H as [_ H].
Qed.

Lemma split_go_nonempty sep l : forall cur, Str.split_go sep cur l <> [].
Proof. induction l as [|c l IH]; intros cur; simpl; [done|]. by destruct (Ascii.eqb c sep). Qed.

Lemma requiredSkillsOf_nonempty task : requiredSkillsOf task <> [].
Proof.
  unfold requiredSkillsOf, Str.split.
  pose proof (split_go_nonempty "," (Str.to_list (JS.ToString (JS.get task "RequiredSkills"))) []).
  by destruct (Str.split_go _ _ _).
Qed.

(** A task with a required skill that is written by no worker and names no
    inherited member fails the concurrency check, when the check looks at
    the task. *)
Lemma infeasible_reported c w t s i task skill k :
  t !! i = Some task ->
  JS.truthy (JS.get task "RequiredSkills") = true ->
  skill ∈ requiredSkillsOf task ->
  JS.inherited skill = false ->
  skill ∉ workerSkillsOf w ->
  JS.get task "MaxConcurrent" <> VUndef ->
  parseIntCell task "MaxConcurrent" = Int k ->
  0 < k ->
  RowIssue tasks i (idOrNA task tasks) (ConcurrencyInfeasible (Int k))
    ∈ errorsAt "tasks" (fullValidation c w t s).
Proof.
  intros Hi Htruthy Hskill Hown Hunknown Hdef Hk Hpos.
  rewrite fullValidation_tasks, !elem_of_app. right. right. right.
  rewrite validateMaxConcurrencyFeasibility_emit. apply elem_of_emit_from.
  exists i, task. split; [done|].
  unfold concurrencyIssues, infeasible.
  rewrite Htruthy, (strict_eq_Undef _ Hdef), Hk, gt_Int.
  rewrite canMeetConcurrencyOf_entries by done.
  replace (0 <? k) with true by (symmetry; by apply Z.ltb_lt).
  assert (existsb (fun skill => negb (JS.inherited skill)
                                  && (Z.of_nat (skillEntries w skill) <? k))
                  (requiredSkillsOf task) = true) as ->.
  { apply existsb_exists. exists skill. split; [by apply list_elem_of_In|].
    rewrite Hown, (skillEntries_unknown _ _ Hunknown). by apply Z.ltb_lt. }
  simpl. by left.
Qed.

(** The reference errors of a task row in the report. *)
Lemma skill_references_row (c w t s : list row) (i : nat) (task : row) :
  t !! i = Some task ->
  at_row i (of_category reference (errorsAt "tasks" (fullValidation c w t s)))
  = if decide (w = []) then []
    else map (fun skill => RowIssue tasks i (idOrNA task tasks) (SkillNotFound skill))
           (List.filter
              (fun skill => nonempty skill && negb (bool_decide (skill ∈ workerSkillsOf w)))
              (if JS.truthy (JS.get task "RequiredSkills") then requiredSkillsOf task else [])).
Proof.
  intros Hi. rewrite fullValidation_tasks, !of_category_app.
  rewrite (of_category_other _ structural) by (done || apply validateSingleDataset_category).
  rewrite (of_category_other _ capacity (validatePhaseSlotSaturation _ _))
    by (done || apply validatePhaseSlotSaturation_category).
  rewrite (of_category_other _ capacity (validateMaxConcurrencyFeasibility _ _))
    by (done || apply validateMaxConcurrencyFeasibility_category).
  rewrite app_nil_r. simpl.
  destruct w as [|worker w]; [by destruct t|].
  assert ((0 <? length t)%nat && (0 <? length (worker :: w))%nat = true) as ->
    by (by destruct t).
  rewrite of_category_same by apply validateTaskWorkerRelationship_category.
  rewrite validateTaskWorkerRelationship_emit.
  rewrite (at_row_emit _ (taskWorkerIssues_row (worker :: w)) t i task Hi).
  unfold taskWorkerIssues, danglingSkills. rewrite decide_False by done.
  by destruct (JS.truthy _).
Qed.


(** X8: when there are workers, the reference errors that the report lists
    under tasks for a task row are, in the order of the tokens, one error
    for every trimmed token of its RequiredSkills that is not empty and that
    no worker writes among its skills; when the workers data is empty the
    check is skipped and no skill is reported. *)
Theorem skill_references_per_task (c w t s : list row) (i : nat) (task : row) :
  t !! i = Some task ->
  at_row i (of_category reference (errorsAt "tasks" (fullValidation c w t s)))
  = if decide (w = []) then []
    else map (fun skill => RowIssue tasks i (idOrNA task tasks) (SkillNotFound skill))
           (List.filter
              (fun skill => nonempty skill && negb (bool_decide (skill ∈ workerSkillsOf w)))
              (if JS.truthy (JS.get task "RequiredSkills") then requiredSkillsOf task else [])).
Proof. apply skill_references_row. Qed.

Lemma skill_references_per_task_witness :
  at_row 0 (of_category reference
              (errorsAt "tasks"
                 (fullValidation [] [skillWorker "W1" "python"] [skillTask "python, go,," "1"] [])))
  = [RowIssue tasks 0 (VStr "T1") (SkillNotFound "go")].
Proof.
  rewrite (skill_references_per_task _ _ _ _ 0%nat (skillTask "python, go,," "1"))
    by reflexivity.
  vm_compute. reflexivity.
Defined.

(** X9: a task that names a required skill which no worker writes, and
    which is not the name of a member that a plain object inherits
    (constructor, toString and the like, which the count never holds as a
    number), is reported twice: the concurrency check reports it as
    infeasible whenever its MaxConcurrent is present and reads as an integer
    above zero, and the reference check reports the skill when there are
    workers and the skill is not empty.  The empty token of a trailing comma
    is such a skill: no worker ever holds it. *)
Theorem unknown_skill_reported_twice (c w t s : list row) (i : nat) (task : row)
    (skill : string) (k : Z) :
  t !! i = Some task ->
  JS.truthy (JS.get task "RequiredSkills") = true ->
  skill ∈ requiredSkillsOf task ->
  JS.inherited skill = false ->
  skill ∉ workerSkillsOf w ->
  JS.get task "MaxConcurrent" <> VUndef ->
  parseIntCell task "MaxConcurrent" = Int k ->
  0 < k ->
  RowIssue tasks i (idOrNA task tasks) (ConcurrencyInfeasible (Int k))
    ∈ errorsAt "tasks" (fullValidation c w t s)
  /\ (w <> [] -> skill <> "" ->
      RowIssue tasks i (idOrNA task tasks) (SkillNotFound skill)
        ∈ errorsAt "tasks" (fullValidation c w t s))
  /\ ("" ∉ workerSkillsOf w)
  /\ JS.inherited "" = false.
Proof.
  intros Hi Htruthy Hskill Hown Hunknown Hdef Hk Hpos. split_and!; [| | |done].
  - by eapply infeasible_reported.
  - intros Hw Hne.
    assert (RowIssue tasks i (idOrNA task tasks) (SkillNotFound skill)
              ∈ at_row i (of_category reference (errorsAt "tasks" (fullValidation c w t s))))
      as Hin.
    { rewrite (skill_references_row c w t s i task Hi), decide_False by done.
      rewrite Htruthy. apply list_elem_of_fmap. exists skill. split; [done|].
      apply list_elem_of_In, filter_In. split; [by apply list_elem_of_In|].
      unfold nonempty. rewrite bool_decide_eq_false_2 by done.
      destruct skill; [done|]. done. }
    unfold at_row, of_category in Hin. rewrite !list_elem_of_filter in Hin. tauto.
  - apply empty_is_no_worker_skill.
Qed.

Lemma unknown_skill_reported_twice_witness :
  let w := [skillWorker "W1" "python"] in
  let task := skillTask "go" "1" in
  RowIssue tasks 0 (idOrNA task tasks) (ConcurrencyInfeasible (Int 1))
    ∈ errorsAt "tasks" (fullValidation [] w [task] [])
  /\ (w <> [] -> "go" <> "" ->
      RowIssue tasks 0 (idOrNA task tasks) (SkillNotFound "go")
        ∈ errorsAt "tasks" (fullValidation [] w [task] []))
  /\ ("" ∉ workerSkillsOf w)
  /\ JS.inherited "" = false.
Proof.
  intros w task.
  apply (unknown_skill_reported_twice [] w [task] [] 0 task "go" 1).
  - reflexivity.
  - reflexivity.
  - vm_compute. left.
  - reflexivity.
  - intros H%elem_of_workerSkillsOf. vm_compute in H.
    apply list_elem_of_singleton in H. discriminate.
  - discriminate.
  - vm_compute. reflexivity.
  - lia.
Defined.

(** X10: while no workers are loaded, the reference check on skills is
    skipped, but the two capacity checks run against nothing: every task
    whose RequiredSkills cell is filled with a skill that is not the name of
    an inherited member, and whose MaxConcurrent is present and above zero,
    is reported as infeasible, and every phase that a task prefers and for
    which the durations that the check adds up are above zero is reported as
    saturated, with that total and capacity 0. *)
Theorem tasks_without_workers (c t s : list row) :
  of_category reference (errorsAt "tasks" (fullValidation c [] t s)) = []
  /\ (forall i task skill k,
        t !! i = Some task ->
        JS.truthy (JS.get task "RequiredSkills") = true ->
        skill ∈ requiredSkillsOf task ->
        JS.inherited skill = false ->
        JS.get task "MaxConcurrent" <> VUndef ->
        parseIntCell task "MaxConcurrent" = Int k ->
        0 < k ->
        RowIssue tasks i (idOrNA task tasks) (ConcurrencyInfeasible (Int k))
          ∈ errorsAt "tasks" (fullValidation c [] t s))
  /\ (forall task p,
        task ∈ t ->
        p ∈ preferredPhasesOf task ->
        Num.gt (totalTaskDurationInPhase t p) (Int 0) = true ->
        PhaseSaturated p (totalTaskDurationInPhase t p) (Int 0)
          ∈ errorsAt "tasks" (fullValidation c [] t s)).
Proof.
  split_and!.
  - rewrite fullValidation_tasks, !of_category_app.
    rewrite (of_category_other _ structural) by (done || apply validateSingleDataset_category).
    rewrite (of_category_other _ capacity (validatePhaseSlotSaturation _ _))
      by (done || apply validatePhaseSlotSaturation_category).
    rewrite (of_category_other _ capacity (validateMaxConcurrencyFeasibility _ _))
      by (done || apply validateMaxConcurrencyFeasibility_category).
    by rewrite andb_false_r.
  - intros i task skill k Hi Htruthy Hskill Hown Hdef Hk Hpos.
    apply (infeasible_reported c [] t s i task skill k); try done.
  - intros task p Htask Hp Hdemand.
    rewrite fullValidation_tasks, !elem_of_app. right. right. left.
    rewrite validatePhaseSlotSaturation_filter. apply list_elem_of_fmap.
    exists p. split; [done|].
    apply list_elem_of_In, filter_In. split.
    + apply list_elem_of_In. rewrite sort_numbers_perm.
      apply elem_of_allPhasesOf. by exists task.
    + exact Hdemand.
Qed.

Lemma tasks_without_workers_witness :
  RowIssue tasks 0 (idOrNA (skillTask "python" "1") tasks) (ConcurrencyInfeasible (Int 1))
    ∈ errorsAt "tasks" (fullValidation [] [] [skillTask "python" "1"] []).
Proof.
  destruct (tasks_without_workers [] [skillTask "python" "1"] []) as (_ & H & _).
  apply (H 0%nat (skillTask "python" "1") "python" 1);
    [reflexivity|reflexivity|vm_compute; left|reflexivity|discriminate| |lia].
  vm_compute. reflexivity.
Defined.

(** ** The AvailableSlots cell *)

Lemma matches_Alt a b s :
  Regex.matches (Regex.Alt a b) s = Regex.matches a s || Regex.matches b s.
Proof. revert a b. induction s as [|c s IH]; intros a b; [done|]. simpl. apply IH. Qed.

Lemma matches_digits_tail s :
  Regex.matches (Regex.Cat Regex.Eps (Regex.Star (Regex.Rng "0" "9"))) s
  = forallb Str.is_digit (Str.to_list s).
Proof.
  induction s as [|c s IH]; [done|].
  cbn [Regex.matches Regex.deriv Regex.nullable Str.to_list forallb].
  rewrite matches_Alt, matches_Cat_Void. cbn [orb].
  fold (Str.is_digit c). destruct (Str.is_digit c); [exact IH|apply matches_Cat_Void].
Qed.

(** [/^[0-9]+$/] accepts the non-empty runs of digits. *)
Lemma test_re_digits s : Regex.test re_digits s = all_digits s.
Proof.
  unfold Regex.test, re_digits, Regex.Plus, all_digits.
  destruct s as [|c s]; [done|].
  cbn [Regex.matches Regex.deriv Regex.nullable Str.to_list forallb].
  fold (Str.is_digit c). rewrite bool_decide_eq_false_2 by done. cbn [negb andb].
  destruct (Str.is_digit c); [apply matches_digits_tail|apply matches_Cat_Void].
Qed.

Lemma take_while_all ds :
  forallb Str.is_digit ds = true ->
  Str.take_while Str.is_digit ds = ds /\ Str.drop_while Str.is_digit ds = [].
Proof.
  induction ds as [|d ds IH]; [done|]. simpl.
  intros [-> H]%andb_true_iff. destruct (IH H) as [-> ->]. done.
Qed.

Lemma decimal_literal_digits ds :
  ds <> [] -> forallb Str.is_digit ds = true ->
  Num.decimal_literal ds = Int (Str.dec_value ds).
Proof.
  intros Hne Hds. destruct ds as [|d ds]; [done|].
  pose proof Hds as Hd. simpl in Hd. apply andb_true_iff in Hd as [Hd _].
  destruct (is_digit_no_sign d Hd) as (Hm & Hp & _).
  unfold Num.decimal_literal, Num.split_sign. rewrite Hm, Hp.
  rewrite bool_decide_eq_false_2.
  - unfold Num.scan. destruct (take_while_all _ Hds) as [-> ->].
    cbn [Num.scan_exp Num.lit_int Num.lit_frac Num.lit_rest app].
    unfold Num.literal_value.
    cbn [Num.lit_int Num.lit_frac Num.lit_exp length default].
    rewrite app_nil_r. unfold Num.scaled. simpl Z.leb. cbv iota.
    f_equal. change (10 ^ (0 - Z.of_nat 0)) with 1. lia.
  - simpl. intros [= -> _]. by vm_compute in Hd.
Qed.

(** [Number(s)] on a text that trims to digits. *)
Lemma ofString_digits s :
  all_digits (Str.trim s) = true ->
  Num.ofString s = Int (Str.dec_value (Str.to_list (Str.trim s))).
Proof.
  unfold all_digits, Num.ofString. intros [Hne Hds]%andb_true_iff.
  apply negb_true_iff, bool_decide_eq_false in Hne.
  assert (Str.to_list (Str.trim s) <> []) as Hne'.
  { intros H. apply Hne. by rewrite <- (of_list_to_list (Str.trim s)), H. }
  destruct (Str.to_list (Str.trim s)) as [|c0 [|p [|d r]]] eqn:E; [done|..];
    try (by apply decimal_literal_digits).
  assert (Num.radix_of_prefix p = None) as ->.
  { simpl in Hds. apply andb_true_iff in Hds as [_ [Hp _]%andb_true_iff].
    unfold Num.radix_of_prefix.
    destruct (Ascii.eqb_spec p "x") as [->|_]; [by vm_compute in Hp|].
    destruct (Ascii.eqb_spec p "X") as [->|_]; [by vm_compute in Hp|].
    destruct (Ascii.eqb_spec p "o") as [->|_]; [by vm_compute in Hp|].
    destruct (Ascii.eqb_spec p "O") as [->|_]; [by vm_compute in Hp|].
    destruct (Ascii.eqb_spec p "b") as [->|_]; [by vm_compute in Hp|].
    destruct (Ascii.eqb_spec p "B") as [->|_]; [by vm_compute in Hp|].
    done. }
  destruct (Ascii.eqb c0 "0"); by apply decimal_literal_digits.
Qed.

Lemma slots_reported r i :
  RowIssue workers i (idOrNA r workers) MalformedAvailableSlots ∈ validateWorkerRow [] r i
  <-> JS.truthy (JS.get r "AvailableSlots")
      && (existsb Num.isNaN
            (map Num.ofString (Str.split "," (JS.ToString (JS.get r "AvailableSlots"))))
          || negb (forallb (fun s => Regex.test re_digits (Str.trim s))
                           (Str.split "," (JS.ToString (JS.get r "AvailableSlots"))))) = true.
Proof.
  unfold validateWorkerRow.
  destruct (JS.truthy (JS.get r "AvailableSlots")); cbn [andb];
    [destruct (existsb _ _ || negb _)|]; row_membership.
Qed.

Lemma slots_all_digits pieces :
  forallb (fun s => Regex.test re_digits (Str.trim s)) pieces = true ->
  map Num.ofString pieces
  = map (fun piece => Int (Str.dec_value (Str.to_list (Str.trim piece)))) pieces.
Proof.
  induction pieces as [|x l IH]; [done|]. simpl.
  intros [Hx Hl]%andb_true_iff. rewrite test_re_digits in Hx.
  by rewrite (ofString_digits _ Hx), IH.
Qed.

Lemma filter_Ints {A} (f : A -> Z) l :
  List.filter (fun n => negb (Num.isNaN n)) (map (fun x => Int (f x)) l)
  = map (fun x => Int (f x)) l.
Proof. induction l as [|x l IH]; [done|]. simpl. by rewrite IH. Qed.

Lemma existsb_isNaN_Ints {A} (f : A -> Z) l :
  existsb Num.isNaN (map (fun x => Int (f x)) l) = false.
Proof. induction l as [|x l IH]; [done|]. simpl. by rewrite IH. Qed.

(** X11: an AvailableSlots cell is reported as malformed exactly when it
    is filled and one of its comma-separated entries, trimmed, is not a
    non-empty run of digits; the test on NaN that the check makes first
    adds nothing to this.  When the cell is filled and not reported, and
    its entries spell safe integers, the slots that the later checks read
    from it are the numbers its entries spell, one for each entry. *)
Theorem available_slots_are_digit_runs (c w t s : list row) (i : nat) (r : row) :
  w !! i = Some r ->
  (RowIssue workers i (idOrNA r workers) MalformedAvailableSlots
     ∈ errorsAt "workers" (fullValidation c w t s)
   <-> JS.truthy (JS.get r "AvailableSlots") = true
       /\ exists piece, piece ∈ Str.split "," (JS.ToString (JS.get r "AvailableSlots"))
                        /\ all_digits (Str.trim piece) = false)
  /\ (JS.truthy (JS.get r "AvailableSlots") = true ->
      RowIssue workers i (idOrNA r workers) MalformedAvailableSlots
        ∉ errorsAt "workers" (fullValidation c w t s) ->
      Forall (fun piece => Str.dec_value (Str.to_list (Str.trim piece)) <= MAX_SAFE_INTEGER)
             (Str.split "," (JS.ToString (JS.get r "AvailableSlots"))) ->
      availableSlotsOf r
      = map (fun piece => Int (Str.dec_value (Str.to_list (Str.trim piece))))
            (Str.split "," (JS.ToString (JS.get r "AvailableSlots")))).
Proof.
  intros Hi.
  assert (RowIssue workers i (idOrNA r workers) MalformedAvailableSlots
            ∈ errorsAt "workers" (fullValidation c w t s)
          <-> JS.truthy (JS.get r "AvailableSlots") = true
              /\ forallb (fun s => Regex.test re_digits (Str.trim s))
                   (Str.split "," (JS.ToString (JS.get r "AvailableSlots"))) = false) as Hrep.
  { rewrite elem_of_structural_row by done.
    rewrite (structural_workers _ _ _ _ _ _ Hi), slots_reported, andb_true_iff.
    apply and_iff_compat_l.
    destruct (forallb _ _) eqn:E.
    - rewrite (slots_all_digits _ E), existsb_isNaN_Ints. done.
    - by rewrite orb_true_r. }
  split.
  - rewrite Hrep. apply and_iff_compat_l.
    rewrite <- not_true_iff_false, forallb_forall. split.
    + intros Hnot.
      destruct (existsb (fun s => negb (Regex.test re_digits (Str.trim s)))
                  (Str.split "," (JS.ToString (JS.get r "AvailableSlots")))) eqn:E.
      * apply existsb_exists in E as (piece & Hin & Hp).
        exists piece. split; [by apply list_elem_of_In|].
        rewrite <- test_re_digits. by apply negb_true_iff.
      * exfalso. apply Hnot. intros piece Hin.
        destruct (Regex.test re_digits (Str.trim piece)) eqn:E'; [done|].
        assert (existsb (fun s => negb (Regex.test re_digits (Str.trim s)))
                  (Str.split "," (JS.ToString (JS.get r "AvailableSlots"))) = true) as E''.
        { apply existsb_exists. exists piece. by rewrite E'. }
        congruence.
    + intros (piece & Hin & Hp) Hall.
      apply list_elem_of_In in Hin. apply Hall in Hin.
      rewrite test_re_digits in Hin. congruence.
  - intros Htruthy Hnot _. rewrite Hrep in Hnot.
    destruct (forallb (fun s => Regex.test re_digits (Str.trim s))
                (Str.split "," (JS.ToString (JS.get r "AvailableSlots")))) eqn:E;
      [|by destruct Hnot].
    unfold availableSlotsOf, slotNumbers, JS.or. rewrite Htruthy.
    by rewrite (slots_all_digits _ E), filter_Ints.
Qed.

Lemma available_slots_are_digit_runs_witness :
  let r := scenarioWorker "1, 2,x" "3" in
  (RowIssue workers 0 (idOrNA r workers) MalformedAvailableSlots
     ∈ errorsAt "workers" (fullValidation [] [r] [] [])
   <-> JS.truthy (JS.get r "AvailableSlots") = true
       /\ exists piece, piece ∈ Str.split "," (JS.ToString (JS.get r "AvailableSlots"))
                        /\ all_digits (Str.trim piece) = false)
  /\ availableSlotsOf (scenarioWorker "1, 2" "3")
     = map (fun piece => Int (Str.dec_value (Str.to_list (Str.trim piece))))
           (Str.split "," (JS.ToString (JS.get (scenarioWorker "1, 2" "3") "AvailableSlots"))).
Proof.
  intros r. split.
  - apply (available_slots_are_digit_runs [] [r] [] [] 0 r). reflexivity.
  - destruct (available_slots_are_digit_runs [] [scenarioWorker "1, 2" "3"] [] [] 0
                (scenarioWorker "1, 2" "3") eq_refl) as [H1 H2].
    apply H2; [reflexivity| |repeat constructor; vm_compute; discriminate].
    rewrite H1. intros [_ (piece & Hin & Hp)].
    vm_compute in Hin. apply elem_of_cons in Hin as [->|Hin];
      [|apply list_elem_of_singleton in Hin as ->]; by vm_compute in Hp.
Defined.

(** ** The cells that the grid marks *)

Lemma prefix_app p s : String.prefix p (p +:+ s) = true.
Proof.
  induction p as [|a p IH]; [by destruct s|].
  change (String a p +:+ s) with (String a (p +:+ s)).
  rewrite prefix_cons. by destruct (ascii_dec a a).
Qed.

Lemma prefix_app_r a b s : String.prefix a b = true -> String.prefix a (b +:+ s) = true.
Proof.
  revert b. induction a as [|x a IH]; intros b H; [by destruct (b +:+ s)|].
  destruct b as [|y b]; [done|]. change (String y b +:+ s) with (String y (b +:+ s)).
  rewrite prefix_cons in *.
  destruct (ascii_dec x y); [by apply IH|done].
Qed.

Lemma prefix_app_l p a b : String.prefix (p +:+ a) (p +:+ b) = String.prefix a b.
Proof.
  induction p as [|x p IH]; [done|].
  change (String.prefix (String x p +:+ a) (String x p +:+ b))
    with (String.prefix (String x (p +:+ a)) (String x (p +:+ b))).
  rewrite prefix_cons.
  by destruct (ascii_dec x x).
Qed.

Lemma str_includes_prefix sub s : String.prefix sub s = true -> str_includes sub s = true.
Proof. intros H. destruct s; cbn [str_includes]; by rewrite H. Qed.

Lemma pretty_row_number (i : nat) : pretty (Z.of_nat i + 1) = pretty (S i).
Proof. by replace (Z.of_nat i + 1) with (Z.of_nat (S i)) by lia. Qed.

Lemma errorsAt_rendered key (allErrors : gmap string (list issue)) :
  default [] ((map render <$> allErrors) !! key) = map render (errorsAt key allErrors).
Proof. unfold errorsAt. rewrite lookup_fmap. by destruct (allErrors !! key). Qed.

(** X12: the grid marks the cells of a row when a message of its data set
    holds the text Row n for the number n of the row.  So every row that an
    error names is marked, when the id of the row is its index, as it is
    after a file is parsed; and a row is marked as well when an error names
    a row whose number only starts with the digits of its own: an error on
    row 10 marks row 1. *)
Theorem marked_rows (c w t s : list row) (d d' : dataset) (i j : nat) (id : jsval)
    (p : problem) (paramsRow : row) :
  RowIssue d' j id p ∈ errorsAt (type_name d) (fullValidation c w t s) ->
  String.prefix (pretty (S i)) (pretty (S j)) = true ->
  cellClassName (map render <$> fullValidation c w t s) d (VNum (Int (Z.of_nat i))) paramsRow
  = "error-cell".
Proof.
  intros Hin Hpre. unfold cellClassName. rewrite errorsAt_rendered.
  assert (hasError (map render (errorsAt (type_name d) (fullValidation c w t s)))
            (VNum (Int (Z.of_nat i))) paramsRow = true) as ->; [|done].
  unfold hasError. apply existsb_exists.
  exists (render (RowIssue d' j id p)). split.
  - apply in_map. by apply list_elem_of_In.
  - rewrite !orb_true_iff. left. left. left.
    apply str_includes_prefix.
    cbn [Val.plus Val.ToNumber JS.add JS.ToString Num.toString render].
    rewrite pretty_row_number, prefix_app_l. by apply prefix_app_r.
Qed.

Lemma marked_rows_witness :
  let good := mkRow [("ClientID", VStr "C1"); ("PriorityLevel", VStr "1")] in
  let bad := mkRow [("ClientID", VStr "C2"); ("PriorityLevel", VStr "9")] in
  let c := replicate 9 good ++ [bad] in
  cellClassName (map render <$> fullValidation c [] [] []) clients (VNum (Int (Z.of_nat 0))) good
  = "error-cell"
  /\ at_row 0 (errorsAt "clients" (fullValidation c [] [] [])) = [].
Proof.
  intros good bad c. split.
  - apply (marked_rows c [] [] [] clients clients 0 9 (VStr "C2") InvalidPriorityLevel good).
    + apply (bool_decide_unpack _). vm_compute. exact I.
    + vm_compute. reflexivity.
  - vm_compute. reflexivity.
Defined.

(** ** The PreferredPhases cell, between the two checks that read it *)

Lemma validatePreferredPhases_outside_arrays r i :
  JS.truthy (JS.get r "PreferredPhases") = true ->
  Str.startsWith "[" (Str.trim (JS.ToString (JS.get r "PreferredPhases")))
  && Str.endsWith "]" (Str.trim (JS.ToString (JS.get r "PreferredPhases"))) = false ->
  validatePreferredPhases [] r i <> [].
Proof.
  intros Htruthy Hb. unfold validatePreferredPhases. rewrite Htruthy, Hb.
  destruct (Regex.test re_range _) eqn:Hr.
  - apply test_backslash_first in Hr as (s' & ->).
    destruct (split_backslash_first "-" s') as (p & rest & ->); [done|].
    cbn [map]. rewrite ofString_backslash. by destruct rest.
  - destruct (Regex.test re_list _) eqn:Hl; [|done].
    apply test_backslash_first in Hl as (s' & ->).
    destruct (split_backslash_first "," s') as (p & rest & ->); [done|].
    cbn [map existsb]. by rewrite ofString_backslash.
Qed.

Lemma trim_bracket_no_backslash s s' :
  Str.startsWith "[" (Str.trim s) = true -> s <> String "\" s'.
Proof.
  intros H ->. destruct (trim_first "\" s' eq_refl) as (s'' & Hs). by rewrite Hs in H.
Qed.

(** X13: the schema check accepts a filled PreferredPhases cell in one
    form only: its text, trimmed, starts with an opening bracket, ends with a closing bracket and
    parses as a JSON array of numbers; every other text is reported.  The
    capacity check reads the same cell without trimming it: a cell that
    the schema check sees as an array but that has white space around the
    brackets gives the capacity check no phase at all. *)
Theorem preferred_phases_accepted_as_array_only (r : row) (i : nat) :
  (JS.truthy (JS.get r "PreferredPhases") = true ->
   (validatePreferredPhases [] r i = []
    <-> Str.startsWith "[" (Str.trim (JS.ToString (JS.get r "PreferredPhases")))
        && Str.endsWith "]" (Str.trim (JS.ToString (JS.get r "PreferredPhases"))) = true
        /\ exists parsedArray phases,
             Json.parse (Str.trim (JS.ToString (JS.get r "PreferredPhases"))) = Some parsedArray
             /\ number_array parsedArray = Some phases))
  /\ (forall s,
        Str.startsWith "[" (Str.trim s) = true ->
        Str.startsWith "[" s && Str.endsWith "]" s = false ->
        parsePreferredPhases s = []).
Proof.
  split.
  - intros Htruthy.
    destruct (Str.startsWith "[" (Str.trim (JS.ToString (JS.get r "PreferredPhases")))
              && Str.endsWith "]" (Str.trim (JS.ToString (JS.get r "PreferredPhases"))))
      eqn:Hb.
    + unfold validatePreferredPhases. rewrite Htruthy, Hb.
      destruct (Json.parse _) as [parsedArray|]; [destruct (number_array _) as [phases|] eqn:E|].
      * split; [|done]. intros _. split; [done|]. by exists parsedArray, phases.
      * split; [done|]. intros [_ (a & p & [= <-] & Hp)]. congruence.
      * split; [done|]. by intros [_ (a & p & [=] & _)].
    + split; [|by intros [[=] _]].
      intros H. by apply validatePreferredPhases_outside_arrays in H.
  - intros s Htrim Hb.
    destruct (decide (parsePreferredPhases s = [])) as [|Hne]; [done|].
    destruct (parsePreferredPhases_outside_arrays s Hb Hne) as [_ [s' Hs]].
    by apply (trim_bracket_no_backslash s s') in Htrim.
Qed.

Lemma preferred_phases_accepted_as_array_only_witness :
  validatePreferredPhases [] (scenarioTask " [1,2]" "1") 0 = []
  /\ parsePreferredPhases " [1,2]" = [].
Proof.
  destruct (preferred_phases_accepted_as_array_only (scenarioTask " [1,2]" "1") 0) as [H1 H2].
  split.
  - apply (H1 eq_refl). split; [reflexivity|].
    exists (JArr [JNum (Int 1); JNum (Int 2)]), [Int 1; Int 2]. by vm_compute.
  - apply H2; reflexivity.
Defined.

(** ** An upload and the state it validates *)

Lemma triggerFullValidationIn_report seen f d co wo to st :
  validationErrors (triggerFullValidationIn seen f d co wo to st)
  = (map render <$>
       fullValidation (default (clientsData seen) co) (default (workersData seen) wo)
                      (default (tasksData seen) to) (tasksData seen)).
Proof. reflexivity. Qed.

Lemma triggerFullValidationIn_unnamed seen f d co wo to st :
  str_includes "clients" f = false -> str_includes "workers" f = false ->
  str_includes "tasks" f = false ->
  clientsData (triggerFullValidationIn seen f d co wo to st) = clientsData st
  /\ workersData (triggerFullValidationIn seen f d co wo to st) = workersData st
  /\ tasksData (triggerFullValidationIn seen f d co wo to st) = tasksData st.
Proof. intros Hc Hw Ht. unfold triggerFullValidationIn. by rewrite Hc, Hw, Ht. Qed.

(** X14: an upload validates the page as it was when the upload was
    started, not the files: whatever files are chosen and whatever they
    hold, the report that the upload leaves is the report on the clients,
    workers and tasks of the state in which the button was pressed.  On an
    empty page the first upload so leaves an empty report.  The rows of a
    clients file chosen alone are stored all the same, with their ids. *)
Theorem upload_validates_previous_state
    (clientsFile workersFile tasksFile : option upload) (seen : pageState) :
  (is_Some clientsFile \/ is_Some workersFile \/ is_Some tasksFile ->
   validationErrors (handleUpload false clientsFile workersFile tasksFile seen)
   = (map render <$>
        fullValidation (clientsData seen) (workersData seen) (tasksData seen) (tasksData seen)))
  /\ (is_Some clientsFile \/ is_Some workersFile \/ is_Some tasksFile ->
      clientsData seen = [] -> workersData seen = [] -> tasksData seen = [] ->
      validationErrors (handleUpload false clientsFile workersFile tasksFile seen) = ∅)
  /\ (forall name rows,
        Str.endsWith ".csv" name || Str.endsWith ".xlsx" name = true ->
        clientsData
          (handleUpload false (Some {| fileName := name; parsedRows := Some rows |}) None None
             seen)
        = reindex rows).
Proof.
  assert (is_Some clientsFile \/ is_Some workersFile \/ is_Some tasksFile ->
          validationErrors (handleUpload false clientsFile workersFile tasksFile seen)
          = (map render <$>
               fullValidation (clientsData seen) (workersData seen) (tasksData seen)
                              (tasksData seen))) as Hreport.
  { intros Hsome. unfold handleUpload.
    destruct clientsFile, workersFile, tasksFile;
      try apply triggerFullValidationIn_report.
    destruct Hsome as [[? [=]]|[[? [=]]|[? [=]]]]. }
  split_and!.
  - exact Hreport.
  - intros Hsome Hc Hw Ht. rewrite (Hreport Hsome), Hc, Hw, Ht.
    by rewrite fullValidation_nothing, fmap_empty.
  - intros name rows Hext. unfold handleUpload, parseFile. cbn [from_option fileName parsedRows].
    rewrite Hext.
    destruct (triggerFullValidationIn_unnamed seen "batch-upload" [] None None None
                (triggerFullValidationIn seen name (reindex rows) None None None
                   (setData clients (reindex rows) (setValidationErrors ∅ seen))))
      as [-> _]; [reflexivity..|].
    unfold triggerFullValidationIn. by repeat case_match.
Qed.

Lemma upload_validates_previous_state_witness :
  let seen := {| clientsData := []; workersData := []; tasksData := [];
                 validationErrors := ∅ |} in
  let file := {| fileName := "clients.csv";
                 parsedRows := Some [mkRow [("ClientID", VStr "C1");
                                            ("PriorityLevel", VStr "9")]] |} in
  validationErrors (handleUpload false (Some file) None None seen) = ∅
  /\ clientsData (handleUpload false (Some file) None None seen)
     = reindex [mkRow [("ClientID", VStr "C1"); ("PriorityLevel", VStr "9")]]
  /\ validateSingleDataset
       (reindex [mkRow [("ClientID", VStr "C1"); ("PriorityLevel", VStr "9")]]) clients
     <> [].
Proof.
  intros seen file.
  destruct (upload_validates_previous_state (Some file) None None seen) as (_ & H1 & H2).
  split_and!.
  - apply H1; [left; by eexists|reflexivity..].
  - apply H2. reflexivity.
  - vm_compute. discriminate.
Defined.

(** ** The order of the saturation errors *)

Lemma goes_before_Int a b : JS.goes_before (Int a) (Int b) = (a <? b).
Proof.
  unfold JS.goes_before, Num.sub_sign, Num.cmp. simpl. rewrite !Z.mul_1_r.
  unfold Z.ltb. by destruct (a ?= b).
Qed.

Lemma sort_insert_Int x zs :
  StronglySorted Z.le zs ->
  exists zs', JS.sort_insert (Int x) (map Int zs) = map Int zs'
              /\ StronglySorted Z.le zs' /\ zs' ≡ₚ x :: zs.
Proof.
  induction zs as [|y r IH]; intros Hs.
  - exists [x]. split_and!; [done|repeat constructor|done].
  - apply StronglySorted_inv in Hs as [Hr Hy]. cbn [map JS.sort_insert].
    rewrite goes_before_Int. destruct (Z.ltb_spec x y) as [Hlt|Hge].
    + exists (x :: y :: r). split_and!; [done| |done].
      constructor; [by constructor|]. constructor; [lia|].
      eapply Forall_impl; [exact Hy|]. intros z Hz. simpl in Hz. lia.
    + destruct (IH Hr) as (zs' & -> & Hs' & Hperm).
      exists (y :: zs'). split_and!; [done| |].
      * constructor; [done|]. rewrite Hperm. constructor; [lia|done].
      * rewrite Hperm. apply Permutation_swap.
Qed.

Lemma sort_numbers_Int zs :
  exists zs', JS.sort_numbers (map Int zs) = map Int zs'
              /\ StronglySorted Z.le zs' /\ zs' ≡ₚ zs.
Proof.
  unfold JS.sort_numbers.
  assert (forall acc, StronglySorted Z.le acc ->
            exists zs', foldl (fun acc x => JS.sort_insert x acc) (map Int acc) (map Int zs)
                        = map Int zs'
                        /\ StronglySorted Z.le zs' /\ zs' ≡ₚ acc ++ zs) as H.
  { induction zs as [|x r IH]; intros acc Hacc.
    - exists acc. by rewrite app_nil_r.
    - cbn [map foldl]. destruct (sort_insert_Int x acc Hacc) as (acc' & -> & Hs & Hperm).
      destruct (IH acc' Hs) as (zs' & -> & Hs' & Hperm').
      exists zs'. split_and!; [done..|].
      rewrite Hperm', Hperm. simpl. apply Permutation_middle. }
  apply (H []). constructor.
Qed.

Lemma all_Int_map (l : list number) :
  Forall (fun p => exists z, p = Int z) l -> exists zl, l = map Int zl.
Proof.
  induction 1 as [|p l [z ->] _ [zl ->]]; [by exists []|]. by exists (z :: zl).
Qed.

Lemma filter_map_Int (g : number -> bool) zs :
  List.filter g (map Int zs) = map Int (List.filter (fun z => g (Int z)) zs).
Proof.
  induction zs as [|z zs IH]; [done|]. simpl. rewrite IH. by destruct (g (Int z)).
Qed.

Lemma StronglySorted_List_filter {A} (R : A -> A -> Prop) (f : A -> bool) l :
  StronglySorted R l -> StronglySorted R (List.filter f l).
Proof.
  induction 1 as [|x l Hl IH Hx]; simpl; [constructor|].
  destruct (f x); [|done]. constructor; [done|].
  apply Forall_forall. intros y Hy%list_elem_of_In%filter_In.
  destruct Hy as [Hy _]. apply list_elem_of_In in Hy.
  by eapply Forall_forall in Hx.
Qed.

Lemma sorted_NoDup_strict zs :
  StronglySorted Z.le zs -> NoDup zs -> StronglySorted Z.lt zs.
Proof.
  induction 1 as [|x l Hl IH Hx]; intros Hnd; [constructor|].
  apply NoDup_cons in Hnd as [Hnotin Hnd]. constructor; [by apply IH|].
  apply Forall_forall. intros y Hy.
  assert (x <= y) by (by eapply Forall_forall in Hx).
  assert (x <> y) by (by intros ->). lia.
Qed.

(** X15: when the preferred phases of the tasks are safe integers, the
    saturation errors come in the ascending order of their phases, each
    phase at most once: they are the errors of a strictly increasing list
    of phases, each with the total duration and the capacity that the check
    holds for its phase. *)
Theorem saturation_errors_by_ascending_phase (taskRows workerRows : list row) :
  Forall (fun task => Forall safe_integer (preferredPhasesOf task)) taskRows ->
  exists zs,
    StronglySorted Z.lt zs
    /\ validatePhaseSlotSaturation taskRows workerRows
       = map (fun z => PhaseSaturated (Int z) (totalTaskDurationInPhase taskRows (Int z))
                         (JS.num_or (phaseCapacitiesOf workerRows !! Int z) (Int 0)))
             zs.
Proof.
  intros Hint.
  assert (Forall (fun p => exists z, p = Int z) (allPhasesOf taskRows)) as Hall.
  { apply Forall_forall. intros p (task & Htask & Hp)%elem_of_allPhasesOf.
    eapply Forall_forall in Hint; [|exact Htask].
    eapply Forall_forall in Hint; [|exact Hp].
    destruct p; try done. by eexists. }
  destruct (all_Int_map _ Hall) as (zl & Hzl).
  assert (NoDup zl) as Hnd.
  { apply (NoDup_fmap_1 Int). change (Int <$> zl) with (map Int zl).
    rewrite <- Hzl, allPhasesOf_Set_from. apply Set_from_NoDup. }
  destruct (sort_numbers_Int zl) as (zs' & Hsort & Hs & Hperm).
  exists (List.filter
            (fun z => Num.gt (totalTaskDurationInPhase taskRows (Int z))
                        (JS.num_or (phaseCapacitiesOf workerRows !! Int z) (Int 0)))
            zs').
  split.
  - apply StronglySorted_List_filter, sorted_NoDup_strict; [done|]. by rewrite Hperm.
  - rewrite validatePhaseSlotSaturation_filter, Hzl, Hsort, filter_map_Int.
    by rewrite map_map.
Qed.

Lemma saturation_errors_by_ascending_phase_witness :
  exists zs,
    StronglySorted Z.lt zs
    /\ validatePhaseSlotSaturation [scenarioTask "[3, 1]" "5"; scenarioTask "[2,1]" "1"]
                                   [scenarioWorker "2" "4"]
       = map (fun z => PhaseSaturated (Int z)
                         (totalTaskDurationInPhase
                            [scenarioTask "[3, 1]" "5"; scenarioTask "[2,1]" "1"] (Int z))
                         (JS.num_or (phaseCapacitiesOf [scenarioWorker "2" "4"] !! Int z)
                                    (Int 0)))
             zs.
Proof.
  apply (saturation_errors_by_ascending_phase
           [scenarioTask "[3, 1]" "5"; scenarioTask "[2,1]" "1"] [scenarioWorker "2" "4"]).
  repeat constructor.
Defined.

(** ** Workers without slots *)

Lemma availableSlotsOf_empty worker :
  JS.truthy (JS.get worker "AvailableSlots") = false -> availableSlotsOf worker = [Int 0].
Proof. intros H. unfold availableSlotsOf, JS.or. by rewrite H. Qed.

(** X16: a worker whose AvailableSlots cell is empty or missing counts as
    available in phase 0: its cell reads as the one slot 0.  So when no
    worker fills the cell, the loads that the saturation check adds to the
    capacity of phase 0 are the loads of all the workers, one after the
    other, and it adds nothing to another phase; when the loads add up
    within the safe integers, the capacity of phase 0 is their sum. *)
Theorem empty_slots_feed_phase_zero (workerRows : list row) (p : number) :
  Forall (fun worker => JS.truthy (JS.get worker "AvailableSlots") = false) workerRows ->
  Forall (fun worker => availableSlotsOf worker = [Int 0]) workerRows
  /\ loadsAdded workerRows p
     = (if decide (p = Int 0)
        then map (fun worker => parseIntCellOr0 worker "MaxLoadPerPhase") workerRows
        else [])
  /\ (sumZ (map (fun worker => Z.abs (loadOf worker)) workerRows) <= MAX_SAFE_INTEGER ->
      JS.num_or (phaseCapacitiesOf workerRows !! p) (Int 0)
      = Int (if decide (p = Int 0) then sumZ (map loadOf workerRows) else 0)).
Proof.
  intros Hall. split_and!.
  - eapply Forall_impl; [exact Hall|]. apply availableSlotsOf_empty.
  - unfold loadsAdded. induction Hall as [|worker l Hw _ IH]; [by case_decide|].
    cbn [flat_map map]. rewrite IH, (availableSlotsOf_empty _ Hw). unfold occurrences.
    simpl. case_decide as Hp.
    + subst. by rewrite bool_decide_eq_true_2.
    + by rewrite bool_decide_eq_false_2 by (by intros <-).
  - intros _. rewrite phaseCapacitiesOf_lookup. f_equal. unfold capacityOf.
    induction Hall as [|worker l Hw _ IH]; [by case_decide|].
    cbn [map sumZ foldr]. fold (sumZ (map loadOf l)).
    fold (sumZ (map (fun worker =>
                       Z.of_nat (occurrences p (availableSlotsOf worker)) * loadOf worker) l)).
    rewrite IH, (availableSlotsOf_empty _ Hw). unfold occurrences. simpl.
    case_decide as Hp.
    + subst. rewrite bool_decide_eq_true_2 by done. simpl. lia.
    + rewrite bool_decide_eq_false_2 by (by intros <-). simpl. lia.
Qed.

Lemma empty_slots_feed_phase_zero_witness :
  let workerRows := [scenarioWorker "" "2"; mkRow [("MaxLoadPerPhase", VStr "3")]] in
  Forall (fun worker => availableSlotsOf worker = [Int 0]) workerRows
  /\ JS.num_or (phaseCapacitiesOf workerRows !! Int 0) (Int 0)
     = Int (if decide (Int 0 = Int 0) then sumZ (map loadOf workerRows) else 0)
  /\ sumZ (map loadOf workerRows) = 5.
Proof.
  intros workerRows.
  destruct (empty_slots_feed_phase_zero workerRows (Int 0)) as (H1 & _ & H2);
    [repeat constructor|].
  split_and!; [exact H1| |vm_compute; reflexivity].
  apply H2. vm_compute. discriminate.
Defined.

(** ** The checks of a row look at that row only *)

(** X17: the structural errors that the report lists for a row depend on
    that row and on its index alone: two passes in which the row stands at
    the same index of its data set list the same structural errors for it,
    whatever the other rows and the other data sets are. *)
Theorem row_checks_are_local (c w t s c' w' t' s' : list row) (i : nat) (r : row) :
  (c !! i = Some r -> c' !! i = Some r ->
   at_row i (of_category structural (errorsAt "clients" (fullValidation c w t s)))
   = at_row i (of_category structural (errorsAt "clients" (fullValidation c' w' t' s'))))
  /\ (w !! i = Some r -> w' !! i = Some r ->
      at_row i (of_category structural (errorsAt "workers" (fullValidation c w t s)))
      = at_row i (of_category structural (errorsAt "workers" (fullValidation c' w' t' s'))))
  /\ (t !! i = Some r -> t' !! i = Some r ->
      at_row i (of_category structural (errorsAt "tasks" (fullValidation c w t s)))
      = at_row i (of_category structural (errorsAt "tasks" (fullValidation c' w' t' s')))).
Proof.
  split_and!; intros H H'.
  - by rewrite (structural_clients _ _ _ _ _ _ H), (structural_clients _ _ _ _ _ _ H').
  - by rewrite (structural_workers _ _ _ _ _ _ H), (structural_workers _ _ _ _ _ _ H').
  - by rewrite (structural_tasks _ _ _ _ _ _ H), (structural_tasks _ _ _ _ _ _ H').
Qed.

(** ** A modification in natural language *)

(** X18: an answer of the modification service that is one array of rows
    replaces the first data set of the page that is not empty, clients
    before workers before tasks, whatever the request was about, and
    changes nothing on an empty page; an answer that is an object replaces
    the data sets it holds.  In both cases the pass that follows validates
    the data of the page as it was before the modification. *)
Theorem modification_goes_to_first_data_set (rows : list row) (sets : corrections)
    (seen : pageState) :
  (clientsData seen <> [] ->
   clientsData (handleNlDataModification (ModArray rows) seen) = reindex rows
   /\ workersData (handleNlDataModification (ModArray rows) seen) = workersData seen
   /\ tasksData (handleNlDataModification (ModArray rows) seen) = tasksData seen
   /\ validationErrors (handleNlDataModification (ModArray rows) seen)
      = (map render <$>
           fullValidation (clientsData seen) (workersData seen) (tasksData seen)
                          (tasksData seen)))
  /\ (clientsData seen = [] -> workersData seen <> [] ->
      clientsData (handleNlDataModification (ModArray rows) seen) = []
      /\ workersData (handleNlDataModification (ModArray rows) seen) = reindex rows
      /\ tasksData (handleNlDataModification (ModArray rows) seen) = tasksData seen
      /\ validationErrors (handleNlDataModification (ModArray rows) seen)
         = (map render <$>
              fullValidation (clientsData seen) (workersData seen) (tasksData seen)
                             (tasksData seen)))
  /\ (clientsData seen = [] -> workersData seen = [] -> tasksData seen = [] ->
      handleNlDataModification (ModArray rows) seen = seen)
  /\ (clientsData (handleNlDataModification (ModObject sets) seen)
        = corrected (corrClients sets) (clientsData seen)
      /\ workersData (handleNlDataModification (ModObject sets) seen)
        = corrected (corrWorkers sets) (workersData seen)
      /\ tasksData (handleNlDataModification (ModObject sets) seen)
        = corrected (corrTasks sets) (tasksData seen))
  /\ (is_Some (corrClients sets) \/ is_Some (corrWorkers sets) \/ is_Some (corrTasks sets) ->
      validationErrors (handleNlDataModification (ModObject sets) seen)
      = (map render <$>
           fullValidation (clientsData seen) (workersData seen) (tasksData seen)
                          (tasksData seen))).
Proof.
  split_and!.
  - intros Hc. unfold handleNlDataModification. cbn [corrClients corrWorkers corrTasks].
    destruct (clientsData seen) eqn:E; [done|]. cbn. by rewrite E.
  - intros Hc Hw. unfold handleNlDataModification. cbn [corrClients corrWorkers corrTasks].
    rewrite Hc. destruct (workersData seen) eqn:E; [done|]. cbn. by rewrite Hc, E.
  - intros Hc Hw Ht. unfold handleNlDataModification. cbn [corrClients corrWorkers corrTasks].
    by rewrite Hc, Hw, Ht.
  - by destruct sets as [[c|] [w|] [t|]].
  - by destruct sets as [[c|] [w|] [t|]].
  - by destruct sets as [[c|] [w|] [t|]].
  - intros Hsome. destruct sets as [[c|] [w|] [t|]]; try done.
    cbn in Hsome. destruct Hsome as [[? [=]]|[[? [=]]|[? [=]]]].
Qed.

Lemma modification_goes_to_first_data_set_witness :
  let seen := {| clientsData := reindex [mkRow [("ClientID", VStr "C1")]];
                 workersData := reindex [mkRow [("WorkerID", VStr "W1")]];
                 tasksData := []; validationErrors := ∅ |} in
  clientsData (handleNlDataModification (ModArray [mkRow [("WorkerID", VStr "W2")]]) seen)
  = reindex [mkRow [("WorkerID", VStr "W2")]]
  /\ workersData (handleNlDataModification (ModArray [mkRow [("WorkerID", VStr "W2")]]) seen)
     = workersData seen
  /\ tasksData (handleNlDataModification (ModArray [mkRow [("WorkerID", VStr "W2")]]) seen)
     = tasksData seen
  /\ validationErrors
       (handleNlDataModification (ModArray [mkRow [("WorkerID", VStr "W2")]]) seen)
     = (map render <$>
          fullValidation (clientsData seen) (workersData seen) (tasksData seen)
                         (tasksData seen)).
Proof.
  intros seen.
  destruct (modification_goes_to_first_data_set [mkRow [("WorkerID", VStr "W2")]]
              {| corrClients := None; corrWorkers := None; corrTasks := None |} seen)
    as [H _].
  apply H. subst seen. cbn [clientsData reindex imap]. discriminate.
Defined.

